(** * Risk-gated multi-account order replication: a shallow embedding

    This development embeds the risk manager ([mt5_risk_manager.py]) and the
    order replicator ([mt5_replicator.py]) of the trading bot and checks the
    properties its specification states about them.

    Conventions of the embedding:
    - Python floats are embedded as rationals [Q] with exact arithmetic;
      comparisons are the boolean tests of [Py]. A float division whose
      divisor is zero raises [ZeroDivisionError] in Python, so every such
      division is guarded explicitly and the raising path is written out.
      Where the volume of a new position is rounded to the volume step, a
      whole number is taken of a float quotient: there the quotient and the
      product are rounded to the nearest double ([Py.fl]).
    - Python dictionaries keyed by ticket, account id or group name are
      [gmap]s; sets of tickets are [gset]s.
    - The MetaTrader terminal and the target back-ends are the environment:
      what their calls return is an input of the embedded functions.
    - Log lines and gateway calls that a property talks about are returned as
      an explicit list of events. *)

From Stdlib Require Import QArith Qround Qabs Qminmax Qpower Lqa ZArith Lia.
From Stdlib Require SpecFloat.
From stdpp Require Import base gmap strings list fin_maps fin_sets pretty.

Local Open Scope Q_scope.

(** ** Python and numpy numerics on rationals *)
Module Py.

Definition ltb (x y : Q) : bool := negb (Qle_bool y x).
Definition leb (x y : Q) : bool := Qle_bool x y.
Definition eqb (x y : Q) : bool := Qeq_bool x y.
Definition gtb (x y : Q) : bool := ltb y x.
Definition geb (x y : Q) : bool := leb y x.

(** [max(a, b)] and [min(a, b)] of Python: the first argument wins a tie. *)
Definition max (a b : Q) : Q := if ltb a b then b else a.
Definition min (a b : Q) : Q := if ltb b a then b else a.

Definition floor (x : Q) : Q := inject_Z (Qfloor x).
Definition ceil (x : Q) : Q := inject_Z (Qceiling x).

(** [np.round]: round half to even. *)
Definition round (x : Q) : Q :=
  let f := Qfloor x in
  let d := x - inject_Z f in
  if ltb d (1 # 2) then inject_Z f
  else if ltb (1 # 2) d then inject_Z (f + 1)
  else if Z.even f then inject_Z f else inject_Z (f + 1).

(** [10 ** n] for an integer [n] (a float when [n] is negative). *)
Definition pow10 (n : Z) : Q := Qpower 10 n.

(** The double nearest to a real number, a tie going to the even mantissa:
    what a float division or multiplication answers for the exact quotient
    or product of its operands. A double has a mantissa of 53 bits: [e] is
    the exponent that puts the number between [2 ** 52] and [2 ** 53]. The
    overflow and subnormal ranges, far from the numbers met here, are left
    out. *)
Definition fl (x : Q) : Q :=
  if Qeq_bool x 0 then 0 else
  let a := Qabs x in
  let e0 := (Z.log2 (Qnum a) - Z.log2 (Zpos (Qden a)) - 53)%Z in
  let e := if Qle_bool (Qpower 2 53) (a / Qpower 2 e0) then (e0 + 1)%Z else e0 in
  let m := round (a / Qpower 2 e) in
  (if Qle_bool 0 x then m else - m) * Qpower 2 e.

(** The same operations in the specification of IEEE 754 of the Standard
    Library, for doubles: a whole number as a float, the quotient and the
    product of two floats, and the value of a finite float. *)
Definition sf_of_Z (n : Z) : SpecFloat.spec_float :=
  SpecFloat.binary_normalize 53 1024 n 0 false.
Definition sf_div (x y : SpecFloat.spec_float) : SpecFloat.spec_float :=
  SpecFloat.SFdiv 53 1024 x y.
Definition sf_mul (x y : SpecFloat.spec_float) : SpecFloat.spec_float :=
  SpecFloat.SFmul 53 1024 x y.
Definition sf_value (x : SpecFloat.spec_float) : Q :=
  match x with
  | SpecFloat.S754_finite s m e =>
      (if s then - inject_Z (Zpos m) else inject_Z (Zpos m)) * Qpower 2 e
  | _ => 0
  end.

Fixpoint sum (l : list Q) : Q :=
  match l with
  | [] => 0
  | x :: l' => x + sum l'
  end.

(** [l[-n:]] for [n > 0]. *)
Definition last_n {A} (n : nat) (l : list A) : list A :=
  drop (length l - n) l.

(** A float that may have come out of numpy: numpy does not raise on a zero
    divisor, it answers an infinity or NaN. Zero carries no sign here. *)
Inductive F := Fin (q : Q) | PInf | NInf | NaN.

Definition sgn (q : Q) : Z :=
  if ltb 0 q then 1%Z else if ltb q 0 then (-1)%Z else 0%Z.

Definition inf_of_sign (s : Z) : F :=
  if (0 <? s)%Z then PInf else if (s <? 0)%Z then NInf else NaN.

Definition fsgn (x : F) : Z :=
  match x with
  | Fin q => sgn q
  | PInf => 1%Z
  | NInf => (-1)%Z
  | NaN => 0%Z
  end.

Definition fmul (x y : F) : F :=
  match x, y with
  | NaN, _ | _, NaN => NaN
  | Fin a, Fin b => Fin (a * b)
  | _, _ => inf_of_sign (fsgn x * fsgn y)
  end.

Definition fdiv (x y : F) : F :=
  match x, y with
  | NaN, _ | _, NaN => NaN
  | Fin a, Fin b => if eqb b 0 then inf_of_sign (sgn a) else Fin (a / b)
  | Fin _, _ => Fin 0
  | _, Fin b => inf_of_sign (fsgn x * (if eqb b 0 then 1 else sgn b))
  | _, _ => NaN
  end.

Definition fltb (x y : F) : bool :=
  match x, y with
  | NaN, _ | _, NaN => false
  | Fin a, Fin b => ltb a b
  | NInf, NInf | PInf, _ => false
  | NInf, _ | _, PInf => true
  | _, NInf => false
  end.

Definition fgtb (x y : F) : bool := fltb y x.

(** Python's [max(a, b)] and [min(a, b)] on such floats. *)
Definition fmax (a b : F) : F := if fgtb b a then b else a.
Definition fmin (a b : F) : F := if fltb b a then b else a.

Definition fmap_fin (f : Q -> Q) (x : F) : F :=
  match x with
  | Fin q => Fin (f q)
  | _ => x
  end.

End Py.

(** ** The risk manager *)
Module RiskManager.

(** *** Constants of the MetaTrader5 package *)
Definition POSITION_TYPE_BUY : Z := 0%Z.
Definition POSITION_TYPE_SELL : Z := 1%Z.

(** *** What the terminal returns *)

(** [mt5.account_info()] *)
Record Account := {
  acc_login : Z;
  acc_server : string;
  acc_currency : string;
  acc_leverage : Z;
  acc_balance : Q;
  acc_equity : Q;
  acc_margin : Q;
  acc_margin_free : Q;
  acc_margin_level : Q;
  acc_profit : Q
}.

(** An element of [mt5.positions_get()] *)
Record TPosition := {
  tp_ticket : Z;
  tp_symbol : string;
  tp_type : Z;
  tp_volume : Q;
  tp_price_open : Q;
  tp_price_current : Q;
  tp_sl : Q;
  tp_tp : Q;
  tp_profit : Q;
  tp_swap : Q;
  tp_time : Z;
  tp_magic : Z;
  tp_comment : string
}.

(** [mt5.symbol_info(symbol)] *)
Record SymbolInfo := {
  point : Q;
  digits : Z;
  volume_min : Q;
  volume_max : Q;
  volume_step : Q;
  trade_tick_value : Q;
  trade_contract_size : Q
}.

(** [mt5.symbol_info_tick(symbol)] *)
Record Tick := { bid : Q; ask : Q }.

(** A row of [mt5.copy_rates_from_pos] *)
Record Bar := { high : Q; low : Q; close : Q }.

(** The requests [manage_position] sends through [mt5.order_send]. *)
Inductive Request :=
| ReqSLTP (ticket : Z) (sl tp : Q)
| ReqDeal (ticket : Z) (symbol : string) (volume : Q) (close_type : Z) (price : Q).

(** The terminal as the risk manager sees it. [t_corr s1 s2] is the entry
    [corr_matrix.loc[s1, s2]] that pandas computes from the rates of the
    configured timeframe: [None] when a symbol is not in the matrix or the
    entry is NaN (every comparison with NaN is false). [t_accepts r] tells
    whether [mt5.order_send(r)] answers [TRADE_RETCODE_DONE]. *)
Record Terminal := {
  t_account_info : option Account;
  t_positions_get : option (list TPosition);
  t_symbol_info : string -> option SymbolInfo;
  t_symbol_info_tick : string -> option Tick;
  t_copy_rates_d1 : string -> nat -> option (list Bar);
  t_has_rates : string -> bool;
  t_corr : string -> string -> option Q;
  t_accepts : Request -> bool
}.

(** [datetime.now()] as the checks read it. *)
Record Clock := {
  today : Z;
  now_year : Z;
  now_week : Z;
  now_month : Z;
  now_weekday : Z;
  now_hour : Z;
  now_time : Z
}.

(** How the terminal reacts to an accepted request: a stop modification
    rewrites the levels of the position, a closing deal takes its volume off
    the position and removes the position once nothing is left. *)
Definition apply_request (r : Request) (ps : list TPosition) : list TPosition :=
  match r with
  | ReqSLTP k sl tp =>
      map (fun p =>
             if (tp_ticket p =? k)%Z then
               {| tp_ticket := tp_ticket p; tp_symbol := tp_symbol p;
                  tp_type := tp_type p; tp_volume := tp_volume p;
                  tp_price_open := tp_price_open p;
                  tp_price_current := tp_price_current p;
                  tp_sl := sl; tp_tp := tp; tp_profit := tp_profit p;
                  tp_swap := tp_swap p; tp_time := tp_time p;
                  tp_magic := tp_magic p; tp_comment := tp_comment p |}
             else p) ps
  | ReqDeal k _ vol _ _ =>
      omap (fun p =>
              if (tp_ticket p =? k)%Z then
                if Py.ltb vol (tp_volume p) then
                  Some {| tp_ticket := tp_ticket p; tp_symbol := tp_symbol p;
                          tp_type := tp_type p; tp_volume := tp_volume p - vol;
                          tp_price_open := tp_price_open p;
                          tp_price_current := tp_price_current p;
                          tp_sl := tp_sl p; tp_tp := tp_tp p;
                          tp_profit := tp_profit p; tp_swap := tp_swap p;
                          tp_time := tp_time p; tp_magic := tp_magic p;
                          tp_comment := tp_comment p |}
                else None
              else Some p) ps
  end.

Definition with_positions (t : Terminal) (ps : option (list TPosition)) : Terminal :=
  {| t_account_info := t_account_info t; t_positions_get := ps;
     t_symbol_info := t_symbol_info t;
     t_symbol_info_tick := t_symbol_info_tick t;
     t_copy_rates_d1 := t_copy_rates_d1 t; t_has_rates := t_has_rates t;
     t_corr := t_corr t; t_accepts := t_accepts t |}.

(** [mt5.order_send(request)]: whether the answer is [TRADE_RETCODE_DONE],
    and the terminal afterwards. *)
Definition order_send (r : Request) (t : Terminal) : bool * Terminal :=
  if t_accepts t r
  then (true, with_positions t (apply_request r <$> t_positions_get t))
  else (false, t).

(** *** Configuration ([_load_config]) *)

Record RiskLimitsCfg := {
  max_daily_loss_percent : Q;
  max_weekly_loss_percent : Q;
  max_monthly_loss_percent : Q;
  max_drawdown_percent : Q;
  max_open_positions : Z;
  max_positions_per_symbol : Z
}.

Record PositionSizingCfg := {
  ps_method : string;
  fixed_lot_size : Q;
  risk_percent : Q;
  equity_percent : Q;
  kelly_fraction : Q;
  martingale_factor : Q;
  anti_martingale_factor : Q;
  volatility_factor : Q;
  ps_atr_period : nat;
  position_size_rounding : string
}.

Record StopLossCfg := {
  sl_method : string;
  sl_fixed_pips : Q;
  sl_atr_multiple : Q;
  sl_atr_period : nat;
  sl_percent_risk : Q;
  sl_min_pips : Q;
  sl_max_pips : Q
}.

Record TrailingStopCfg := {
  ts_enabled : bool;
  ts_activation_pips : Q;
  ts_distance_pips : Q;
  ts_step_pips : Q
}.

Record BreakEvenCfg := {
  be_enabled : bool;
  be_activation_pips : Q;
  be_offset_pips : Q
}.

Record Level := { profit_pips : Q; close_percent : Q }.

Record PartialCloseCfg := { pc_enabled : bool; pc_levels : list Level }.

Record TimeFilterCfg := {
  tf_enabled : bool;
  start_hour : Z;
  end_hour : Z;
  trade_monday : bool;
  trade_tuesday : bool;
  trade_wednesday : bool;
  trade_thursday : bool;
  trade_friday : bool;
  trade_saturday : bool;
  trade_sunday : bool;
  avoid_high_impact_news : bool
}.

Record CorrelationCfg := { cr_enabled : bool; cr_threshold : Q }.

Record VolatilityFilterCfg := {
  vf_enabled : bool;
  vf_atr_period : nat;
  min_atr_multiple : Q;
  max_atr_multiple : Q
}.

Record RecoveryCfg := {
  rm_enabled : bool;
  trigger_consecutive_losses : nat;
  risk_reduction_percent : Q;
  min_win_streak_to_reset : nat;
  max_recovery_days : Z
}.

Record Config := {
  risk_limits_cfg : RiskLimitsCfg;
  position_sizing : PositionSizingCfg;
  stop_loss : StopLossCfg;
  trailing_stop : TrailingStopCfg;
  break_even : BreakEvenCfg;
  partial_close : PartialCloseCfg;
  time_filter : TimeFilterCfg;
  correlation_risk : CorrelationCfg;
  volatility_filter : VolatilityFilterCfg;
  recovery_mode : RecoveryCfg
}.

Definition default_config : Config := {|
  risk_limits_cfg := {|
    max_daily_loss_percent := 3; max_weekly_loss_percent := 7;
    max_monthly_loss_percent := 15; max_drawdown_percent := 20;
    max_open_positions := 5; max_positions_per_symbol := 2 |};
  position_sizing := {|
    ps_method := "risk"; fixed_lot_size := 0.01; risk_percent := 1;
    equity_percent := 2; kelly_fraction := 0.5; martingale_factor := 2;
    anti_martingale_factor := 1.5; volatility_factor := 1;
    ps_atr_period := 14; position_size_rounding := "down" |};
  stop_loss := {|
    sl_method := "fixed"; sl_fixed_pips := 20; sl_atr_multiple := 1.5;
    sl_atr_period := 14; sl_percent_risk := 1; sl_min_pips := 10;
    sl_max_pips := 100 |};
  trailing_stop := {|
    ts_enabled := true; ts_activation_pips := 15; ts_distance_pips := 10;
    ts_step_pips := 5 |};
  break_even := {|
    be_enabled := true; be_activation_pips := 10; be_offset_pips := 2 |};
  partial_close := {|
    pc_enabled := true;
    pc_levels := [ {| profit_pips := 15; close_percent := 25 |};
                   {| profit_pips := 30; close_percent := 25 |};
                   {| profit_pips := 45; close_percent := 25 |} ] |};
  time_filter := {|
    tf_enabled := true; start_hour := 8; end_hour := 20;
    trade_monday := true; trade_tuesday := true; trade_wednesday := true;
    trade_thursday := true; trade_friday := true; trade_saturday := false;
    trade_sunday := false; avoid_high_impact_news := true |};
  correlation_risk := {| cr_enabled := true; cr_threshold := 0.7 |};
  volatility_filter := {|
    vf_enabled := true; vf_atr_period := 14; min_atr_multiple := 0.5;
    max_atr_multiple := 3 |};
  recovery_mode := {|
    rm_enabled := true; trigger_consecutive_losses := 3;
    risk_reduction_percent := 50; min_win_streak_to_reset := 2;
    max_recovery_days := 5 |}
|}.

(** *** State of an [MT5RiskManager] *)

(** [self.account_info] *)
Record AccountInfo := {
  login : Z;
  server : string;
  currency : string;
  leverage : Z;
  balance : Q;
  equity : Q;
  margin : Q;
  free_margin : Q;
  margin_level : Q;
  profit : Q;
  drawdown_percent : Q
}.

(** A value of [self.positions]. Besides the thirteen keys written by
    [update_positions] the dictionary receives the keys
    [partial_close_<profit_pips>] written by [manage_position];
    [partial_close_keys] lists the levels whose key is present. *)
Record Position := {
  ticket : Z;
  symbol : string;
  type : Z;
  volume : Q;
  open_price : Q;
  current_price : Q;
  sl : Q;
  tp : Q;
  pos_profit : Q;
  swap : Q;
  time : Z;
  magic : Z;
  comment : string;
  partial_close_keys : list Q
}.

(** An element of [self.trade_history]; [close_time] in seconds. *)
Record Trade := {
  tr_ticket : Z;
  tr_symbol : string;
  tr_type : Z;
  tr_volume : Q;
  tr_profit : Q;
  tr_close_time : Z
}.

(** A row of the daily, weekly or monthly statistics. *)
Record StatRow := {
  st_trades : Z;
  st_profit : Q;
  st_wins : Z;
  st_losses : Z;
  st_win_rate : Q
}.

(** [self.risk_limits] *)
Record RiskLimits := {
  daily_loss_reached : bool;
  weekly_loss_reached : bool;
  monthly_loss_reached : bool;
  max_positions_reached : bool;
  max_drawdown_reached : bool;
  max_risk_per_trade_reached : bool;
  max_risk_per_symbol_reached : gmap string bool;
  correlation_risk_high : bool
}.

Definition no_limits : RiskLimits := {|
  daily_loss_reached := false; weekly_loss_reached := false;
  monthly_loss_reached := false; max_positions_reached := false;
  max_drawdown_reached := false; max_risk_per_trade_reached := false;
  max_risk_per_symbol_reached := ∅; correlation_risk_high := false |}.

Record State := {
  config : Config;
  account_info : option AccountInfo;
  positions : gmap Z Position;
  trade_history : list Trade;
  daily_stats : gmap Z StatRow;
  weekly_stats : gmap (Z * Z) StatRow;
  monthly_stats : gmap (Z * Z) StatRow;
  risk_limits : RiskLimits
}.

(** [MT5RiskManager(config)] right after [__init__]. *)
Definition init (c : Config) : State := {|
  config := c; account_info := None; positions := ∅; trade_history := [];
  daily_stats := ∅; weekly_stats := ∅; monthly_stats := ∅;
  risk_limits := no_limits |}.

Definition set_account_info (a : option AccountInfo) (s : State) : State :=
  {| config := config s; account_info := a; positions := positions s;
     trade_history := trade_history s; daily_stats := daily_stats s;
     weekly_stats := weekly_stats s; monthly_stats := monthly_stats s;
     risk_limits := risk_limits s |}.

Definition set_positions (ps : gmap Z Position) (s : State) : State :=
  {| config := config s; account_info := account_info s; positions := ps;
     trade_history := trade_history s; daily_stats := daily_stats s;
     weekly_stats := weekly_stats s; monthly_stats := monthly_stats s;
     risk_limits := risk_limits s |}.

Definition set_risk_limits (rl : RiskLimits) (s : State) : State :=
  {| config := config s; account_info := account_info s;
     positions := positions s; trade_history := trade_history s;
     daily_stats := daily_stats s; weekly_stats := weekly_stats s;
     monthly_stats := monthly_stats s; risk_limits := rl |}.

(** *** [update_account_info] *)

(** The drawdown of lines 254-258: the branch on [balance > 0] protects the
    division. *)
Definition compute_drawdown (bal eq : Q) : Q :=
  if Py.gtb bal 0 then (1 - eq / bal) * 100 else 0.

Definition account_dict (a : Account) : AccountInfo := {|
  login := acc_login a; server := acc_server a; currency := acc_currency a;
  leverage := acc_leverage a; balance := acc_balance a;
  equity := acc_equity a; margin := acc_margin a;
  free_margin := acc_margin_free a; margin_level := acc_margin_level a;
  profit := acc_profit a;
  drawdown_percent := compute_drawdown (acc_balance a) (acc_equity a) |}.

Definition update_account_info (t : Terminal) (s : State) : State * bool :=
  match t_account_info t with
  | None => (s, false)
  | Some a => (set_account_info (Some (account_dict a)) s, true)
  end.

(** *** [update_positions] *)

Definition pos_dict (p : TPosition) : Position := {|
  ticket := tp_ticket p; symbol := tp_symbol p; type := tp_type p;
  volume := tp_volume p; open_price := tp_price_open p;
  current_price := tp_price_current p; sl := tp_sl p; tp := tp_tp p;
  pos_profit := tp_profit p; swap := tp_swap p; time := tp_time p;
  magic := tp_magic p; comment := tp_comment p; partial_close_keys := [] |}.

Definition new_positions (ps : list TPosition) : gmap Z Position :=
  foldl (fun m p => <[tp_ticket p := pos_dict p]> m) ∅ ps.

Definition update_positions (t : Terminal) (s : State) : State * bool :=
  match t_positions_get t with
  | None => (set_positions ∅ s, true)
  | Some ps => (set_positions (new_positions ps) s, true)
  end.

(** [self.positions.values()] *)
Definition position_values (s : State) : list Position :=
  (map_to_list (positions s)).*2.

(** *** [_check_correlation_risk] *)

Fixpoint pairs {A} (l : list A) : list (A * A) :=
  match l with
  | [] => []
  | x :: r => map (pair x) r ++ pairs r
  end.

Definition types_of (sym : string) (ps : list Position) : list Z :=
  map type (filter (fun p => symbol p = sym) ps).

(** [any(t1 == t2 for t1 in l1 for t2 in l2)] and its [!=] twin. *)
Definition any_same (l1 l2 : list Z) : bool :=
  existsb (fun t1 => existsb (fun t2 => (t1 =? t2)%Z) l2) l1.
Definition any_different (l1 l2 : list Z) : bool :=
  existsb (fun t1 => existsb (fun t2 => negb (t1 =? t2)%Z) l2) l1.

Definition pair_risk (t : Terminal) (threshold : Q) (ps : list Position)
    (pr : string * string) : bool :=
  let '(symbol1, symbol2) := pr in
  if t_has_rates t symbol1 && t_has_rates t symbol2 then
    match t_corr t symbol1 symbol2 with
    | Some correlation =>
        if Py.gtb correlation threshold then
          any_same (types_of symbol1 ps) (types_of symbol2 ps)
        else if Py.ltb correlation (- threshold) then
          any_different (types_of symbol1 ps) (types_of symbol2 ps)
        else false
    | None => false
    end
  else false.

(** [unique_symbols] is [list(set(symbols))]; the answer does not depend on
    the order in which Python enumerates that set when [t_corr] is symmetric,
    and the first-occurrence order is taken here. *)
Definition _check_correlation_risk (t : Terminal) (s : State) : bool :=
  let ps := position_values s in
  if (length ps <? 2)%nat then false else
  let unique_symbols := remove_dups (map symbol ps) in
  if (length unique_symbols <? 2)%nat then false else
  let price_data := filter (fun sym => t_has_rates t sym = true) unique_symbols in
  if (length price_data <? 2)%nat then false else
  existsb (pair_risk t (cr_threshold (correlation_risk (config s))) ps)
          (pairs unique_symbols).

(** *** [check_risk_limits] *)

(** One of the three loss checks (daily, weekly, monthly). [None] is the
    [ZeroDivisionError] of [abs(profit) / balance] on a zero balance. *)
Definition loss_check (acct : option AccountInfo) (row : option StatRow)
    (max_loss : Q) : option bool :=
  match row with
  | None => Some false
  | Some r =>
      match acct with
      | Some a =>
          if Py.ltb (st_profit r) 0 then
            if Py.eqb (balance a) 0 then None
            else Some (Py.gtb (Qabs (st_profit r) / balance a * 100) max_loss)
          else Some false
      | None => Some false
      end
  end.

(** The dictionary [symbols] of check 6: open positions per symbol. *)
Definition symbol_counts (ps : list Position) : gmap string Z :=
  foldl (fun m p => <[symbol p := (default 0 (m !! symbol p) + 1)%Z]> m) ∅ ps.

Definition symbol_flags (mx : Z) (ps : list Position) : gmap string bool :=
  (fun _ => true) <$> filter (fun kv : string * Z => (mx <= kv.2)%Z) (symbol_counts ps).

Definition map_is_empty {K A} `{Countable K} (m : gmap K A) : bool :=
  match map_to_list m with [] => true | _ => false end.

Definition limits (dd mp d w m : bool) (sym : gmap string bool) (corr : bool)
    : RiskLimits := {|
  daily_loss_reached := d; weekly_loss_reached := w;
  monthly_loss_reached := m; max_positions_reached := mp;
  max_drawdown_reached := dd; max_risk_per_trade_reached := false;
  max_risk_per_symbol_reached := sym; correlation_risk_high := corr |}.

(** The seven checks in source order. A check that raises ends the function
    in the [except] branch: the flags written so far stay in
    [self.risk_limits] and the answer is [False]. *)
Definition check_risk_limits (clk : Clock) (t : Terminal) (s0 : State)
    : State * bool :=
  let s1 := (update_account_info t s0).1 in
  let s := (update_positions t s1).1 in
  let cfg := risk_limits_cfg (config s) in
  let acct := account_info s in
  let dd :=
    match acct with
    | Some a => Py.gtb (drawdown_percent a) (max_drawdown_percent cfg)
    | None => false
    end in
  let mp := (max_open_positions cfg <=? Z.of_nat (size (positions s)))%Z in
  match loss_check acct (daily_stats s !! today clk)
                   (max_daily_loss_percent cfg) with
  | None => (set_risk_limits (limits dd mp false false false ∅ false) s, false)
  | Some d =>
  match loss_check acct (weekly_stats s !! (now_year clk, now_week clk))
                   (max_weekly_loss_percent cfg) with
  | None => (set_risk_limits (limits dd mp d false false ∅ false) s, false)
  | Some w =>
  match loss_check acct (monthly_stats s !! (now_year clk, now_month clk))
                   (max_monthly_loss_percent cfg) with
  | None => (set_risk_limits (limits dd mp d w false ∅ false) s, false)
  | Some m =>
      let sym := symbol_flags (max_positions_per_symbol cfg) (position_values s) in
      let corr :=
        if cr_enabled (correlation_risk (config s))
        then _check_correlation_risk t s else false in
      (set_risk_limits (limits dd mp d w m sym corr) s,
       negb dd && negb mp && negb d && negb w && negb m
       && map_is_empty sym && negb corr)
  end end end.

(** *** [_check_trading_time] *)

(** [_check_high_impact_news] is a stub that answers [False]. *)
Definition _check_high_impact_news : bool := false.

Definition _check_trading_time (clk : Clock) (s : State) : bool :=
  let f := time_filter (config s) in
  if negb (tf_enabled f) then true else
  let weekday := now_weekday clk in
  if (weekday =? 0)%Z && negb (trade_monday f) then false
  else if (weekday =? 1)%Z && negb (trade_tuesday f) then false
  else if (weekday =? 2)%Z && negb (trade_wednesday f) then false
  else if (weekday =? 3)%Z && negb (trade_thursday f) then false
  else if (weekday =? 4)%Z && negb (trade_friday f) then false
  else if (weekday =? 5)%Z && negb (trade_saturday f) then false
  else if (weekday =? 6)%Z && negb (trade_sunday f) then false
  else
    let hour := now_hour clk in
    if (hour <? start_hour f)%Z || (end_hour f <=? hour)%Z then false
    else if avoid_high_impact_news f && _check_high_impact_news then false
    else true.

(** *** Average true range, as the three ATR users compute it *)

(** The column [tr]: the first row has no previous close, its two NaN
    candidates are skipped by [max(axis=1)]. *)
Fixpoint true_ranges (prev : option Bar) (rates : list Bar) : list Q :=
  match rates with
  | [] => []
  | b :: r =>
      let high_low := high b - low b in
      let tr :=
        match prev with
        | None => high_low
        | Some p =>
            Qmax high_low (Qmax (Qabs (high b - close p)) (Qabs (low b - close p)))
        end in
      tr :: true_ranges (Some b) r
  end.

(** [df["tr"].rolling(window=atr_period).mean().iloc[-1]]: NaN when the
    window is empty or longer than the frame. *)
Definition atr (rates : list Bar) (atr_period : nat) : Py.F :=
  let trs := true_ranges None rates in
  if (atr_period =? 0)%nat || (length trs <? atr_period)%nat then Py.NaN
  else Py.Fin (Py.sum (Py.last_n atr_period trs) / inject_Z (Z.of_nat atr_period)).

(** [atr / (10 * point)]: a numpy division. *)
Definition atr_pips (rates : list Bar) (atr_period : nat) (info : SymbolInfo) : Py.F :=
  Py.fdiv (atr rates atr_period) (Py.Fin (10 * point info)).

(** *** [_check_volatility_filter] *)
Definition _check_volatility_filter (t : Terminal) (s : State) (sym : string) : bool :=
  let c := volatility_filter (config s) in
  match t_copy_rates_d1 t sym (vf_atr_period c + 1) with
  | None => true
  | Some rates =>
      if (length rates <? vf_atr_period c + 1)%nat then true else
      match t_symbol_info t sym with
      | None => true
      | Some info =>
          let pips := atr_pips rates (vf_atr_period c) info in
          if Py.fltb pips (Py.Fin (min_atr_multiple c)) then false
          else if Py.fgtb pips (Py.Fin (max_atr_multiple c)) then false
          else true
      end
  end.

(** *** [_check_recovery_mode] *)

(** [sorted(l, key=close_time, reverse=True)]: stable. *)
Fixpoint insert_desc (x : Trade) (l : list Trade) : list Trade :=
  match l with
  | [] => [x]
  | y :: r =>
      if (tr_close_time y <=? tr_close_time x)%Z then x :: l
      else y :: insert_desc x r
  end.

Definition sorted_desc (l : list Trade) : list Trade := foldr insert_desc [] l.

(** The loop counting the leading losses, stopped at the trigger. *)
Fixpoint count_losses (trigger n : nat) (l : list Trade) : nat :=
  match l with
  | [] => n
  | tr :: r =>
      if Py.ltb (tr_profit tr) 0 then
        if (trigger <=? S n)%nat then S n else count_losses trigger (S n) r
      else n
  end.

(** The branch on [hasattr(self, "_recovery_active")] is dead: the attribute
    is assigned nowhere but inside that branch. [recent_trades[-1]] is read
    when the trigger is zero; an empty list raises [IndexError] there and the
    handler answers [False]. *)
Definition _check_recovery_mode (s : State) : bool :=
  let c := recovery_mode (config s) in
  let trigger := trigger_consecutive_losses c in
  if (length (trade_history s) <? trigger)%nat then false else
  let recent := sorted_desc (trade_history s) in
  if (trigger <=? count_losses trigger 0 recent)%nat then
    match head recent,
          (if (trigger =? 0)%nat then last recent else recent !! (trigger - 1)%nat) with
    | Some first, Some kth =>
        if (max_recovery_days c * 86400 <? tr_close_time first - tr_close_time kth)%Z
        then false else true
    | _, _ => false
    end
  else false.

(** *** [check_trading_allowed] *)
Definition check_trading_allowed (clk : Clock) (t : Terminal) (s0 : State)
    (sym : string) : State * bool :=
  let '(s, ok) := check_risk_limits clk t s0 in
  if negb ok then (s, false)
  else if negb (_check_trading_time clk s) then (s, false)
  else if negb (String.eqb sym "") then
    let symbol_positions := filter (fun p => symbol p = sym) (position_values s) in
    if (max_positions_per_symbol (risk_limits_cfg (config s))
          <=? Z.of_nat (length symbol_positions))%Z then (s, false)
    else if default false (max_risk_per_symbol_reached (risk_limits s) !! sym)
    then (s, false)
    else if vf_enabled (volatility_filter (config s))
            && negb (_check_volatility_filter t s sym) then (s, false)
    else (s, true)
  else (s, true).

(** *** Position sizing models *)

(** [if not self.account_info: self.update_account_info()] *)
Definition ensure_account_info (t : Terminal) (s : State) : State :=
  match account_info s with
  | Some _ => s
  | None => (update_account_info t s).1
  end.

Definition fixed_lot (s : State) : Py.F :=
  Py.Fin (fixed_lot_size (position_sizing (config s))).

(** [symbol_info.trade_tick_value * (10 ** (symbol_info.digits - 4))] *)
Definition pip_value (info : SymbolInfo) : Q :=
  trade_tick_value info * Py.pow10 (digits info - 4).

(** The common tail of the risk, Kelly and volatility models: the guard
    makes the divisor positive. *)
Definition volume_for_risk (s : State) (risk_amount pips : Py.F) (pv : Q) : Py.F :=
  if Py.fgtb pips (Py.Fin 0) && Py.gtb pv 0
  then Py.fdiv risk_amount (Py.fmul pips (Py.Fin pv))
  else fixed_lot s.

Definition _fixed_position_size (t : Terminal) (s : State) (sym action : string)
    (stop_loss_pips : Py.F) : State * Py.F :=
  (s, fixed_lot s).

Definition _risk_based_position_size (t : Terminal) (s0 : State)
    (sym action : string) (stop_loss_pips : Py.F) : State * Py.F :=
  let s := ensure_account_info t s0 in
  match account_info s with
  | None => (s, fixed_lot s)
  | Some a =>
      match t_symbol_info t sym with
      | None => (s, fixed_lot s)
      | Some info =>
          let risk_amount := balance a * (risk_percent (position_sizing (config s)) / 100) in
          (s, volume_for_risk s (Py.Fin risk_amount) stop_loss_pips (pip_value info))
      end
  end.

Definition _equity_based_position_size (t : Terminal) (s0 : State)
    (sym action : string) (stop_loss_pips : Py.F) : State * Py.F :=
  let s := ensure_account_info t s0 in
  match account_info s with
  | None => (s, fixed_lot s)
  | Some a =>
      match t_symbol_info t sym with
      | None => (s, fixed_lot s)
      | Some info =>
          match t_symbol_info_tick t sym with
          | None => (s, fixed_lot s)
          | Some last_tick =>
              let price := if String.eqb action "BUY" then ask last_tick else bid last_tick in
              let position_value :=
                equity a * (equity_percent (position_sizing (config s)) / 100) in
              if Py.gtb price 0 then
                (* a zero contract size raises and the handler answers the fixed lot *)
                if Py.eqb (price * trade_contract_size info) 0 then (s, fixed_lot s)
                else (s, Py.Fin (position_value / (price * trade_contract_size info)))
              else (s, fixed_lot s)
          end
      end
  end.

Definition mean (l : list Q) : Q := Py.sum l / inject_Z (Z.of_nat (length l)).

(** [win_rate] and [odds] of the Kelly model (lines 1085-1095); the history
    holds at least ten trades where they are used. *)
Definition kelly_win_rate (h : list Trade) : Q :=
  let wins := length (List.filter (fun p => Py.gtb p 0) (map tr_profit h)) in
  inject_Z (Z.of_nat wins) / inject_Z (Z.of_nat (length h)).

Definition kelly_odds (h : list Trade) : Q :=
  let winning := List.filter (fun p => Py.gtb p 0) (map tr_profit h) in
  let losing := List.filter (fun p => Py.leb p 0) (map tr_profit h) in
  let wins := length winning in
  let total := length h in
  let avg_win := if (0 <? wins)%nat then mean winning else 1 in
  let avg_loss := if (0 <? total - wins)%nat then mean (map Qabs losing) else 1 in
  if Py.gtb avg_loss 0 then avg_win / avg_loss else 1.

Definition _kelly_criterion_position_size (t : Terminal) (s0 : State)
    (sym action : string) (stop_loss_pips : Py.F) : State * Py.F :=
  let h := trade_history s0 in
  if (length h <? 10)%nat then _risk_based_position_size t s0 sym action stop_loss_pips
  else
    let win_rate := kelly_win_rate h in
    let kelly :=
      match Py.fdiv (Py.Fin (1 - win_rate)) (Py.Fin (kelly_odds h)) with
      | Py.Fin q => Py.Fin (win_rate - q)
      | Py.PInf => Py.NInf
      | Py.NInf => Py.PInf
      | Py.NaN => Py.NaN
      end in
    let kelly := Py.fmul kelly (Py.Fin (kelly_fraction (position_sizing (config s0)))) in
    let kelly := Py.fmax (Py.Fin 0) kelly in
    let s := ensure_account_info t s0 in
    match account_info s with
    | None => (s, fixed_lot s)
    | Some a =>
        match t_symbol_info t sym with
        | None => (s, fixed_lot s)
        | Some info =>
            let risk_amount := Py.fmul (Py.Fin (balance a)) kelly in
            (s, volume_for_risk s risk_amount stop_loss_pips (pip_value info))
        end
    end.

(** [sorted(symbol_trades, key=close_time, reverse=True)[0]] *)
Definition last_trade (sym : string) (h : list Trade) : option Trade :=
  head (sorted_desc (filter (fun tr => tr_symbol tr = sym) h)).

Definition _martingale_position_size (t : Terminal) (s : State)
    (sym action : string) (stop_loss_pips : Py.F) : State * Py.F :=
  match last_trade sym (trade_history s) with
  | None => (s, fixed_lot s)
  | Some tr =>
      if Py.leb (tr_profit tr) 0
      then (s, Py.Fin (tr_volume tr * martingale_factor (position_sizing (config s))))
      else (s, fixed_lot s)
  end.

Definition _anti_martingale_position_size (t : Terminal) (s : State)
    (sym action : string) (stop_loss_pips : Py.F) : State * Py.F :=
  match last_trade sym (trade_history s) with
  | None => (s, fixed_lot s)
  | Some tr =>
      if Py.gtb (tr_profit tr) 0
      then (s, Py.Fin (tr_volume tr * anti_martingale_factor (position_sizing (config s))))
      else (s, fixed_lot s)
  end.

Definition _volatility_based_position_size (t : Terminal) (s0 : State)
    (sym action : string) (stop_loss_pips : Py.F) : State * Py.F :=
  let c := position_sizing (config s0) in
  let s := ensure_account_info t s0 in
  match account_info s with
  | None => (s, fixed_lot s)
  | Some a =>
      match t_copy_rates_d1 t sym (ps_atr_period c + 1) with
      | None => _risk_based_position_size t s sym action stop_loss_pips
      | Some rates =>
          if (length rates <? ps_atr_period c + 1)%nat
          then _risk_based_position_size t s sym action stop_loss_pips
          else
            match t_symbol_info t sym with
            | None => (s, fixed_lot s)
            | Some info =>
                let pips := atr_pips rates (ps_atr_period c) info in
                let risk_amount := balance a * (risk_percent c / 100) in
                if Py.fgtb pips (Py.Fin 0) && Py.gtb (pip_value info) 0 then
                  (s, Py.fdiv (Py.Fin risk_amount)
                        (Py.fmul (Py.fmul pips (Py.Fin (volatility_factor c)))
                                 (Py.Fin (pip_value info))))
                else (s, fixed_lot s)
            end
      end
  end.

(** [self.position_sizing_models[method]], the fixed model for a name that
    is not a key. *)
Definition sizing_model (method : string)
    : Terminal -> State -> string -> string -> Py.F -> State * Py.F :=
  if String.eqb method "fixed" then _fixed_position_size
  else if String.eqb method "risk" then _risk_based_position_size
  else if String.eqb method "equity" then _equity_based_position_size
  else if String.eqb method "kelly" then _kelly_criterion_position_size
  else if String.eqb method "martingale" then _martingale_position_size
  else if String.eqb method "anti_martingale" then _anti_martingale_position_size
  else if String.eqb method "volatility" then _volatility_based_position_size
  else _fixed_position_size.

(** *** [_calculate_stop_loss_pips] *)
Definition _calculate_stop_loss_pips (t : Terminal) (s : State)
    (sym action : string) : Py.F :=
  let c := stop_loss (config s) in
  let fixed := Py.Fin (sl_fixed_pips c) in
  let clamp (sl_pips : Py.F) :=
    Py.fmin (Py.fmax sl_pips (Py.Fin (sl_min_pips c))) (Py.Fin (sl_max_pips c)) in
  if String.eqb (sl_method c) "fixed" then fixed
  else if String.eqb (sl_method c) "atr" then
    match t_copy_rates_d1 t sym (sl_atr_period c + 1) with
    | None => fixed
    | Some rates =>
        if (length rates <? sl_atr_period c + 1)%nat then fixed else
        match t_symbol_info t sym with
        | None => fixed
        | Some info =>
            clamp (Py.fmul (atr_pips rates (sl_atr_period c) info)
                           (Py.Fin (sl_atr_multiple c)))
        end
    end
  else if String.eqb (sl_method c) "support_resistance" then fixed
  else if String.eqb (sl_method c) "percent" then
    match t_symbol_info_tick t sym with
    | None => fixed
    | Some last_tick =>
        let price := if String.eqb action "BUY" then ask last_tick else bid last_tick in
        let sl_price :=
          if String.eqb action "BUY"
          then price * (1 - sl_percent_risk c / 100)
          else price * (1 + sl_percent_risk c / 100) in
        match t_symbol_info t sym with
        | None => fixed
        | Some info =>
            (* a zero point raises and the handler answers the fixed pips *)
            if Py.eqb (10 * point info) 0 then fixed
            else clamp (Py.Fin (Qabs (price - sl_price) / (10 * point info)))
        end
    end
  else fixed.

(** *** [calculate_position_size] *)

(** The rounding of lines 926-936 on a finite volume. The quotient and the
    product are float operations, each answering the double nearest to the
    exact quotient or product, and [np.floor], [np.ceil] and [np.round] see
    the rounded quotient: [0.3 / 0.1] is a double below 3 and its floor
    is 2. *)
Definition round_to_step (rounding : string) (vol step : Q) : Q :=
  let quotient := Py.fl (vol / step) in
  if String.eqb rounding "up" then Py.fl (Py.ceil quotient * step)
  else if String.eqb rounding "down" then Py.fl (Py.floor quotient * step)
  else Py.fl (Py.round quotient * step).

(** [stop_loss_pips] is [None] when the caller leaves the argument out. A
    zero [volume_step] makes the division raise, and the handler answers the
    fixed lot (a volume that is a numpy scalar would give NaN there instead;
    no symbol has a zero step). *)
Definition calculate_position_size (clk : Clock) (t : Terminal) (s0 : State)
    (sym action : string) (stop_loss_pips : option Q) : State * Py.F :=
  let '(s, allowed) := check_trading_allowed clk t s0 sym in
  if negb allowed then (s, Py.Fin 0) else
  let c := position_sizing (config s) in
  let risk_reduction :=
    if rm_enabled (recovery_mode (config s)) && _check_recovery_mode s
    then 1 - risk_reduction_percent (recovery_mode (config s)) / 100
    else 1 in
  let pips :=
    match stop_loss_pips with
    | None => _calculate_stop_loss_pips t s sym action
    | Some q => Py.Fin q
    end in
  let '(s, vol) := sizing_model (ps_method c) t s sym action pips in
  let vol := Py.fmul vol (Py.Fin risk_reduction) in
  match t_symbol_info t sym with
  | None => (s, Py.Fin 0)
  | Some info =>
      let vol := Py.fmax vol (Py.Fin (volume_min info)) in
      let vol := Py.fmin vol (Py.Fin (volume_max info)) in
      if Py.eqb (volume_step info) 0 then (s, fixed_lot s)
      else (s, Py.fmap_fin
                 (fun v => round_to_step (position_size_rounding c) v (volume_step info))
                 vol)
  end.

(** *** [manage_position] *)

(** The calls of [mt5.order_send] made while a position is managed, with the
    block that made them and whether the terminal answered DONE. *)
Inductive Event :=
| EvBreakEven (ticket : Z) (new_sl : Q) (done : bool)
| EvTrailing (ticket : Z) (new_sl : Q) (done : bool)
| EvPartialClose (ticket : Z) (profit_level close_volume : Q) (done : bool).

Definition set_sl_tp (new_sl new_tp : Q) (p : Position) : Position :=
  {| ticket := ticket p; symbol := symbol p; type := type p;
     volume := volume p; open_price := open_price p;
     current_price := current_price p; sl := new_sl; tp := new_tp;
     pos_profit := pos_profit p; swap := swap p; time := time p;
     magic := magic p; comment := comment p;
     partial_close_keys := partial_close_keys p |}.

(** [self.positions[ticket][level_key] = True] *)
Definition mark_level (profit_level : Q) (p : Position) : Position :=
  {| ticket := ticket p; symbol := symbol p; type := type p;
     volume := volume p; open_price := open_price p;
     current_price := current_price p; sl := sl p; tp := tp p;
     pos_profit := pos_profit p; swap := swap p; time := time p;
     magic := magic p; comment := comment p;
     partial_close_keys := profit_level :: partial_close_keys p |}.

(** [level_key in position] *)
Definition has_level_key (profit_level : Q) (p : Position) : bool :=
  existsb (Py.eqb profit_level) (partial_close_keys p).

(** [_modify_position]: the answer, and the manager and terminal afterwards. *)
Definition _modify_position (t : Terminal) (s : State) (k : Z) (new_sl new_tp : Q)
    : bool * State * Terminal :=
  let '(done, t') := order_send (ReqSLTP k new_sl new_tp) t in
  if done
  then (true, set_positions (alter (set_sl_tp new_sl new_tp) k (positions s)) s, t')
  else (false, s, t).

(** The stop the break-even block asks for, if it asks for one
    (lines 1633-1658). *)
Definition break_even_request (c : BreakEvenCfg) (pt : Q) (p : Position)
    (pips : Q) : option Q :=
  if be_enabled c && negb (Py.eqb (sl p) 0) then
    if Py.geb pips (be_activation_pips c) then
      if (type p =? POSITION_TYPE_BUY)%Z && Py.ltb (sl p) (open_price p) then
        let new_sl := open_price p + be_offset_pips c * 10 * pt in
        if Py.gtb new_sl (sl p) then Some new_sl else None
      else if (type p =? POSITION_TYPE_SELL)%Z && Py.gtb (sl p) (open_price p) then
        let new_sl := open_price p - be_offset_pips c * 10 * pt in
        if Py.ltb new_sl (sl p) || Py.eqb (sl p) 0 then Some new_sl else None
      else None
    else None
  else None.

(** The stop the trailing block asks for, if it asks for one
    (lines 1660-1685). *)
Definition trailing_request (c : TrailingStopCfg) (pt : Q) (p : Position)
    (pips : Q) : option Q :=
  if ts_enabled c && negb (Py.eqb (sl p) 0) then
    if Py.geb pips (ts_activation_pips c) then
      if (type p =? POSITION_TYPE_BUY)%Z then
        let new_sl := current_price p - ts_distance_pips c * 10 * pt in
        if Py.gtb new_sl (sl p + ts_step_pips c * 10 * pt) then Some new_sl else None
      else if (type p =? POSITION_TYPE_SELL)%Z then
        let new_sl := current_price p + ts_distance_pips c * 10 * pt in
        if Py.ltb new_sl (sl p - ts_step_pips c * 10 * pt) || Py.eqb (sl p) 0
        then Some new_sl else None
      else None
    else None
  else None.

(** [_partial_close_position] up to its [order_send]: the volume it asks to
    close, [None] when it gives up before sending. *)
Definition partial_close_volume (t : Terminal) (p : Position) (pct : Q) : option Q :=
  match t_symbol_info t (symbol p) with
  | None => None
  | Some info =>
      let close_volume := volume p * (pct / 100) in
      let close_volume := Py.max close_volume (volume_min info) in
      let close_volume := Py.min close_volume (volume p) in
      if Py.eqb (volume_step info) 0 then None else
      let close_volume := Py.floor (close_volume / volume_step info) * volume_step info in
      if Py.leb close_volume 0 || Py.gtb close_volume (volume p) then None else
      match t_symbol_info_tick t (symbol p) with
      | None => None
      | Some _ => Some close_volume
      end
  end.

Definition close_request (t : Terminal) (p : Position) (vol : Q) : Request :=
  let price :=
    match t_symbol_info_tick t (symbol p) with
    | Some last_tick =>
        if (type p =? POSITION_TYPE_BUY)%Z then bid last_tick else ask last_tick
    | None => 0
    end in
  ReqDeal (ticket p) (symbol p) vol
          (if (type p =? POSITION_TYPE_BUY)%Z then 1%Z else 0%Z) price.

(** [_partial_close_position]: on success the positions are fetched again. *)
Definition _partial_close_position (t : Terminal) (s : State) (k : Z)
    (profit_level pct : Q) : bool * State * Terminal * list Event :=
  match positions s !! k with
  | None => (false, s, t, [])
  | Some p =>
      match partial_close_volume t p pct with
      | None => (false, s, t, [])
      | Some vol =>
          let '(done, t') := order_send (close_request t p vol) t in
          if done
          then (true, (update_positions t' s).1, t', [EvPartialClose k profit_level vol true])
          else (false, s, t, [EvPartialClose k profit_level vol false])
      end
  end.

(** [profit_pips] of lines 1627-1631, for a point that is not zero. *)
Definition profit_in_pips (p : Position) (pt : Q) : Q :=
  if (type p =? POSITION_TYPE_BUY)%Z
  then (current_price p - open_price p) / (10 * pt)
  else (open_price p - current_price p) / (10 * pt).

(** What "strictly better for the side of the position" means: higher for
    a long position, lower for a short one. *)
Definition better_stop (p : Position) (new_sl : Q) : Prop :=
  (type p = POSITION_TYPE_BUY /\ sl p < new_sl)
  \/ (type p = POSITION_TYPE_SELL /\ new_sl < sl p).

(** What a stop event of [manage_position] on ticket [k] must satisfy: it
    concerns [k], asks for a better stop than the one of [p], the position
    before the call, and, when the terminal answered DONE, the manager [s1]
    after the call carries the new stop. *)
Definition stop_event_ok (k : Z) (p : Position) (s1 : State) (e : Event) : Prop :=
  match e with
  | EvBreakEven k' new_sl done | EvTrailing k' new_sl done =>
      k' = k /\ better_stop p new_sl
      /\ (done = true -> sl <$> positions s1 !! k = Some new_sl)
  | EvPartialClose _ _ _ _ => True
  end.

Definition is_break_even (e : Event) : bool :=
  match e with
  | EvBreakEven _ _ _ => true
  | _ => false
  end.

Definition is_stop_event (e : Event) : bool :=
  match e with
  | EvBreakEven _ _ _ | EvTrailing _ _ _ => true
  | EvPartialClose _ _ _ _ => false
  end.

Definition is_trailing (e : Event) : bool :=
  match e with
  | EvTrailing _ _ _ => true
  | _ => false
  end.

(** What an event of the call that follows an answered trailing update may
    be, [evs1] being the events of the call that made the update: no trailing
    modification, and a break-even modification only as the repeat of a
    request that the terminal refused in that call. *)
Definition after_trailing_ok (evs1 : list Event) (e : Event) : Prop :=
  match e with
  | EvTrailing _ _ _ => False
  | EvBreakEven k new_sl _ => In (EvBreakEven k new_sl false) evs1
  | EvPartialClose _ _ _ _ => True
  end.

(** How often the events close part of position [k] at [profit_level]. *)
Definition is_partial_close (k : Z) (profit_level : Q) (e : Event) : bool :=
  match e with
  | EvPartialClose k' l _ true => (k' =? k)%Z && Py.eqb l profit_level
  | _ => false
  end.

Definition partial_closes (k : Z) (profit_level : Q) (evs : list Event) : nat :=
  length (List.filter (is_partial_close k profit_level) evs).

(** The loop over the partial-close levels. [p] is the dictionary read at the
    top of [manage_position]; its keys decide whether a level was consumed. *)
Fixpoint partial_close_loop (t : Terminal) (s : State) (k : Z) (p : Position)
    (pips : Q) (levels : list Level) : bool * State * Terminal * list Event :=
  match levels with
  | [] => (false, s, t, [])
  | level :: rest =>
      if Py.geb pips (profit_pips level) && negb (has_level_key (profit_pips level) p) then
        let '(ok, s', t', evs) :=
          _partial_close_position t s k (profit_pips level) (close_percent level) in
        if ok then
          match positions s' !! k with
          | Some p' =>
              (true, set_positions (<[k := mark_level (profit_pips level) p']> (positions s')) s',
               t', evs)
          | None => (false, s', t', evs)   (* KeyError, caught *)
          end
        else
          let '(ok2, s2, t2, evs2) := partial_close_loop t' s' k p pips rest in
          (ok2, s2, t2, evs ++ evs2)
      else partial_close_loop t s k p pips rest
  end.

Definition manage_position (t : Terminal) (s : State) (k : Z)
    : bool * State * Terminal * list Event :=
  match positions s !! k with
  | None => (false, s, t, [])
  | Some p =>
      match t_symbol_info t (symbol p) with
      | None => (false, s, t, [])
      | Some info =>
          let pt := point info in
          (* a zero point raises in the division of [profit_in_pips] *)
          if Py.eqb (10 * pt) 0 then (false, s, t, []) else
          let pips := profit_in_pips p pt in
          let be := break_even_request (break_even (config s)) pt p pips in
          let '(be_done, s1, t1) :=
            match be with
            | Some new_sl => _modify_position t s k new_sl (tp p)
            | None => (false, s, t)
            end in
          let be_evs :=
            match be with
            | Some new_sl => [EvBreakEven k new_sl be_done]
            | None => []
            end in
          if be_done then (true, s1, t1, be_evs) else
          let tr := trailing_request (trailing_stop (config s)) pt p pips in
          let '(tr_done, s2, t2) :=
            match tr with
            | Some new_sl => _modify_position t1 s1 k new_sl (tp p)
            | None => (false, s1, t1)
            end in
          let tr_evs :=
            match tr with
            | Some new_sl => [EvTrailing k new_sl tr_done]
            | None => []
            end in
          if tr_done then (true, s2, t2, be_evs ++ tr_evs) else
          if pc_enabled (partial_close (config s)) then
            let '(ok, s3, t3, evs) :=
              partial_close_loop t2 s2 k p pips (pc_levels (partial_close (config s))) in
            (ok, s3, t3, be_evs ++ tr_evs ++ evs)
          else (false, s2, t2, be_evs ++ tr_evs)
      end
  end.

(** *** Successive management cycles

    [Refresh] is the [update_positions] that [check_risk_limits] and
    [get_risk_report] run between two calls of [manage_position]. *)
Inductive Action := Manage (k : Z) | Refresh.

Fixpoint run_actions (acts : list Action) (t : Terminal) (s : State)
    : State * Terminal * list Event :=
  match acts with
  | [] => (s, t, [])
  | Manage k :: rest =>
      let '(_, s1, t1, evs1) := manage_position t s k in
      let '(s2, t2, evs2) := run_actions rest t1 s1 in
      (s2, t2, evs1 ++ evs2)
  | Refresh :: rest => run_actions rest t (update_positions t s).1
  end.

End RiskManager.

(** ** The order replicator of one source account *)
Module Replicator.

(** An order dictionary of the source history. [ticket] and [type] are
    [None] when the key is missing; the other keys carry the default that
    [order.get] supplies. *)
Record Order := {
  ticket : option Z;
  symbol : string;
  type : option Z;
  volume : Q;
  price : Q;
  sl : Q;
  tp : Q;
  comment : string
}.

(** [self.replication_config] *)
Record Config := {
  enabled : bool;
  volume_multiplier : Q;
  reverse_direction : bool;
  symbols_filter : list string;
  max_volume : Q;
  min_volume : Q;
  delay_seconds : Q;
  include_sl_tp : bool;
  adjust_sl_tp_percent : Q
}.

Definition default_config : Config := {|
  enabled := false; volume_multiplier := 1; reverse_direction := false;
  symbols_filter := []; max_volume := 0; min_volume := 0; delay_seconds := 0;
  include_sl_tp := true; adjust_sl_tp_percent := 0 |}.

(** The dictionary handed to [set_replication_config]: the keys it holds. *)
Record ConfigUpdate := {
  u_enabled : option bool;
  u_volume_multiplier : option Q;
  u_reverse_direction : option bool;
  u_symbols_filter : option (list string);
  u_max_volume : option Q;
  u_min_volume : option Q;
  u_delay_seconds : option Q;
  u_include_sl_tp : option bool;
  u_adjust_sl_tp_percent : option Q
}.

Definition no_update : ConfigUpdate := {|
  u_enabled := None; u_volume_multiplier := None; u_reverse_direction := None;
  u_symbols_filter := None; u_max_volume := None; u_min_volume := None;
  u_delay_seconds := None; u_include_sl_tp := None;
  u_adjust_sl_tp_percent := None |}.

(** [dict.update] *)
Definition update (u : ConfigUpdate) (c : Config) : Config := {|
  enabled := default (enabled c) (u_enabled u);
  volume_multiplier := default (volume_multiplier c) (u_volume_multiplier u);
  reverse_direction := default (reverse_direction c) (u_reverse_direction u);
  symbols_filter := default (symbols_filter c) (u_symbols_filter u);
  max_volume := default (max_volume c) (u_max_volume u);
  min_volume := default (min_volume c) (u_min_volume u);
  delay_seconds := default (delay_seconds c) (u_delay_seconds u);
  include_sl_tp := default (include_sl_tp c) (u_include_sl_tp u);
  adjust_sl_tp_percent := default (adjust_sl_tp_percent c) (u_adjust_sl_tp_percent u) |}.

(** A whole configuration used as an update ([config.copy()] handed back). *)
Definition as_update (c : Config) : ConfigUpdate := {|
  u_enabled := Some (enabled c);
  u_volume_multiplier := Some (volume_multiplier c);
  u_reverse_direction := Some (reverse_direction c);
  u_symbols_filter := Some (symbols_filter c);
  u_max_volume := Some (max_volume c);
  u_min_volume := Some (min_volume c);
  u_delay_seconds := Some (delay_seconds c);
  u_include_sl_tp := Some (include_sl_tp c);
  u_adjust_sl_tp_percent := Some (adjust_sl_tp_percent c) |}.

(** What reading a key gives after [dict.update]: the value handed over
    when the key was among those of the update, the old value otherwise. *)
Definition reads {A} (key : option A) (old new : A) : Prop :=
  match key with
  | Some v => new = v
  | None => new = old
  end.

Definition set_enabled (b : bool) (c : Config) : Config := {|
  enabled := b; volume_multiplier := volume_multiplier c;
  reverse_direction := reverse_direction c;
  symbols_filter := symbols_filter c; max_volume := max_volume c;
  min_volume := min_volume c; delay_seconds := delay_seconds c;
  include_sl_tp := include_sl_tp c;
  adjust_sl_tp_percent := adjust_sl_tp_percent c |}.

(** The keyword arguments of [target_backend.execute_order]. *)
Record ExecRequest := {
  x_action : string;
  x_symbol : string;
  x_volume : Q;
  x_sl : Q;
  x_tp : Q;
  x_comment : string
}.

(** What [execute_order] does: raise, answer [None], or answer a dictionary
    with its [success] entry. *)
Inductive ExecOutcome := ExRaise | ExNone | ExResult (success : bool).

(** The target accounts as the replication loop meets them during one
    iteration; back-ends are named by their account id. *)
Record Targets := {
  check_connection : string -> bool;
  execute_order : string -> ExecRequest -> ExecOutcome
}.

Inductive Severity := INFO | WARNING | ERROR.

(** What one iteration of the replication loop does to the outside. *)
Inductive Event :=
| Execute (target : string) (source_ticket : option Z) (req : ExecRequest)
| Sleep (seconds : Q)
| Log (sev : Severity) (source_ticket : option Z) (target_index : option nat).

(** An [MT5OrderReplicator]. *)
Record Replicator := {
  mt5_backend_source : option string;
  mt5_backend_targets : list string;
  running : bool;
  order_queue : list Order;
  processed_orders : gset Z;
  replication_config : Config
}.

(** [MT5OrderReplicator(source, targets)] *)
Definition new (source : option string) (targets : list string) : Replicator := {|
  mt5_backend_source := source; mt5_backend_targets := targets;
  running := false; order_queue := []; processed_orders := ∅;
  replication_config := default_config |}.

Definition with_targets (l : list string) (r : Replicator) : Replicator := {|
  mt5_backend_source := mt5_backend_source r; mt5_backend_targets := l;
  running := running r; order_queue := order_queue r;
  processed_orders := processed_orders r;
  replication_config := replication_config r |}.

Definition with_config (c : Config) (r : Replicator) : Replicator := {|
  mt5_backend_source := mt5_backend_source r;
  mt5_backend_targets := mt5_backend_targets r;
  running := running r; order_queue := order_queue r;
  processed_orders := processed_orders r; replication_config := c |}.

Definition with_running (b : bool) (r : Replicator) : Replicator := {|
  mt5_backend_source := mt5_backend_source r;
  mt5_backend_targets := mt5_backend_targets r;
  running := b; order_queue := order_queue r;
  processed_orders := processed_orders r;
  replication_config := replication_config r |}.

Definition with_queue (q : list Order) (r : Replicator) : Replicator := {|
  mt5_backend_source := mt5_backend_source r;
  mt5_backend_targets := mt5_backend_targets r;
  running := running r; order_queue := q;
  processed_orders := processed_orders r;
  replication_config := replication_config r |}.

Definition with_processed (p : gset Z) (r : Replicator) : Replicator := {|
  mt5_backend_source := mt5_backend_source r;
  mt5_backend_targets := mt5_backend_targets r;
  running := running r; order_queue := order_queue r;
  processed_orders := p; replication_config := replication_config r |}.

Definition add_target_backend (b : string) (r : Replicator) : Replicator :=
  if bool_decide (b ∈ mt5_backend_targets r) then r
  else with_targets (mt5_backend_targets r ++ [b]) r.

(** [list.remove]: the first occurrence goes. *)
Fixpoint remove_first (b : string) (l : list string) : list string :=
  match l with
  | [] => []
  | x :: l' => if bool_decide (x = b) then l' else x :: remove_first b l'
  end.

Definition remove_target_backend (b : string) (r : Replicator) : Replicator :=
  with_targets (remove_first b (mt5_backend_targets r)) r.

Definition set_replication_config (u : ConfigUpdate) (r : Replicator) : Replicator :=
  with_config (update u (replication_config r)) r.

Definition get_replication_config (r : Replicator) : Config := replication_config r.

(** [MT5OrderReplicator.start_replication]; [conn] is [check_connection]
    of the back-ends. Starting the two threads is setting [running]. *)
Definition start_replication (conn : string -> bool) (r : Replicator)
    : Replicator * bool :=
  if running r then (r, true)
  else
    match mt5_backend_source r with
    | None => (r, false)
    | Some src =>
        if negb (conn src) then (r, false)
        else
          match mt5_backend_targets r with
          | [] => (r, false)
          | _ =>
              if forallb conn (mt5_backend_targets r)
              then (with_running true (with_config (set_enabled true (replication_config r)) r), true)
              else (r, false)
          end
    end.

(** [MT5OrderReplicator.stop_replication] *)
Definition stop_replication (r : Replicator) : Replicator * bool :=
  if running r
  then (with_running false (with_config (set_enabled false (replication_config r)) r), true)
  else (r, true).

(** *** [_should_replicate_order] *)
Definition _should_replicate_order (o : Order) (c : Config) : bool :=
  match symbols_filter c with
  | _ :: _ => if bool_decide (symbol o ∈ symbols_filter c) then true else false
  | [] => true
  end
  && negb (Py.gtb (min_volume c) 0 && Py.ltb (volume o) (min_volume c))
  && negb (Py.gtb (max_volume c) 0 && Py.gtb (volume o) (max_volume c)).

(** *** [_replicate_order] *)

(** [f"REP:{order.get('ticket')}:{comment}"] *)
Definition rep_comment (o : Order) : string :=
  "REP:" +:+ match ticket o with Some k => pretty k | None => "None" end
         +:+ ":" +:+ comment o.

(** The transformation of lines 334-377: the request handed to
    [execute_order], [None] for an order type that is neither 0 nor 1. *)
Definition transform (o : Order) (c : Config) : option ExecRequest :=
  let vol := volume o * volume_multiplier c in
  let vol := if Py.gtb (max_volume c) 0 then Py.min vol (max_volume c) else vol in
  let action :=
    match type o with
    | Some 0%Z => Some (if reverse_direction c then "SELL" else "BUY")
    | Some 1%Z => Some (if reverse_direction c then "BUY" else "SELL")
    | _ => None
    end in
  match action with
  | None => None
  | Some action =>
      let adj := adjust_sl_tp_percent c in
      let buy := String.eqb action "BUY" in
      let '(new_sl, new_tp) :=
        if negb (include_sl_tp c) then (0, 0)
        else if negb (Py.eqb adj 0) then
          (if negb (Py.eqb (sl o) 0)
           then (if buy then sl o * (1 - adj / 100) else sl o * (1 + adj / 100))
           else sl o,
           if negb (Py.eqb (tp o) 0)
           then (if buy then tp o * (1 + adj / 100) else tp o * (1 - adj / 100))
           else tp o)
        else (sl o, tp o) in
      Some {| x_action := action; x_symbol := symbol o; x_volume := vol;
              x_sl := new_sl; x_tp := new_tp; x_comment := rep_comment o |}
  end.

(** Whether the result is truthy with a true [success], and what happened. *)
Definition _replicate_order (env : Targets) (o : Order) (target : string)
    (c : Config) : bool * list Event :=
  match transform o c with
  | None => (false, [Log WARNING (ticket o) None])
  | Some req =>
      match execute_order env target req with
      | ExRaise => (false, [Execute target (ticket o) req; Log ERROR (ticket o) None])
      | ExNone => (false, [Execute target (ticket o) req])
      | ExResult ok => (ok, [Execute target (ticket o) req])
      end
  end.

(** *** One iteration of [_replication_loop] *)

(** The [for i, target in enumerate(self.mt5_backend_targets)] loop. *)
Fixpoint dispatch_all (env : Targets) (o : Order) (c : Config) (i : nat)
    (targets : list string) : list Event :=
  match targets with
  | [] => []
  | target :: rest =>
      (if negb (check_connection env target)
       then [Log ERROR (ticket o) (Some i)]
       else
         let '(ok, evs) := _replicate_order env o target c in
         evs ++ [Log (if ok then INFO else ERROR) (ticket o) (Some i)])
      ++ dispatch_all env o c (S i) rest
  end.

(** The body of the [while self.running] loop; an empty queue is the
    [queue.Empty] time-out. The order taken from the queue is never put back. *)
Definition replication_iteration (env : Targets) (r : Replicator)
    : Replicator * list Event :=
  match order_queue r with
  | [] => (r, [])
  | o :: rest =>
      let r' := with_queue rest r in
      let c := replication_config r in
      if negb (enabled c) then (r', [])
      else if negb (_should_replicate_order o c) then (r', [Log INFO (ticket o) None])
      else
        (r', (if Py.gtb (delay_seconds c) 0 then [Sleep (delay_seconds c)] else [])
               ++ dispatch_all env o c 0 (mt5_backend_targets r))
  end.

(** *** One iteration of [_monitor_loop] *)

Definition processed_cap : Z := 10000.
Definition processed_keep : Z := 5000.

(** Lines 215-221: the orders that are new, and the set with their tickets
    added. A ticket that is missing or zero is falsy and skipped. *)
Fixpoint scan_orders (orders : list Order) (processed : gset Z)
    : list Order * gset Z :=
  match orders with
  | [] => ([], processed)
  | o :: rest =>
      match ticket o with
      | Some order_id =>
          if negb (order_id =? 0)%Z && negb (bool_decide (order_id ∈ processed)) then
            let '(new_orders, processed') := scan_orders rest ({[order_id]} ∪ processed) in
            (o :: new_orders, processed')
          else scan_orders rest processed
      | None => scan_orders rest processed
      end
  end.

Section Monitor.

(** [list(s)] for a Python set [s]: the order in which CPython enumerates
    the set is left open. *)
Variable set_list : gset Z -> list Z.

(** Lines 228-230 *)
Definition limit_processed (processed : gset Z) : gset Z :=
  if (processed_cap <? Z.of_nat (size processed))%Z
  then list_to_set (Py.last_n (Z.to_nat processed_keep) (set_list processed))
  else processed.

(** The body of the loop: [src_connected] is [check_connection] of the
    source, [orders] the answer of [get_orders_history]. *)
Definition monitor_iteration (src_connected : bool) (orders : option (list Order))
    (r : Replicator) : Replicator :=
  if negb (enabled (replication_config r)) then r
  else if negb src_connected then r
  else
    match orders with
    | None => r
    | Some orders =>
        let '(new_orders, processed) := scan_orders orders (processed_orders r) in
        with_processed (limit_processed processed)
          (with_queue (order_queue r ++ new_orders) r)
    end.

(** *** Runs of one replicator

    The monitor thread is the only writer of [processed_orders] and the only
    producer of the queue, the replication thread its only consumer; a run
    interleaves their iterations with the calls made from outside. *)
Inductive Step :=
| Monitor (src_connected : bool) (orders : option (list Order))
| Replicate (env : Targets)
| AddTarget (b : string)
| RemoveTarget (b : string)
| SetConfig (u : ConfigUpdate)
| Start (conn : string -> bool)
| Stop.

Definition step (st : Step) (r : Replicator) : Replicator * list Event :=
  match st with
  | Monitor c orders =>
      if running r then (monitor_iteration c orders r, []) else (r, [])
  | Replicate env =>
      if running r then replication_iteration env r else (r, [])
  | AddTarget b => (add_target_backend b r, [])
  | RemoveTarget b => (remove_target_backend b r, [])
  | SetConfig u => (set_replication_config u r, [])
  | Start conn => ((start_replication conn r).1, [])
  | Stop => ((stop_replication r).1, [])
  end.

Fixpoint run (steps : list Step) (r : Replicator) : Replicator * list Event :=
  match steps with
  | [] => (r, [])
  | st :: rest =>
      let '(r1, evs1) := step st r in
      let '(r2, evs2) := run rest r1 in
      (r2, evs1 ++ evs2)
  end.

(** The orders a step puts on the queue. *)
Definition enqueued (st : Step) (r : Replicator) : list Order :=
  match st with
  | Monitor true (Some orders) =>
      if running r && enabled (replication_config r)
      then (scan_orders orders (processed_orders r)).1
      else []
  | _ => []
  end.



End Monitor.

(** How often the events call [execute_order] of [target] for source ticket [k]. *)
Definition is_dispatch (target : string) (k : Z) (e : Event) : bool :=
  match e with
  | Execute b (Some k') _ => String.eqb b target && (k' =? k)%Z
  | _ => false
  end.

Definition dispatches (target : string) (k : Z) (evs : list Event) : nat :=
  length (List.filter (is_dispatch target k) evs).

(** How often the events call [execute_order] of [target] at all. *)
Definition is_execute (target : string) (e : Event) : bool :=
  match e with
  | Execute b _ _ => String.eqb b target
  | _ => false
  end.

Definition executions (target : string) (evs : list Event) : nat :=
  length (List.filter (is_execute target) evs).



(** How often a back-end occurs in the list of targets. *)
Definition occurrences (target : string) (targets : list string) : nat :=
  length (List.filter (String.eqb target) targets).

Definition is_sleep (e : Event) : bool :=
  match e with Sleep _ => true | _ => false end.

Definition is_warning (e : Event) : bool :=
  match e with Log WARNING _ _ => true | _ => false end.

End Replicator.

(** ** The registry of replication groups *)
Module MultiAccount.

(** A value of [self.replication_groups]. *)
Record Group := { source : string; targets : list string }.

(** An [MT5MultiAccountReplicator]. A back-end is named by the account id it
    was added under; [backends] holds the ids. *)
Record Registry := {
  replicators : gmap string Replicator.Replicator;
  backends : gset string;
  replication_groups : gmap string Group
}.

Definition empty : Registry :=
  {| replicators := ∅; backends := ∅; replication_groups := ∅ |}.

Definition with_replicators (rs : gmap string Replicator.Replicator) (m : Registry)
    : Registry :=
  {| replicators := rs; backends := backends m;
     replication_groups := replication_groups m |}.

Definition with_groups (gs : gmap string Group) (m : Registry) : Registry :=
  {| replicators := replicators m; backends := backends m;
     replication_groups := gs |}.

Definition add_account (account_id : string) (m : Registry) : Registry * bool :=
  if bool_decide (account_id ∈ backends m) then (m, false)
  else ({| replicators := replicators m; backends := {[account_id]} ∪ backends m;
           replication_groups := replication_groups m |}, true).

Definition create_replication_group (group_name source_account_id : string)
    (target_account_ids : list string) (m : Registry) : Registry * bool :=
  if bool_decide (is_Some (replication_groups m !! group_name)) then (m, false)
  else if negb (bool_decide (source_account_id ∈ backends m)) then (m, false)
  else
    let valid_targets :=
      List.filter (fun target_id =>
                     bool_decide (target_id ∈ backends m)
                     && negb (String.eqb target_id source_account_id))
                  target_account_ids in
    let m1 := with_groups (<[group_name := {| source := source_account_id;
                                              targets := valid_targets |}]>
                             (replication_groups m)) m in
    match replicators m !! source_account_id with
    | None =>
        (with_replicators
           (<[source_account_id :=
                Replicator.new (Some source_account_id) valid_targets]> (replicators m)) m1,
         true)
    | Some replicator =>
        (with_replicators
           (<[source_account_id :=
                foldl (fun r target_id => Replicator.add_target_backend target_id r)
                      replicator valid_targets]> (replicators m)) m1,
         true)
    end.

(** The replicator a group name leads to, when both lookups succeed. *)
Definition group_replicator (group_name : string) (m : Registry)
    : option (string * Replicator.Replicator) :=
  match replication_groups m !! group_name with
  | None => None
  | Some group =>
      match replicators m !! source group with
      | None => None
      | Some replicator => Some (source group, replicator)
      end
  end.

Definition set_group_config (group_name : string) (config : Replicator.ConfigUpdate)
    (m : Registry) : Registry * bool :=
  match group_replicator group_name m with
  | None => (m, false)
  | Some (source_account_id, replicator) =>
      (with_replicators
         (<[source_account_id := Replicator.set_replication_config config replicator]>
            (replicators m)) m,
       true)
  end.

Definition get_group_config (group_name : string) (m : Registry)
    : option Replicator.Config :=
  match group_replicator group_name m with
  | None => None
  | Some (_, replicator) => Some (Replicator.get_replication_config replicator)
  end.

Definition start_replication (conn : string -> bool) (group_name : string)
    (m : Registry) : Registry * bool :=
  match group_replicator group_name m with
  | None => (m, false)
  | Some (source_account_id, replicator) =>
      let '(replicator', ok) := Replicator.start_replication conn replicator in
      (with_replicators (<[source_account_id := replicator']> (replicators m)) m, ok)
  end.

(** The loop of lines 804-811: is there another group on the same source
    whose configuration, read through [get_group_config], is enabled? *)
Definition is_source_active (group_name source_account_id : string) (m : Registry)
    : bool :=
  existsb (fun kv : string * Group =>
             negb (String.eqb kv.1 group_name)
             && String.eqb (source kv.2) source_account_id
             && match get_group_config kv.1 m with
                | Some other_config => Replicator.enabled other_config
                | None => false
                end)
          (map_to_list (replication_groups m)).

Definition stop_replication (group_name : string) (m : Registry) : Registry * bool :=
  match group_replicator group_name m with
  | None => (m, false)
  | Some (source_account_id, replicator) =>
      if negb (is_source_active group_name source_account_id m) then
        let '(replicator', ok) := Replicator.stop_replication replicator in
        (with_replicators (<[source_account_id := replicator']> (replicators m)) m, ok)
      else
        let config := Replicator.get_replication_config replicator in
        let config := Replicator.set_enabled false config in
        (with_replicators
           (<[source_account_id :=
                Replicator.set_replication_config (Replicator.as_update config) replicator]>
              (replicators m)) m,
         true)
  end.

Definition remove_replication_group (group_name : string) (m : Registry)
    : Registry * bool :=
  match replication_groups m !! group_name with
  | None => (m, false)
  | Some group =>
      let source_account_id := source group in
      let m1 := with_groups (delete group_name (replication_groups m)) m in
      let is_source_used :=
        existsb (fun kv : string * Group => String.eqb (source kv.2) source_account_id)
                (map_to_list (replication_groups m1)) in
      if negb is_source_used
      then (with_replicators (delete source_account_id (replicators m1)) m1, true)
      else (m1, true)
  end.

(** Every group leads to a replicator: what [create_replication_group]
    establishes and the other operations keep. *)
Definition well_formed (m : Registry) : Prop :=
  forall group_name group,
    replication_groups m !! group_name = Some group ->
    is_Some (replicators m !! source group).

End MultiAccount.

(** ** Concrete accounts, positions and orders used by the examples *)
Module Scenarios.
Import RiskManager.

Definition account (bal eq : Q) : Account := {|
  acc_login := 12345678; acc_server := "MetaQuotes-Demo"; acc_currency := "USD";
  acc_leverage := 100; acc_balance := bal; acc_equity := eq; acc_margin := 0;
  acc_margin_free := eq; acc_margin_level := 0; acc_profit := eq - bal |}.

Definition eurusd : SymbolInfo := {|
  point := 0.00001; digits := 5; volume_min := 0.01; volume_max := 100;
  volume_step := 0.01; trade_tick_value := 1; trade_contract_size := 100000 |}.

(** A terminal that knows EURUSD, accepts every request and holds the given
    account and positions. *)
Definition terminal (a : option Account) (ps : list TPosition) : Terminal := {|
  t_account_info := a;
  t_positions_get := Some ps;
  t_symbol_info := fun sym => if String.eqb sym "EURUSD" then Some eurusd else None;
  t_symbol_info_tick := fun sym =>
    if String.eqb sym "EURUSD" then Some {| bid := 1.1; ask := 1.1001 |} else None;
  t_copy_rates_d1 := fun _ _ => None;
  t_has_rates := fun _ => false;
  t_corr := fun _ _ => None;
  t_accepts := fun _ => true |}.

(** An account whose floating profit lifts the equity above the balance. *)
Definition terminal_in_profit : Terminal := terminal (Some (account 1000 1100)) [].

(** An account in a 5% drawdown. *)
Definition terminal_in_loss : Terminal := terminal (Some (account 1000 950)) [].

Definition tposition (k type : Z) (vol open cur stop : Q) : TPosition := {|
  tp_ticket := k; tp_symbol := "EURUSD"; tp_type := type; tp_volume := vol;
  tp_price_open := open; tp_price_current := cur; tp_sl := stop; tp_tp := 0;
  tp_profit := 0; tp_swap := 0; tp_time := 0; tp_magic := 123456;
  tp_comment := "" |}.

Definition clock : Clock := {|
  today := 20395; now_year := 2025; now_week := 45; now_month := 11;
  now_weekday := 1; now_hour := 10; now_time := 1762164000 |}.

Definition stat_row (n : Z) (p : Q) : StatRow := {|
  st_trades := n; st_profit := p; st_wins := 0; st_losses := n; st_win_rate := 0 |}.

(** A manager whose statistics of today, of this week and of this month all
    show the net result [p] over one trade. *)
Definition manager_with_result (p : Q) : State := {|
  config := default_config; account_info := None; positions := ∅;
  trade_history := [];
  daily_stats := {[ today clock := stat_row 1 p ]};
  weekly_stats := {[ (now_year clock, now_week clock) := stat_row 1 p ]};
  monthly_stats := {[ (now_year clock, now_month clock) := stat_row 1 p ]};
  risk_limits := no_limits |}.

(** A balance of 1000 with a loss of 40 today: 4% against the 3% limit of the
    day, under the 7% of the week and the 15% of the month. *)
Definition terminal_1000 : Terminal := terminal (Some (account 1000 1000)) [].

(** An account that lost its whole balance today and still holds two EURUSD
    positions. *)
Definition terminal_broke : Terminal :=
  terminal (Some (account 0 0))
           [tposition 1 0 0.1 1.1 1.1 0; tposition 2 0 0.1 1.1 1.1 0].

(** Two open EURUSD positions: the per-symbol limit of two is reached. *)
Definition terminal_two_positions : Terminal :=
  terminal (Some (account 1000 1000))
           [tposition 1 0 0.1 1.1 1.1 0; tposition 2 0 0.1 1.1 1.1 0].

(** A long EURUSD position bought at 1.1000 and quoted 30 pips higher, its
    stop 20 pips under the entry. *)
Definition terminal_long_30_pips : Terminal :=
  terminal (Some (account 1000 1000)) [tposition 7 0 1 1.1 1.103 1.098].

(** The manager after [update_positions] on that terminal. *)
Definition manager_long_30_pips : State :=
  (update_positions terminal_long_30_pips (init default_config)).1.

(** The same position quoted 12 pips above the entry: enough for the
    break-even block, not for the trailing block. *)
Definition terminal_long_12_pips : Terminal :=
  terminal (Some (account 1000 1000)) [tposition 7 0 1 1.1 1.1012 1.098].

Definition manager_long_12_pips : State :=
  (update_positions terminal_long_12_pips (init default_config)).1.

(** A long EURUSD position of one lot without a stop, quoted 20 pips above
    its entry: only the first partial-close level is reached. *)
Definition terminal_no_stop_20_pips : Terminal :=
  terminal (Some (account 1000 1000)) [tposition 7 0 1 1.1 1.102 0].

(** The same position quoted 35 pips above its entry: the first two levels
    are reached. *)
Definition terminal_no_stop_35_pips : Terminal :=
  terminal (Some (account 1000 1000)) [tposition 7 0 1 1.1 1.1035 0].

Definition manager_of (t : Terminal) : State :=
  (update_positions t (init default_config)).1.

(** A symbol whose smallest volume is 0.3 lots, in steps of 0.1: the
    doubles that Python reads for [0.3] and [0.1]. *)
Definition coarse_symbol : SymbolInfo := {|
  point := 0.00001; digits := 5; volume_min := Py.fl 0.3; volume_max := 100;
  volume_step := Py.fl 0.1; trade_tick_value := 1; trade_contract_size := 100000 |}.

(** The terminal of [terminal_1000] with that symbol for EURUSD. *)
Definition terminal_coarse : Terminal := {|
  t_account_info := Some (account 1000 1000);
  t_positions_get := Some [];
  t_symbol_info := fun sym => if String.eqb sym "EURUSD" then Some coarse_symbol else None;
  t_symbol_info_tick := fun sym =>
    if String.eqb sym "EURUSD" then Some {| bid := 1.1; ask := 1.1001 |} else None;
  t_copy_rates_d1 := fun _ _ => None;
  t_has_rates := fun _ => false;
  t_corr := fun _ _ => None;
  t_accepts := fun _ => true |}.

(** The default configuration with a trailing distance of 20 pips, wider
    than the 15 pips that activate the trailing stop. *)
Definition config_wide_trailing : Config := {|
  risk_limits_cfg := risk_limits_cfg default_config;
  position_sizing := position_sizing default_config;
  stop_loss := stop_loss default_config;
  trailing_stop := {|
    ts_enabled := true; ts_activation_pips := 15; ts_distance_pips := 20;
    ts_step_pips := 5 |};
  break_even := break_even default_config;
  partial_close := partial_close default_config;
  time_filter := time_filter default_config;
  correlation_risk := correlation_risk default_config;
  volatility_filter := volatility_filter default_config;
  recovery_mode := recovery_mode default_config |}.

(** A long EURUSD position bought at 1.1000 and quoted 16 pips higher, its
    stop 50 pips under the entry. *)
Definition long_16_pips : list TPosition := [tposition 7 0 1 1.1 1.1016 1.095].

(** A terminal with that position which refuses to move a stop to 1.1002,
    the break-even level, and accepts every other request. *)
Definition terminal_refusing_break_even : Terminal := {|
  t_account_info := Some (account 1000 1000);
  t_positions_get := Some long_16_pips;
  t_symbol_info := fun sym => if String.eqb sym "EURUSD" then Some eurusd else None;
  t_symbol_info_tick := fun sym =>
    if String.eqb sym "EURUSD" then Some {| bid := 1.1; ask := 1.1001 |} else None;
  t_copy_rates_d1 := fun _ _ => None;
  t_has_rates := fun _ => false;
  t_corr := fun _ _ => None;
  t_accepts := fun r =>
    match r with
    | ReqSLTP _ new_sl _ => negb (Py.eqb new_sl 1.1002)
    | ReqDeal _ _ _ _ _ => true
    end |}.

Definition manager_wide_trailing : State :=
  (update_positions terminal_refusing_break_even (init config_wide_trailing)).1.

(** The same position once its stop was trailed to 1.0996, on a terminal
    that accepts every request. *)
Definition terminal_long_16_pips : Terminal :=
  terminal (Some (account 1000 1000)) [tposition 7 0 1 1.1 1.1016 1.0996].

End Scenarios.

(** ** Concrete orders, configurations and registries used by the examples *)
Module ReplicationScenarios.
Import Replicator.

(** [{ticket: 100, symbol: "EURUSD", side: BUY, volume: 1.0,
     stopLoss: 1.0950, takeProfit: 1.1100}] *)
Definition order_100 : Order := {|
  ticket := Some 100%Z; symbol := "EURUSD"; type := Some 0%Z; volume := 1.0;
  price := 1.1; sl := 1.0950; tp := 1.1100; comment := "" |}.

Definition order_of (k : Z) : Order := {|
  ticket := Some k; symbol := "EURUSD"; type := Some 0%Z; volume := 1.0;
  price := 1.1; sl := 1.0950; tp := 1.1100; comment := "" |}.

(** [{multiplier: 0.5, reverse: false, includeLevels: true, adjustPercent: 0}] *)
Definition config_half : Config :=
  update {| u_enabled := Some true; u_volume_multiplier := Some 0.5;
            u_reverse_direction := Some false; u_symbols_filter := None;
            u_max_volume := None; u_min_volume := None; u_delay_seconds := None;
            u_include_sl_tp := Some true; u_adjust_sl_tp_percent := Some 0 |}
         default_config.

(** [{multiplier: 1.0, reverse: true, includeLevels: false}] *)
Definition config_reverse : Config :=
  update {| u_enabled := Some true; u_volume_multiplier := Some 1.0;
            u_reverse_direction := Some true; u_symbols_filter := None;
            u_max_volume := None; u_min_volume := None; u_delay_seconds := None;
            u_include_sl_tp := Some false; u_adjust_sl_tp_percent := None |}
         default_config.

(** Targets that are connected and whose [execute_order] always fails. *)
Definition failing_targets : Targets := {|
  check_connection := fun _ => true;
  execute_order := fun _ _ => ExResult false |}.

(** Targets that are connected and execute every order. *)
Definition healthy_targets : Targets := {|
  check_connection := fun _ => true;
  execute_order := fun _ _ => ExResult true |}.

(** A running replicator with one target and order 100 on its queue. *)
Definition replicator_with_order : Replicator := {|
  mt5_backend_source := Some "A"; mt5_backend_targets := ["T1"];
  running := true; order_queue := [order_100]; processed_orders := {[ 100%Z ]};
  replication_config := config_half |}.

(** A running replicator that has seen nothing yet. *)
Definition fresh_replicator : Replicator := {|
  mt5_backend_source := Some "A"; mt5_backend_targets := ["T1"];
  running := true; order_queue := []; processed_orders := ∅;
  replication_config := config_half |}.

(** The source history answers order 100 in three successive windows (twice
    in the first), as the five-minute overlap makes it do. *)
Definition overlapping_history : list Step :=
  [ Monitor true (Some [order_100; order_100]); Replicate healthy_targets;
    Monitor true (Some [order_100]); Replicate healthy_targets;
    Monitor true (Some [order_100; order_of 101]); Replicate healthy_targets ].

(** Accounts A, T1 and T2, and two groups on the source A. *)
Definition two_groups : MultiAccount.Registry :=
  let m := (MultiAccount.add_account "A" MultiAccount.empty).1 in
  let m := (MultiAccount.add_account "T1" m).1 in
  let m := (MultiAccount.add_account "T2" m).1 in
  let m := (MultiAccount.add_account "B" m).1 in
  let m := (MultiAccount.create_replication_group "g1" "A" ["T1"] m).1 in
  let m := (MultiAccount.create_replication_group "g2" "A" ["T2"] m).1 in
  (MultiAccount.create_replication_group "g3" "B" ["T1"] m).1.



(** Both groups of source A replicating: [start_replication("g1")] with
    every account connected. *)
Definition two_groups_running : MultiAccount.Registry :=
  (MultiAccount.start_replication (fun _ => true) "g1" two_groups).1.

End ReplicationScenarios.

(** ** The configuration file of a manager ([_load_config]) *)
Module ConfigFile.

(** What [json.load] answers. *)
#[warnings="-register-all"] Inductive Json :=
| JNull
| JBool (b : bool)
| JNum (q : Q)
| JStr (s : string)
| JList (l : list Json)
| JDict (d : gmap string Json).

Definition is_dict (v : Json) : bool :=
  match v with JDict _ => true | _ => false end.

(** What [merge_dict] leaves under a key of [d1] whose old value is [old]
    when [d2] holds [v] under that key: the merge of the two when both are
    dictionaries, [v] otherwise. *)
Fixpoint merge_value (old : option Json) (v : Json) {struct v} : Json :=
  match old, v with
  | Some (JDict d1), JDict d2 =>
      JDict (map_imap (fun k v' => Some (merge_value (d1 !! k) v')) d2 ∪ d1)
  | _, _ => v
  end.

(** [merge_dict(d1, d2)]: the dictionary [d1] after the call. *)
Definition merge_dict (d1 d2 : gmap string Json) : gmap string Json :=
  map_imap (fun k v => Some (merge_value (d1 !! k) v)) d2 ∪ d1.

(** [_load_config]: [file] is [None] when there is no path or no file at the
    path, [Some None] when reading or parsing raises, and what [json.load]
    answers otherwise. A document that is not an object has no [items], the
    call raises before anything is merged and the handler answers the
    defaults. *)
Definition _load_config (default_config : gmap string Json)
    (file : option (option Json)) : gmap string Json :=
  match file with
  | Some (Some (JDict config)) => merge_dict default_config config
  | _ => default_config
  end.

(** [d[k1][k2]...]: the value at the end of a path of keys. *)
Fixpoint lookup_path (p : list string) (v : Json) : option Json :=
  match p with
  | [] => Some v
  | k :: p' =>
      match v with
      | JDict d =>
          match d !! k with
          | Some w => lookup_path p' w
          | None => None
          end
      | _ => None
      end
  end.

(** The file says nothing about a path: walking it through the file ends at
    a missing key, with dictionaries all the way to that key. *)
Fixpoint untouched (p : list string) (v : Json) : bool :=
  match p with
  | [] => false
  | k :: p' =>
      match v with
      | JDict d =>
          match d !! k with
          | None => true
          | Some w => is_dict w && untouched p' w
          end
      | _ => false
      end
  end.

(** A small default configuration and a file that overrides one of its
    values. *)
Definition defaults_example : gmap string Json :=
  {[ "risk_limits" := JDict {[ "max_open_positions" := JNum 5;
                               "max_daily_loss_percent" := JNum 3 ]};
     "time_filter" := JDict {[ "enabled" := JBool true ]} ]}.

Definition file_example : gmap string Json :=
  {[ "risk_limits" := JDict {[ "max_open_positions" := JNum 8 ]} ]}.

End ConfigFile.

(** ** The trade history and its statistics *)
Module History.
Import RiskManager.

Definition DEAL_ENTRY_IN : Z := 0%Z.
Definition DEAL_ENTRY_OUT : Z := 1%Z.

(** An element of [mt5.history_deals_get], with the attributes that reach
    the keys of a trade read elsewhere. *)
Record Deal := {
  d_entry : Z;
  d_ticket : Z;
  d_symbol : string;
  d_type : Z;
  d_volume : Q;
  d_profit : Q;
  d_time : Z
}.

(** The dictionary opened by an IN deal and completed by an OUT deal. *)
Definition trade_of (opening closing : Deal) : Trade := {|
  tr_ticket := d_ticket opening; tr_symbol := d_symbol opening;
  tr_type := d_type opening; tr_volume := d_volume opening;
  tr_profit := d_profit closing; tr_close_time := d_time closing |}.

(** The loop of lines 337-365; [current] is [current_trade]. *)
Fixpoint pair_deals (current : option Deal) (history : list Deal) : list Trade :=
  match history with
  | [] => []
  | deal :: rest =>
      if (d_entry deal =? DEAL_ENTRY_IN)%Z then pair_deals (Some deal) rest
      else if (d_entry deal =? DEAL_ENTRY_OUT)%Z then
        match current with
        | Some opening => trade_of opening deal :: pair_deals None rest
        | None => pair_deals None rest
        end
      else pair_deals current rest
  end.

Definition set_trade_history (h : list Trade) (s : State) : State :=
  {| config := config s; account_info := account_info s;
     positions := positions s; trade_history := h;
     daily_stats := daily_stats s; weekly_stats := weekly_stats s;
     monthly_stats := monthly_stats s; risk_limits := risk_limits s |}.

Definition set_statistics (d : gmap Z StatRow) (w m : gmap (Z * Z) StatRow)
    (s : State) : State :=
  {| config := config s; account_info := account_info s;
     positions := positions s; trade_history := trade_history s;
     daily_stats := d; weekly_stats := w; monthly_stats := m;
     risk_limits := risk_limits s |}.

(** [df.groupby(key)]: the rows of each key, in the order of the frame. *)
Definition group_by {K} `{Countable K} (key : Trade -> K) (h : list Trade)
    : gmap K (list Trade) :=
  foldr (fun tr m => <[key tr := tr :: default [] (m !! key tr)]> m) ∅ h.

(** The aggregation of lines 400-407 over the rows of one key. *)
Definition stat_of (g : list Trade) : StatRow :=
  let trades := Z.of_nat (length g) in
  let wins := Z.of_nat (length (List.filter (fun tr => Py.gtb (tr_profit tr) 0) g)) in
  {| st_trades := trades;
     st_profit := Py.sum (map tr_profit g);
     st_wins := wins;
     st_losses := (trades - wins)%Z;
     st_win_rate := inject_Z wins / inject_Z trades * 100 |}.

(** The row of a group of trades; a key without a trade has no row. *)
Definition row_of (g : list Trade) : option StatRow :=
  match g with
  | [] => None
  | _ => Some (stat_of g)
  end.

(** How many deals have the entry [e]. *)
Definition count_entry (e : Z) (deals : list Deal) : nat :=
  length (filter (fun d => d_entry d = e) deals).

(** No opening and no closing deal. *)
Definition neutral (d : Deal) : Prop :=
  d_entry d <> DEAL_ENTRY_IN /\ d_entry d <> DEAL_ENTRY_OUT.

(** The request of [close_position] for the position [p] held under the
    key [k]: the whole volume, at the bid for a long position and at the ask
    for a short one. *)
Definition closing_deal (k : Z) (p : Position) (last_tick : Tick) : Request :=
  if (type p =? POSITION_TYPE_BUY)%Z
  then ReqDeal k (symbol p) (volume p) 1%Z (bid last_tick)
  else ReqDeal k (symbol p) (volume p) 0%Z (ask last_tick).

Section Calendar.

(** The calendar of a closing time: [close_time.dt.date], [.dt.year],
    [.dt.isocalendar().week] and [.dt.month]. *)
Variables date_of year_of week_of month_of : Z -> Z.

Definition _update_statistics (s : State) : State :=
  match trade_history s with
  | [] => s
  | h =>
      set_statistics
        (stat_of <$> group_by (fun tr => date_of (tr_close_time tr)) h)
        (stat_of <$> group_by (fun tr => (year_of (tr_close_time tr),
                                          week_of (tr_close_time tr))) h)
        (stat_of <$> group_by (fun tr => (year_of (tr_close_time tr),
                                          month_of (tr_close_time tr))) h)
        s
  end.

(** [update_trade_history]; [history] is the answer of
    [mt5.history_deals_get]. *)
Definition update_trade_history (history : option (list Deal)) (s : State)
    : State * bool :=
  match history with
  | None => (s, true)
  | Some deals =>
      (_update_statistics (set_trade_history (pair_deals None deals) s), true)
  end.

(** *** [close_position] and [close_all_positions] *)

(** What [mt5.history_deals_get] answers once the terminal is in a given
    state. *)
Variable history_deals_get : Terminal -> option (list Deal).

Definition close_position (t : Terminal) (s : State) (k : Z)
    : bool * State * Terminal :=
  match positions s !! k with
  | None => (false, s, t)
  | Some p =>
      match t_symbol_info_tick t (symbol p) with
      | None => (false, s, t)
      | Some last_tick =>
          let '(done, t') := order_send (closing_deal k p last_tick) t in
          if done then
            let s1 := set_positions (delete k (positions s)) s in
            (true, (update_trade_history (history_deals_get t') s1).1, t')
          else (false, s, t)
      end
  end.

(** The body of the loop of [close_all_positions]: [success] so far, the
    manager and the terminal. *)
Definition closing_fold : bool * State * Terminal -> Z -> bool * State * Terminal :=
  fun '(success, s', t') k =>
    let '(ok, s'', t'') := close_position t' s' k in
    (if ok then success else false, s'', t'').

(** [list(self.positions.keys())]: the order in which the dictionary
    enumerates its keys (the order of insertion, which the map does not
    keep) is left open. *)
Variable dict_keys : gmap Z Position -> list Z.

Definition close_all_positions (t : Terminal) (s : State)
    : bool * State * Terminal :=
  if map_is_empty (positions s) then (true, s, t)
  else foldl closing_fold (true, s, t) (dict_keys (positions s)).

End Calendar.

(** Whether [close_position] can close the position [p] held under [k]: a
    tick is quoted for its symbol and the terminal accepts the closing deal. *)
Definition can_close (t : Terminal) (k : Z) (p : Position) : bool :=
  match t_symbol_info_tick t (symbol p) with
  | Some last_tick => t_accepts t (closing_deal k p last_tick)
  | None => false
  end.

End History.

(** ** Stop-loss and take-profit levels *)
Module Levels.
Import RiskManager.

(** [round(x, ndigits)] on a float: to the nearest multiple of
    [10 ** -ndigits], a tie to the even one. *)
Definition round_digits (x : Q) (ndigits : Z) : Q :=
  Py.round (x * Py.pow10 ndigits) / Py.pow10 ndigits.

Definition fneg (x : Py.F) : Py.F :=
  match x with
  | Py.Fin q => Py.Fin (- q)
  | Py.PInf => Py.NInf
  | Py.NInf => Py.PInf
  | Py.NaN => Py.NaN
  end.

Definition fadd (x y : Py.F) : Py.F :=
  match x, y with
  | Py.NaN, _ | _, Py.NaN => Py.NaN
  | Py.Fin a, Py.Fin b => Py.Fin (a + b)
  | Py.PInf, Py.NInf | Py.NInf, Py.PInf => Py.NaN
  | Py.PInf, _ | _, Py.PInf => Py.PInf
  | Py.NInf, _ | _, Py.NInf => Py.NInf
  end.

Definition fsub (x y : Py.F) : Py.F := fadd x (fneg y).

Definition fabs (x : Py.F) : Py.F :=
  match x with
  | Py.Fin q => Py.Fin (Qabs q)
  | Py.PInf | Py.NInf => Py.PInf
  | Py.NaN => Py.NaN
  end.

(** [x == 0] *)
Definition fis_zero (x : Py.F) : bool :=
  match x with
  | Py.Fin q => Py.eqb q 0
  | _ => false
  end.

(** The entry price of lines 1306-1315: the argument, or the quote of the
    side when the argument is left out. *)
Definition entry_of (t : Terminal) (sym action : string) (entry_price : option Q)
    : option Q :=
  match entry_price with
  | Some e => Some e
  | None =>
      match t_symbol_info_tick t sym with
      | None => None
      | Some last_tick =>
          Some (if String.eqb action "BUY" then ask last_tick else bid last_tick)
      end
  end.

(** [entry_price -/+ pips * 10 * point], rounded to the digits of the symbol. *)
Definition level_at (info : SymbolInfo) (entry : Q) (up : bool) (pips : Py.F) : Py.F :=
  let dist := Py.fmul (Py.fmul pips (Py.Fin 10)) (Py.Fin (point info)) in
  let level := if up then fadd (Py.Fin entry) dist else fsub (Py.Fin entry) dist in
  Py.fmap_fin (fun x => round_digits x (digits info)) level.

Definition calculate_stop_loss (t : Terminal) (s : State) (sym action : string)
    (entry_price : option Q) : Py.F :=
  match entry_of t sym action entry_price with
  | None => Py.Fin 0
  | Some entry =>
      let stop_loss_pips := _calculate_stop_loss_pips t s sym action in
      match t_symbol_info t sym with
      | None => Py.Fin 0
      | Some info =>
          level_at info entry (negb (String.eqb action "BUY")) stop_loss_pips
      end
  end.

(** [self.config["take_profit"]], the section that [Config] leaves out. *)
Record TakeProfitCfg := {
  tp_method : string;
  tp_fixed_pips : Q;
  tp_atr_multiple : Q;
  tp_atr_period : nat;
  risk_reward_ratio : Q;
  tp_min_pips : Q;
  tp_max_pips : Q
}.

Definition default_take_profit : TakeProfitCfg := {|
  tp_method := "risk_reward"; tp_fixed_pips := 40; tp_atr_multiple := 2.5;
  tp_atr_period := 14; risk_reward_ratio := 2; tp_min_pips := 15;
  tp_max_pips := 200 |}.

Definition calculate_take_profit (c : TakeProfitCfg) (t : Terminal) (s : State)
    (sym action : string) (entry_price stop_loss : option Q) : Py.F :=
  match entry_of t sym action entry_price with
  | None => Py.Fin 0
  | Some entry =>
      let buy := String.eqb action "BUY" in
      if String.eqb (tp_method c) "fixed" then
        match t_symbol_info t sym with
        | None => Py.Fin 0
        | Some info => level_at info entry buy (Py.Fin (tp_fixed_pips c))
        end
      else if String.eqb (tp_method c) "atr" then
        match t_copy_rates_d1 t sym (tp_atr_period c + 1) with
        | None => Py.Fin 0
        | Some rates =>
            if (length rates <? tp_atr_period c + 1)%nat then Py.Fin 0 else
            match t_symbol_info t sym with
            | None => Py.Fin 0
            | Some info =>
                let tp_pips :=
                  Py.fmul (atr_pips rates (tp_atr_period c) info)
                          (Py.Fin (tp_atr_multiple c)) in
                let tp_pips := Py.fmax tp_pips (Py.Fin (tp_min_pips c)) in
                let tp_pips := Py.fmin tp_pips (Py.Fin (tp_max_pips c)) in
                level_at info entry buy tp_pips
            end
        end
      else if String.eqb (tp_method c) "risk_reward" then
        let stop_loss :=
          match stop_loss with
          | Some sl => Py.Fin sl
          | None => calculate_stop_loss t s sym action (Some entry)
          end in
        if fis_zero stop_loss then Py.Fin 0 else
        let sl_distance := fabs (fsub (Py.Fin entry) stop_loss) in
        let reward := Py.fmul sl_distance (Py.Fin (risk_reward_ratio c)) in
        let tp := if buy then fadd (Py.Fin entry) reward
                  else fsub (Py.Fin entry) reward in
        match t_symbol_info t sym with
        | None => Py.Fin 0
        | Some info => Py.fmap_fin (fun x => round_digits x (digits info)) tp
        end
      else Py.Fin 0
  end.

End Levels.

(** ** More operations of the registry of replication groups *)
Module Groups.
Import MultiAccount.

Definition with_backends (bs : gset string) (m : Registry) : Registry :=
  {| replicators := replicators m; backends := bs;
     replication_groups := replication_groups m |}.

Definition with_group_targets (l : list string) (group : Group) : Group :=
  {| source := source group; targets := l |}.

Definition add_target_to_group (group_name target_account_id : string)
    (m : Registry) : Registry * bool :=
  match replication_groups m !! group_name with
  | None => (m, false)
  | Some group =>
      if negb (bool_decide (target_account_id ∈ backends m)) then (m, false)
      else if String.eqb target_account_id (source group) then (m, false)
      else if bool_decide (target_account_id ∈ targets group) then (m, true)
      else
        let m1 :=
          with_groups
            (<[group_name := with_group_targets (targets group ++ [target_account_id]) group]>
               (replication_groups m)) m in
        match replicators m !! source group with
        | Some replicator =>
            (with_replicators
               (<[source group := Replicator.add_target_backend target_account_id replicator]>
                  (replicators m)) m1,
             true)
        | None => (m1, true)
        end
  end.

Definition remove_target_from_group (group_name target_account_id : string)
    (m : Registry) : Registry * bool :=
  match replication_groups m !! group_name with
  | None => (m, false)
  | Some group =>
      if negb (bool_decide (target_account_id ∈ targets group)) then (m, true)
      else
        let m1 :=
          with_groups
            (<[group_name :=
                 with_group_targets
                   (Replicator.remove_first target_account_id (targets group)) group]>
               (replication_groups m)) m in
        let is_target_used :=
          existsb (fun kv : string * Group =>
                     String.eqb (source kv.2) (source group)
                     && bool_decide (target_account_id ∈ targets kv.2))
                  (map_to_list (replication_groups m1)) in
        if negb is_target_used then
          match replicators m !! source group with
          | Some replicator =>
              if bool_decide (target_account_id ∈ backends m) then
                (with_replicators
                   (<[source group :=
                        Replicator.remove_target_backend target_account_id replicator]>
                      (replicators m)) m1,
                 true)
              else (m1, true)
          | None => (m1, true)
          end
        else (m1, true)
  end.

Section Enumeration.

(** [list(self.replication_groups.items())] and the iteration over a loaded
    JSON object: the order in which a dictionary enumerates its entries (the
    order of insertion, which the map does not keep) is left open. *)
Variable dict_items : gmap string Group -> list (string * Group).

(** The body of the loop of [remove_account] for one entry of the snapshot.
    The dictionary of a group is only changed when its own entry is
    handled, so the entry read from the snapshot is the current one. *)
Definition detach_account (account_id : string) (m : Registry)
    (entry : string * Group) : Registry :=
  let '(group_name, group) := entry in
  if String.eqb (source group) account_id
  then (remove_replication_group group_name m).1
  else if bool_decide (account_id ∈ targets group)
  then (remove_target_from_group group_name account_id m).1
  else m.

Definition remove_account (account_id : string) (m : Registry) : Registry * bool :=
  if negb (bool_decide (account_id ∈ backends m)) then (m, false)
  else
    let m1 := foldl (detach_account account_id) m (dict_items (replication_groups m)) in
    (with_backends (backends m1 ∖ {[account_id]}) m1, true).

(** *** Saving and loading the groups *)

(** The JSON document of [save_configuration]: the groups in the order the
    dictionary enumerates them, and the configuration of each group under
    its name. [None] is a key that is missing. Every group of the document
    has its keys "source" and "targets", as the groups that are saved have;
    a document with a group that lacks one, on which [load_configuration]
    raises in the middle of its loop, is not represented. *)
Record ConfigurationFile := {
  cf_groups : option (list (string * Group));
  cf_group_configs : option (gmap string Replicator.ConfigUpdate)
}.

Definition save_configuration (m : Registry) : ConfigurationFile :=
  let names := (dict_items (replication_groups m)).*1 in
  {| cf_groups := Some (dict_items (replication_groups m));
     cf_group_configs :=
       Some (foldl (fun configs group_name =>
                      match get_group_config group_name m with
                      | Some group_config =>
                          <[group_name := Replicator.as_update group_config]> configs
                      | None => configs
                      end) ∅ names) |}.

(** The body of the loop that recreates the groups. *)
Definition restore_group (file : ConfigurationFile) (m : Registry)
    (entry : string * Group) : Registry :=
  let '(group_name, group) := entry in
  if negb (bool_decide (source group ∈ backends m)) then m
  else
    let m1 := (create_replication_group group_name (source group) (targets group) m).1 in
    match cf_group_configs file with
    | Some configs =>
        match configs !! group_name with
        | Some config => (set_group_config group_name config m1).1
        | None => m1
        end
    | None => m1
    end.

(** [load_configuration]: [file] is [None] when no file is at the path and
    [Some None] when reading or parsing raises. The running replicators are
    stopped before the registry forgets them. *)
Definition load_configuration (file : option (option ConfigurationFile))
    (m : Registry) : Registry * bool :=
  match file with
  | None => (m, false)
  | Some None => (m, false)
  | Some (Some config) =>
      match cf_groups config with
      | None => (m, false)
      | Some groups =>
          let m0 := with_replicators ∅ (with_groups ∅ m) in
          (foldl (restore_group config) m0 groups, true)
      end
  end.

(** *** Sequences of calls on a registry *)

(** [list(s)] of the processed set of a replicator, for its monitor loop. *)
Variable set_list : gset Z -> list Z.

Inductive Op :=
| AddAccount (account_id : string)
| RemoveAccount (account_id : string)
| CreateGroup (group_name source_account_id : string) (target_account_ids : list string)
| RemoveGroup (group_name : string)
| AddTargetToGroup (group_name target_account_id : string)
| RemoveTargetFromGroup (group_name target_account_id : string)
| SetGroupConfig (group_name : string) (config : Replicator.ConfigUpdate)
| StartGroup (conn : string -> bool) (group_name : string)
| StopGroup (group_name : string)
| MonitorPass (source_account_id : string) (connected : bool)
              (orders : option (list Replicator.Order))
| ReplicationPass (source_account_id : string) (env : Replicator.Targets)
| LoadFile (file : option (option ConfigurationFile)).

(** One iteration of a thread of the replicator of a source account. *)
Definition thread_pass (source_account_id : string) (st : Replicator.Step)
    (m : Registry) : Registry :=
  match replicators m !! source_account_id with
  | Some replicator =>
      with_replicators
        (<[source_account_id := (Replicator.step set_list st replicator).1]>
           (replicators m)) m
  | None => m
  end.

Definition apply_op (op : Op) (m : Registry) : Registry :=
  match op with
  | AddAccount a => (add_account a m).1
  | RemoveAccount a => (remove_account a m).1
  | CreateGroup g src ts => (create_replication_group g src ts m).1
  | RemoveGroup g => (remove_replication_group g m).1
  | AddTargetToGroup g a => (add_target_to_group g a m).1
  | RemoveTargetFromGroup g a => (remove_target_from_group g a m).1
  | SetGroupConfig g u => (set_group_config g u m).1
  | StartGroup conn g => (start_replication conn g m).1
  | StopGroup g => (stop_replication g m).1
  | MonitorPass src connected orders =>
      thread_pass src (Replicator.Monitor connected orders) m
  | ReplicationPass src env => thread_pass src (Replicator.Replicate env) m
  | LoadFile file => (load_configuration file m).1
  end.

Definition run_ops (ops : list Op) (m : Registry) : Registry :=
  foldl (fun m op => apply_op op m) m ops.

End Enumeration.

(** What the calls keep true of a registry: every group has the replicator
    of its source, every replicator serves a group, a replicator stands under
    the account it reads from and never writes to that account, and the
    targets of a group are targets of its replicator. *)
Record consistent (m : Registry) : Prop := {
  group_has_replicator :
    forall g group, replication_groups m !! g = Some group ->
      exists r, replicators m !! source group = Some r
                /\ targets group ⊆ Replicator.mt5_backend_targets r;
  replicator_has_group :
    forall src r, replicators m !! src = Some r ->
      exists g group, replication_groups m !! g = Some group /\ source group = src;
  replicator_source :
    forall src r, replicators m !! src = Some r ->
      Replicator.mt5_backend_source r = Some src
      /\ src ∉ Replicator.mt5_backend_targets r;
  group_source_not_target :
    forall g group, replication_groups m !! g = Some group ->
      source group ∉ targets group
}.

(** The groups name accounts that the registry holds. *)
Definition valid_groups (m : Registry) : Prop :=
  forall g group, replication_groups m !! g = Some group ->
    source group ∈ backends m
    /\ Forall (fun a => a ∈ backends m /\ a <> source group) (targets group).

(** The replicator [r'] reads and writes the accounts that [r] does. *)
Definition same_wiring (r r' : Replicator.Replicator) : Prop :=
  Replicator.mt5_backend_source r' = Replicator.mt5_backend_source r
  /\ Replicator.mt5_backend_targets r' = Replicator.mt5_backend_targets r.

(** What [load_configuration] has rebuilt of the registry [m] once it has
    come to the registry [mi]: groups of [m] with their replicators, which
    are new, read the configuration their source had in [m] and write to
    the targets of the groups rebuilt so far. *)
Definition restored (m mi : Registry) : Prop :=
  backends mi = backends m
  /\ (forall g grp, replication_groups mi !! g = Some grp ->
        replication_groups m !! g = Some grp
        /\ is_Some (replicators mi !! source grp))
  /\ (forall src r, replicators mi !! src = Some r ->
        Replicator.running r = false
        /\ Replicator.order_queue r = []
        /\ Replicator.processed_orders r = ∅
        /\ (exists r0, replicators m !! src = Some r0
                       /\ Replicator.replication_config r = Replicator.replication_config r0)
        /\ (forall x, x ∈ Replicator.mt5_backend_targets r
              <-> exists g grp, replication_groups mi !! g = Some grp
                                /\ source grp = src /\ x ∈ targets grp)).

End Groups.

(** ** The queues of the integration module ([mt5_integration.py]) *)
Module Integration.

(** An item of [self.order_queue], with the keys the queue handling reads. *)
Record Item := { source : string; order_id : Z }.

Inductive Event :=
| Attempt (order_id : Z) (attempt : nat)
| Sleep (seconds : Q)
| Warning (order_id : Z).

Definition is_attempt (e : Event) : bool :=
  match e with Attempt _ _ => true | _ => false end.

Definition is_warning (e : Event) : bool :=
  match e with Warning _ => true | _ => false end.

(** [_add_to_order_queue]: on a full queue the oldest item goes; [pop(0)] on
    an empty list raises, the handler logs and nothing is appended. *)
Definition _add_to_order_queue (max_queue_size : Z) (order_item : Item)
    (order_queue : list Item) : list Item :=
  if (max_queue_size <=? Z.of_nat (length order_queue))%Z then
    match order_queue with
    | [] => []
    | _ :: rest => rest ++ [order_item]
    end
  else order_queue ++ [order_item].

(** [_is_order_synced] *)
Definition _is_order_synced (id : Z) (order_queue : list Item) : bool :=
  existsb (fun item => (order_id item =? id)%Z) order_queue.

Section Processing.

(** Whether the [attempt]-th try at replicating the item at a position of
    the queue succeeds: a call that raises counts as a failure, as the
    handler makes it. *)
Variable replicate : nat -> Item -> nat -> bool.

Variable retry_delay : Q.

(** The [while not success and attempts < retry_attempts] loop for the item
    at position [i], [done] attempts made and [remaining] still allowed. The
    answer is [None] when [time.sleep] raises on a negative delay. *)
Fixpoint retry_loop (i : nat) (item : Item) (done remaining : nat)
    : option bool * list Event :=
  match remaining with
  | O => (Some false, [])
  | S rest =>
      let attempts := S done in
      if replicate i item attempts
      then (Some true, [Attempt (order_id item) attempts])
      else
        match rest with
        | O => (Some false, [Attempt (order_id item) attempts])
        | S _ =>
            if Py.ltb retry_delay 0 then (None, [Attempt (order_id item) attempts])
            else
              let '(success, evs) := retry_loop i item attempts rest in
              (success, Attempt (order_id item) attempts :: Sleep retry_delay :: evs)
        end
  end.

(** The [for order_item in queue_copy] loop from position [i] on;
    [order_queue] is the new [self.order_queue]. An exception ends the pass
    in the outer handler and what is left of the copy is lost. No other
    thread adds to the queue during the pass. *)
Fixpoint process_items (retry_attempts : Z) (i : nat)
    (queue_copy order_queue : list Item) : list Item * list Event :=
  match queue_copy with
  | [] => (order_queue, [])
  | order_item :: rest =>
      let '(success, evs) := retry_loop i order_item 0 (Z.to_nat retry_attempts) in
      match success with
      | None => (order_queue, evs)
      | Some true =>
          let '(q, evs') := process_items retry_attempts (S i) rest order_queue in
          (q, evs ++ evs')
      | Some false =>
          let '(q, evs') :=
            process_items retry_attempts (S i) rest (order_queue ++ [order_item]) in
          (q, evs ++ Warning (order_id order_item) :: evs')
      end
  end.

Definition _process_order_queue (retry_attempts : Z) (order_queue : list Item)
    : list Item * list Event :=
  match order_queue with
  | [] => ([], [])
  | _ => process_items retry_attempts 0 order_queue []
  end.

(** Every try allowed to the item at position [i] fails. *)
Definition gives_up (retry_attempts : Z) (i : nat) (item : Item) : bool :=
  forallb (fun n => negb (replicate i item n)) (seq 1 (Z.to_nat retry_attempts)).

(** The items with their positions, from position [i] on. *)
Fixpoint numbered (i : nat) (l : list Item) : list (nat * Item) :=
  match l with
  | [] => []
  | x :: r => (i, x) :: numbered (S i) r
  end.

End Processing.

Definition is_sleep (e : Event) : bool :=
  match e with Sleep _ => true | _ => false end.

(** How many events of a kind a pass logs. *)
Definition count_events (kind : Event -> bool) (evs : list Event) : nat :=
  length (List.filter kind evs).

(** Successive calls of [_add_to_order_queue]. *)
Definition add_all (max_queue_size : Z) (items : list Item) (order_queue : list Item)
    : list Item :=
  foldl (fun q order_item => _add_to_order_queue max_queue_size order_item q)
        order_queue items.

(** An oracle under which only the order 2 fails, at every try. *)
Definition order_2_fails (i : nat) (item : Item) (attempt : nat) : bool :=
  negb (order_id item =? 2)%Z.

Definition three_items : list Item :=
  [ {| source := "ea"; order_id := 1 |};
    {| source := "replicator"; order_id := 2 |};
    {| source := "ea"; order_id := 3 |} ].

End Integration.

(** ** Notions that the properties of the risk manager are stated with *)
Module RiskNotions.
Import RiskManager.

(** How many of the positions are on a symbol. *)
Definition positions_on (sym : string) (ps : list Position) : Z :=
  Z.of_nat (length (filter (fun p => symbol p = sym) ps)).

(** The flag of the weekday in the time filter; a weekday outside 0..6 has
    no flag. *)
Definition trade_day (f : TimeFilterCfg) (weekday : Z) : option bool :=
  if (weekday =? 0)%Z then Some (trade_monday f)
  else if (weekday =? 1)%Z then Some (trade_tuesday f)
  else if (weekday =? 2)%Z then Some (trade_wednesday f)
  else if (weekday =? 3)%Z then Some (trade_thursday f)
  else if (weekday =? 4)%Z then Some (trade_friday f)
  else if (weekday =? 5)%Z then Some (trade_saturday f)
  else if (weekday =? 6)%Z then Some (trade_sunday f)
  else None.

(** Closing times that never increase along the list. *)
Fixpoint descending (l : list Trade) : Prop :=
  match l with
  | [] => True
  | x :: r =>
      Forall (fun y => (tr_close_time y <= tr_close_time x)%Z) r /\ descending r
  end.



End RiskNotions.

(** ** Notions that the properties of the replicator are stated with *)
Module ReplicatorNotions.
Import Replicator.

(** The calls of [execute_order] among the events: the target and the
    request of each, in order. *)
Definition calls (evs : list Event) : list (string * ExecRequest) :=
  omap (fun e => match e with
                 | Execute target _ req => Some (target, req)
                 | _ => None
                 end) evs.

End ReplicatorNotions.

(** ** More concrete states used by the examples *)
Module MoreScenarios.
Import RiskManager.

(** A trade closed at [close] with a loss of 10. *)
Definition losing_trade (k close : Z) : Trade := {|
  tr_ticket := k; tr_symbol := "EURUSD"; tr_type := 0; tr_volume := 0.1;
  tr_profit := -10; tr_close_time := close |}.

(** A manager whose last three trades, closed within five minutes, lost. *)
Definition manager_three_losses : State :=
  History.set_trade_history
    [losing_trade 1 100; losing_trade 2 200; losing_trade 3 300]
    (init default_config).

(** A long EURUSD and a long GBPUSD position on a terminal that gives the
    two symbols a correlation of 0.9. *)
Definition terminal_correlated : Terminal := {|
  t_account_info := Some (Scenarios.account 1000 1000);
  t_positions_get :=
    Some [ Scenarios.tposition 1 0 0.1 1.1 1.1 0;
           {| tp_ticket := 2; tp_symbol := "GBPUSD"; tp_type := 0; tp_volume := 0.1;
              tp_price_open := 1.3; tp_price_current := 1.3; tp_sl := 0; tp_tp := 0;
              tp_profit := 0; tp_swap := 0; tp_time := 0; tp_magic := 123456;
              tp_comment := "" |} ];
  t_symbol_info := fun _ => Some Scenarios.eurusd;
  t_symbol_info_tick := fun _ => Some {| bid := 1.1; ask := 1.1001 |};
  t_copy_rates_d1 := fun _ _ => None;
  t_has_rates := fun _ => true;
  t_corr := fun _ _ => Some 0.9;
  t_accepts := fun _ => true |}.

(** The replicator of source A in [ReplicationScenarios.two_groups]. *)
Definition replicator_of_A (running enabled : bool) : Replicator.Replicator := {|
  Replicator.mt5_backend_source := Some "A";
  Replicator.mt5_backend_targets := ["T1"; "T2"];
  Replicator.running := running; Replicator.order_queue := [];
  Replicator.processed_orders := ∅;
  Replicator.replication_config :=
    Replicator.set_enabled enabled Replicator.default_config |}.

End MoreScenarios.

(** * Properties *)

(** ** Facts about the numerics *)
Module PyFacts.

Lemma ltb_lt x y : Py.ltb x y = true <-> x < y.
Proof.
  unfold Py.ltb. rewrite negb_true_iff.
  split.
  - intros H. apply Qnot_le_lt. intros Hle.
    apply Qle_bool_iff in Hle. congruence.
  - intros H. destruct (Qle_bool y x) eqn:E; [|reflexivity].
    apply Qle_bool_iff in E. exfalso. apply (Qlt_not_le _ _ H E).
Qed.

Lemma ltb_ge x y : Py.ltb x y = false <-> y <= x.
Proof.
  unfold Py.ltb. rewrite negb_false_iff. apply Qle_bool_iff.
Qed.

Lemma leb_le x y : Py.leb x y = true <-> x <= y.
Proof. apply Qle_bool_iff. Qed.

Lemma leb_gt x y : Py.leb x y = false <-> y < x.
Proof.
  unfold Py.leb. split.
  - intros H. apply Qnot_le_lt. intros Hle. apply Qle_bool_iff in Hle. congruence.
  - intros H. destruct (Qle_bool x y) eqn:E; [|reflexivity].
    apply Qle_bool_iff in E. exfalso. apply (Qlt_not_le _ _ H E).
Qed.

Lemma gtb_gt x y : Py.gtb x y = true <-> y < x.
Proof. apply ltb_lt. Qed.

Lemma gtb_le x y : Py.gtb x y = false <-> x <= y.
Proof. apply ltb_ge. Qed.

Lemma geb_ge x y : Py.geb x y = true <-> y <= x.
Proof. apply leb_le. Qed.

Lemma geb_lt x y : Py.geb x y = false <-> x < y.
Proof. apply leb_gt. Qed.

Lemma eqb_eq x y : Py.eqb x y = true <-> x == y.
Proof. apply Qeq_bool_iff. Qed.

Lemma eqb_neq x y : Py.eqb x y = false <-> ~ x == y.
Proof.
  unfold Py.eqb. split.
  - intros H E. apply Qeq_bool_iff in E. congruence.
  - intros H. destruct (Qeq_bool x y) eqn:E; [|reflexivity].
    apply Qeq_bool_iff in E. contradiction.
Qed.

(** Rounding a number that lies between two integers stays between them. *)
Lemma floor_between (a b : Z) (x : Q) :
  inject_Z a <= x -> x <= inject_Z b ->
  inject_Z a <= Py.floor x /\ Py.floor x <= inject_Z b.
Proof.
  intros Ha Hb. unfold Py.floor. split.
  - rewrite <- Zle_Qle. rewrite <- (Qfloor_Z a). apply Qfloor_resp_le, Ha.
  - rewrite <- Zle_Qle. rewrite <- (Qfloor_Z b). apply Qfloor_resp_le, Hb.
Qed.

Lemma ceil_between (a b : Z) (x : Q) :
  inject_Z a <= x -> x <= inject_Z b ->
  inject_Z a <= Py.ceil x /\ Py.ceil x <= inject_Z b.
Proof.
  intros Ha Hb. unfold Py.ceil. split.
  - rewrite <- Zle_Qle. rewrite <- (Qceiling_Z a). apply Qceiling_resp_le, Ha.
  - rewrite <- Zle_Qle. rewrite <- (Qceiling_Z b). apply Qceiling_resp_le, Hb.
Qed.

Lemma round_cases (x : Q) :
  Py.round x = inject_Z (Qfloor x)
  \/ (Py.round x = inject_Z (Qfloor x + 1) /\ inject_Z (Qfloor x) < x).
Proof.
  unfold Py.round.
  destruct (Py.ltb (x - inject_Z (Qfloor x)) (1 # 2)) eqn:E1; [left; reflexivity|].
  apply ltb_ge in E1.
  assert (Hlt : inject_Z (Qfloor x) < x) by lra.
  destruct (Py.ltb (1 # 2) (x - inject_Z (Qfloor x))); [right; auto|].
  destruct (Z.even (Qfloor x)); [left; reflexivity | right; auto].
Qed.

Lemma round_between (a b : Z) (x : Q) :
  inject_Z a <= x -> x <= inject_Z b ->
  inject_Z a <= Py.round x /\ Py.round x <= inject_Z b.
Proof.
  intros Ha Hb.
  destruct (floor_between a b x Ha Hb) as [Hfa Hfb]. unfold Py.floor in *.
  destruct (round_cases x) as [-> | [-> Hlt]]; [split; assumption|].
  assert (H : inject_Z (Qfloor x) < inject_Z b) by (eapply Qlt_le_trans; eassumption).
  rewrite <- Zlt_Qlt in H. rewrite <- Zle_Qle in Hfa.
  split; rewrite <- Zle_Qle; lia.
Qed.


Lemma ceil_integer x : exists k : Z, Py.ceil x = inject_Z k.
Proof. eexists. reflexivity. Qed.

Lemma round_integer x : exists k : Z, Py.round x = inject_Z k.
Proof.
  destruct (round_cases x) as [-> | [-> _]]; eexists; reflexivity.
Qed.

(** Python's [max] and [min] as a clamp. *)
Lemma clamp_between (lo hi v : Q) :
  lo <= hi ->
  lo <= Py.min (Py.max v lo) hi /\ Py.min (Py.max v lo) hi <= hi.
Proof.
  intros H. unfold Py.min, Py.max.
  destruct (Py.ltb v lo) eqn:E1.
  - destruct (Py.ltb hi lo) eqn:E2.
    + apply ltb_lt in E2. lra.
    + lra.
  - apply ltb_ge in E1.
    destruct (Py.ltb hi v) eqn:E2.
    + lra.
    + apply ltb_ge in E2. lra.
Qed.

Lemma sum_pos (l : list Q) :
  Forall (fun x => 0 < x) l -> l <> [] -> 0 < Py.sum l.
Proof.
  induction 1 as [|x l Hx Hl IH]; [congruence|]. intros _. simpl.
  destruct l as [|y l'].
  - simpl. lra.
  - assert (0 < Py.sum (y :: l')) by (apply IH; discriminate). lra.
Qed.

End PyFacts.

(** ** The risk manager *)
Module RiskManagerProofs.
Import RiskManager.

(** *** Drawdown of an account snapshot *)

Lemma compute_drawdown_pos bal eq :
  0 < bal -> compute_drawdown bal eq = (1 - eq / bal) * 100.
Proof.
  intros H. unfold compute_drawdown.
  destruct (Py.gtb bal 0) eqn:E; [reflexivity|].
  apply PyFacts.gtb_le in E. exfalso. apply (Qlt_not_le _ _ H E).
Qed.

Lemma drawdown_sign bal eq :
  0 < bal -> (0 <= (1 - eq / bal) * 100 <-> eq <= bal).
Proof.
  intros H.
  assert (Hq : eq / bal * bal == eq) by (field; intros E; rewrite E in H; discriminate H).
  remember (eq / bal) as x eqn:Hx. clear Hx.
  split; intros Hd; nra.
Qed.

(** C1 (amended): for every account snapshot taken by [update_account_info]
    with a positive balance, [drawdown_percent] is [(1 - equity/balance) * 100].
    It is non-negative exactly when the equity does not exceed the balance,
    and in that case it equals [max(0, 1 - equity/balance) * 100]. *)
Theorem drawdown_percent_unclamped (t : Terminal) (s : State) (a : Account) :
  t_account_info t = Some a ->
  0 < acc_balance a ->
  exists info,
    update_account_info t s = (set_account_info (Some info) s, true)
    /\ balance info = acc_balance a /\ equity info = acc_equity a
    /\ drawdown_percent info == (1 - acc_equity a / acc_balance a) * 100
    /\ (0 <= drawdown_percent info <-> acc_equity a <= acc_balance a)
    /\ (acc_equity a <= acc_balance a ->
        drawdown_percent info == Qmax 0 (1 - acc_equity a / acc_balance a) * 100).
Proof.
  intros Ht Hb. exists (account_dict a).
  unfold update_account_info. rewrite Ht. simpl.
  rewrite (compute_drawdown_pos _ _ Hb).
  repeat split; try reflexivity.
  - apply drawdown_sign, Hb.
  - apply drawdown_sign, Hb.
  - intros Hle.
    assert (H0 : 0 <= 1 - acc_equity a / acc_balance a).
    { apply (drawdown_sign _ _ Hb) in Hle. lra. }
    rewrite (Q.max_r _ _ H0). reflexivity.
Qed.

Lemma drawdown_percent_unclamped_witness :
  exists info,
    update_account_info Scenarios.terminal_in_loss (init default_config)
    = (set_account_info (Some info) (init default_config), true)
    /\ drawdown_percent info == 5.
Proof.
  destruct (drawdown_percent_unclamped Scenarios.terminal_in_loss
              (init default_config) (Scenarios.account 1000 950))
    as (info & Hu & _ & _ & Hd & _).
  - reflexivity.
  - reflexivity.
  - exists info. split; [exact Hu|]. rewrite Hd. reflexivity.
Defined.

(** C1 as stated fails: with balance 1000 and equity 1100 the snapshot
    carries a drawdown of -10 percent, not [max(0, .) * 100 = 0]. *)
Lemma drawdown_negative_when_equity_exceeds_balance :
  match account_info (update_account_info Scenarios.terminal_in_profit
                        (init default_config)).1 with
  | Some info =>
      0 < balance info
      /\ drawdown_percent info == -10
      /\ drawdown_percent info < 0
      /\ ~ drawdown_percent info == Qmax 0 (1 - equity info / balance info) * 100
  | None => False
  end.
Proof.
  simpl. repeat split.
  intros H. vm_compute in H. discriminate H.
Qed.

(** *** The risk limits *)

Lemma loss_check_no_account row mx : loss_check None row mx = Some false.
Proof. destruct row; reflexivity. Qed.

(** The loss check raises exactly on a loss met with a zero balance. *)
Lemma loss_check_raises a row mx :
  loss_check (Some a) row mx = None
  <-> exists r, row = Some r /\ st_profit r < 0 /\ balance a == 0.
Proof.
  unfold loss_check. destruct row as [r|].
  - destruct (Py.ltb (st_profit r) 0) eqn:El.
    + destruct (Py.eqb (balance a) 0) eqn:Ee.
      * split; [|reflexivity]. intros _. exists r.
        apply PyFacts.ltb_lt in El. apply PyFacts.eqb_eq in Ee. auto.
      * split; [discriminate|]. intros (r' & Hr & _ & Hb).
        apply PyFacts.eqb_neq in Ee. contradiction.
    + split; [discriminate|]. intros (r' & Hr & Hp & _).
      injection Hr as <-. apply PyFacts.ltb_ge in El.
      exfalso. apply (Qlt_not_le _ _ Hp El).
  - split; [discriminate|]. intros (r & Hr & _). discriminate Hr.
Qed.

(** What the flag of a loss check means when the check does not raise. *)
Lemma loss_check_flag a row mx b :
  loss_check (Some a) row mx = Some b ->
  (b = true <->
   exists r, row = Some r /\ st_profit r < 0
             /\ mx < Qabs (st_profit r) / balance a * 100).
Proof.
  unfold loss_check. destruct row as [r|].
  - destruct (Py.ltb (st_profit r) 0) eqn:El.
    + destruct (Py.eqb (balance a) 0); [discriminate|].
      intros [= <-]. apply PyFacts.ltb_lt in El. rewrite PyFacts.gtb_gt.
      split.
      * intros H. exists r. auto.
      * intros (r' & [= <-] & _ & H). exact H.
    + intros [= <-]. split; [discriminate|].
      intros (r' & [= <-] & Hp & _). apply PyFacts.ltb_ge in El.
      exfalso. apply (Qlt_not_le _ _ Hp El).
  - intros [= <-]. split; [discriminate|]. intros (r & Hr & _). discriminate Hr.
Qed.

Lemma loss_check_total a row mx :
  ~ balance a == 0 -> exists b, loss_check (Some a) row mx = Some b.
Proof.
  intros Hb. destruct (loss_check (Some a) row mx) as [b|] eqn:E; [eauto|].
  apply loss_check_raises in E. destruct E as (r & _ & _ & H). contradiction.
Qed.

(** When no loss check raises, every one of the seven checks is evaluated on
    its own data, every flag is written, and the answer is the conjunction
    of the seven. *)
Lemma check_risk_limits_evaluates_all (clk : Clock) (t : Terminal) (s0 : State) :
  let s := (update_positions t (update_account_info t s0).1).1 in
  let cfg := risk_limits_cfg (config s) in
  (forall a, account_info s = Some a -> ~ balance a == 0) ->
  exists d w m,
    loss_check (account_info s) (daily_stats s !! today clk)
               (max_daily_loss_percent cfg) = Some d
    /\ loss_check (account_info s) (weekly_stats s !! (now_year clk, now_week clk))
                  (max_weekly_loss_percent cfg) = Some w
    /\ loss_check (account_info s) (monthly_stats s !! (now_year clk, now_month clk))
                  (max_monthly_loss_percent cfg) = Some m
    /\ let dd := match account_info s with
                 | Some a => Py.gtb (drawdown_percent a) (max_drawdown_percent cfg)
                 | None => false
                 end in
       let mp := (max_open_positions cfg <=? Z.of_nat (size (positions s)))%Z in
       let sym := symbol_flags (max_positions_per_symbol cfg) (position_values s) in
       let corr := if cr_enabled (correlation_risk (config s))
                   then _check_correlation_risk t s else false in
       check_risk_limits clk t s0
       = (set_risk_limits (limits dd mp d w m sym corr) s,
          negb dd && negb mp && negb d && negb w && negb m
          && map_is_empty sym && negb corr).
Proof.
  intros s cfg Hb.
  assert (Htot : forall row mx, exists b, loss_check (account_info s) row mx = Some b).
  { intros row mx. destruct (account_info s) as [a|] eqn:Ea.
    - apply loss_check_total. apply Hb. reflexivity.
    - exists false. apply loss_check_no_account. }
  destruct (Htot (daily_stats s !! today clk) (max_daily_loss_percent cfg)) as [d Hd].
  destruct (Htot (weekly_stats s !! (now_year clk, now_week clk))
                 (max_weekly_loss_percent cfg)) as [w Hw].
  destruct (Htot (monthly_stats s !! (now_year clk, now_month clk))
                 (max_monthly_loss_percent cfg)) as [m Hm].
  exists d, w, m. repeat split; try assumption.
  unfold check_risk_limits. fold s. fold cfg.
  rewrite Hd, Hw, Hm. reflexivity.
Qed.

(** The example of the specification: a loss of 4% today against a daily
    limit of 3% sets the daily flag and forbids trading, and the weekly and
    monthly flags come from the week's and the month's own figures. *)
Example daily_breach_only :
  let '(s, allowed) :=
    check_risk_limits Scenarios.clock Scenarios.terminal_1000
                      (Scenarios.manager_with_result (-40)) in
  allowed = false
  /\ risk_limits s = limits false false true false false ∅ false.
Proof. vm_compute. split; reflexivity. Qed.

Example daily_and_weekly_breach :
  let '(s, allowed) :=
    check_risk_limits Scenarios.clock Scenarios.terminal_1000
                      (Scenarios.manager_with_result (-80)) in
  allowed = false
  /\ risk_limits s = limits false false true true false ∅ false.
Proof. vm_compute. split; reflexivity. Qed.

(** C3 (code defect): on an account whose balance is zero the daily loss
    check divides by the balance, the function leaves through its handler
    with the answer [False], and the checks after it are never evaluated:
    no loss flag is written and the per-symbol flag of EURUSD, which check 6
    would set for the two open EURUSD positions, is missing. *)
Theorem check_risk_limits_aborts_on_zero_balance :
  let '(s, allowed) :=
    check_risk_limits Scenarios.clock Scenarios.terminal_broke
                      (Scenarios.manager_with_result (-50)) in
  allowed = false
  /\ risk_limits s = limits false false false false false ∅ false
  /\ symbol_flags (max_positions_per_symbol (risk_limits_cfg (config s)))
                  (position_values s) !! "EURUSD" = Some true.
Proof. vm_compute. repeat split; reflexivity. Qed.

(** *** Position sizing *)

Lemma clamp_finite (lo hi v : Q) :
  Py.fmin (Py.fmax (Py.Fin v) (Py.Fin lo)) (Py.Fin hi)
  = Py.Fin (Py.min (Py.max v lo) hi).
Proof.
  unfold Py.fmin, Py.fmax, Py.fgtb, Py.min, Py.max. simpl.
  destruct (Py.ltb v lo); simpl; destruct (Py.ltb hi _); reflexivity.
Qed.

(** The gate and the sizing models leave the configuration alone. *)
Lemma check_risk_limits_config clk t s :
  config (check_risk_limits clk t s).1 = config s.
Proof.
  unfold check_risk_limits, update_account_info, update_positions.
  destruct (t_account_info t), (t_positions_get t); simpl;
    repeat match goal with |- context [match ?x with _ => _ end] => destruct x end;
    reflexivity.
Qed.

Lemma check_trading_allowed_config clk t s sym :
  config (check_trading_allowed clk t s sym).1 = config s.
Proof.
  unfold check_trading_allowed.
  pose proof (check_risk_limits_config clk t s) as H.
  destruct (check_risk_limits clk t s) as [s' ok]. simpl in H.
  repeat match goal with |- context [if ?x then _ else _] => destruct x end;
    exact H.
Qed.

Lemma ensure_account_info_config t s : config (ensure_account_info t s) = config s.
Proof.
  unfold ensure_account_info, update_account_info.
  destruct (account_info s); [reflexivity|].
  destruct (t_account_info t); reflexivity.
Qed.

(** The guarded division of the risk, Kelly and volatility models never
    leaves the finite numbers when the amount at risk is finite. *)
Lemma volume_for_risk_finite s (r : Q) (pips : Py.F) (pv : Q) :
  exists q, volume_for_risk s (Py.Fin r) pips pv = Py.Fin q.
Proof.
  unfold volume_for_risk, fixed_lot.
  destruct (Py.fgtb pips (Py.Fin 0) && Py.gtb pv 0) eqn:E; [|eauto].
  apply andb_true_iff in E as [E1 E2]. apply PyFacts.gtb_gt in E2.
  destruct pips as [p| | |]; simpl in E1; try discriminate E1.
  - apply PyFacts.ltb_lt in E1. simpl.
    destruct (Py.eqb (p * pv) 0) eqn:E3; [|eauto].
    apply PyFacts.eqb_eq in E3. exfalso. nra.
  - simpl. unfold Py.sgn.
    apply PyFacts.ltb_lt in E2. rewrite E2. simpl. eauto.
Qed.

Lemma risk_based_finite t s sym action pips :
  exists q, (_risk_based_position_size t s sym action pips).2 = Py.Fin q.
Proof.
  unfold _risk_based_position_size.
  destruct (account_info (ensure_account_info t s)); [|simpl; unfold fixed_lot; eauto].
  destruct (t_symbol_info t sym); [|simpl; unfold fixed_lot; eauto].
  simpl. apply volume_for_risk_finite.
Qed.

Lemma mean_pos (l : list Q) :
  Forall (fun x => 0 < x) l -> l <> [] -> 0 < mean l.
Proof.
  intros Hf Hne. unfold mean.
  apply Qlt_shift_div_l.
  - destruct l; [congruence|]. simpl length.
    replace 0 with (inject_Z 0) by reflexivity. rewrite <- Zlt_Qlt. lia.
  - rewrite Qmult_0_l. apply PyFacts.sum_pos; assumption.
Qed.

Lemma kelly_odds_pos (h : list Trade) : 0 < kelly_odds h.
Proof.
  unfold kelly_odds.
  set (winning := List.filter (fun p => Py.gtb p 0) (map tr_profit h)).
  set (avg_loss := if (0 <? _)%nat then _ else 1).
  assert (Hw : 0 < (if (0 <? length winning)%nat then mean winning else 1)).
  { destruct (0 <? length winning)%nat eqn:E; [|reflexivity].
    apply mean_pos.
    - apply List.Forall_forall. intros x Hx. apply List.filter_In in Hx as [_ Hx].
      apply PyFacts.gtb_gt, Hx.
    - intros Hnil. rewrite Hnil in E. discriminate E. }
  destruct (Py.gtb avg_loss 0) eqn:E; [|reflexivity].
  apply PyFacts.gtb_gt in E.
  apply Qlt_shift_div_l; [exact E|]. rewrite Qmult_0_l. exact Hw.
Qed.

Lemma kelly_finite t s sym action pips :
  exists q, (_kelly_criterion_position_size t s sym action pips).2 = Py.Fin q.
Proof.
  unfold _kelly_criterion_position_size.
  destruct (length (trade_history s) <? 10)%nat; [apply risk_based_finite|].
  pose proof (kelly_odds_pos (trade_history s)) as Ho.
  simpl Py.fdiv.
  destruct (Py.eqb (kelly_odds (trade_history s)) 0) eqn:E.
  { apply PyFacts.eqb_eq in E. rewrite E in Ho. discriminate Ho. }
  simpl Py.fmul.
  destruct (account_info (ensure_account_info t s)); [|simpl; unfold fixed_lot; eauto].
  destruct (t_symbol_info t sym); [|simpl; unfold fixed_lot; eauto].
  simpl.
  match goal with
  | |- context [Py.fmax (Py.Fin 0) (Py.Fin ?x)] =>
      assert (Hk : exists k, Py.fmax (Py.Fin 0) (Py.Fin x) = Py.Fin k)
  end.
  { unfold Py.fmax, Py.fgtb. simpl. destruct (Py.ltb 0 _); eauto. }
  destruct Hk as [k ->]. simpl. apply volume_for_risk_finite.
Qed.

Lemma martingale_finite t s sym action pips :
  exists q, (_martingale_position_size t s sym action pips).2 = Py.Fin q.
Proof.
  unfold _martingale_position_size, fixed_lot.
  destruct (last_trade sym (trade_history s)) as [tr|]; [|simpl; eauto].
  destruct (Py.leb (tr_profit tr) 0); simpl; eauto.
Qed.

Lemma anti_martingale_finite t s sym action pips :
  exists q, (_anti_martingale_position_size t s sym action pips).2 = Py.Fin q.
Proof.
  unfold _anti_martingale_position_size, fixed_lot.
  destruct (last_trade sym (trade_history s)) as [tr|]; [|simpl; eauto].
  destruct (Py.gtb (tr_profit tr) 0); simpl; eauto.
Qed.

Lemma equity_based_finite t s sym action pips :
  exists q, (_equity_based_position_size t s sym action pips).2 = Py.Fin q.
Proof.
  unfold _equity_based_position_size, fixed_lot.
  repeat match goal with
         | |- context [match ?x with _ => _ end] => destruct x
         end; simpl; eauto.
Qed.

Lemma sgn_nonzero (q : Q) : ~ q == 0 -> Py.sgn q = 1%Z \/ Py.sgn q = (-1)%Z.
Proof.
  intros H. unfold Py.sgn.
  destruct (Py.ltb 0 q) eqn:E1; [auto|].
  destruct (Py.ltb q 0) eqn:E2; [auto|].
  apply PyFacts.ltb_ge in E1, E2. exfalso. apply H. lra.
Qed.

Lemma volatility_based_finite t s sym action pips :
  ~ volatility_factor (position_sizing (config s)) == 0 ->
  exists q, (_volatility_based_position_size t s sym action pips).2 = Py.Fin q.
Proof.
  intros Hvf. unfold _volatility_based_position_size.
  destruct (account_info (ensure_account_info t s)) as [a|];
    [|simpl; unfold fixed_lot; eauto].
  destruct (t_copy_rates_d1 t sym _) as [rates|]; [|apply risk_based_finite].
  destruct (length rates <? _)%nat; [apply risk_based_finite|].
  destruct (t_symbol_info t sym) as [info|]; [|simpl; unfold fixed_lot; eauto].
  destruct (Py.fgtb _ (Py.Fin 0) && Py.gtb (pip_value info) 0) eqn:E;
    [|simpl; unfold fixed_lot; eauto].
  apply andb_true_iff in E as [E1 E2]. apply PyFacts.gtb_gt in E2.
  set (vf := volatility_factor (position_sizing (config s))) in *.
  destruct (atr_pips rates _ info) as [p| | |]; simpl in E1; try discriminate E1.
  - apply PyFacts.ltb_lt in E1. simpl.
    destruct (Py.eqb (p * vf * pip_value info) 0) eqn:E3; [|eauto].
    apply PyFacts.eqb_eq in E3. exfalso.
    assert (Hp : ~ p * pip_value info == 0) by nra.
    apply Hvf. apply (Qmult_integral_l (p * pip_value info)); [exact Hp|].
    rewrite <- E3. ring.
  - simpl. apply PyFacts.ltb_lt in E2.
    assert (Hs : Py.sgn (pip_value info) = 1%Z) by (unfold Py.sgn; rewrite E2; reflexivity).
    destruct (sgn_nonzero vf Hvf) as [-> | ->]; simpl; rewrite Hs; simpl; eauto.
Qed.

Lemma sizing_model_finite method t s sym action pips :
  ~ volatility_factor (position_sizing (config s)) == 0 ->
  exists q, (sizing_model method t s sym action pips).2 = Py.Fin q.
Proof.
  intros Hvf. unfold sizing_model.
  repeat match goal with |- context [if ?x then _ else _] => destruct x end;
    first [ apply risk_based_finite | apply equity_based_finite
          | apply kelly_finite | apply martingale_finite
          | apply anti_martingale_finite | apply (volatility_based_finite _ _ _ _ _ Hvf)
          | (simpl; unfold fixed_lot; eauto) ].
Qed.

(** With the limit of positions per symbol reached, [check_trading_allowed]
    refuses and [calculate_position_size] answers 0 (lines 888-891), a volume
    under the smallest one of the symbol. *)
Lemma position_size_zero_when_trading_not_allowed :
  Scenarios.terminal_two_positions.(t_symbol_info) "EURUSD" = Some Scenarios.eurusd
  /\ (calculate_position_size Scenarios.clock Scenarios.terminal_two_positions
        (init default_config) "EURUSD" "BUY" (Some 20)).2 = Py.Fin 0
  /\ ~ volume_min Scenarios.eurusd <= 0.
Proof.
  split; [reflexivity|]. split; [vm_compute; reflexivity|].
  intros H. apply H. reflexivity.
Qed.

(** C2 (code defect): the rounding to the volume step comes after the clamp
    to the limits of the symbol and takes the floor of a float quotient, so
    the answer can leave the limits. On a symbol whose smallest volume is 0.3
    lots in steps of 0.1 lots, with the default configuration (method "risk",
    rounding "down"), a balance of 1000 and a stop of 20 pips, trading is
    allowed, the risk model asks for less than the smallest volume, the clamp
    raises that to 0.3 lots, the quotient [0.3 / 0.1] is the double under 3,
    and the answer is 0.2 lots: a whole step under the smallest volume. *)
Theorem position_size_falls_below_volume_min :
  let t := Scenarios.terminal_coarse in
  let info := Scenarios.coarse_symbol in
  let s := (check_trading_allowed Scenarios.clock t (init default_config) "EURUSD").1 in
  (check_trading_allowed Scenarios.clock t (init default_config) "EURUSD").2 = true
  /\ t_symbol_info t "EURUSD" = Some info
  /\ ps_method (position_sizing (config s)) = "risk"
  /\ position_size_rounding (position_sizing (config s)) = "down"
  /\ (exists v, (sizing_model "risk" t s "EURUSD" "BUY" (Py.Fin 20)).2 = Py.Fin v
                /\ v < volume_min info)
  /\ volume_min info <= volume_max info
  /\ Py.fl (volume_min info / volume_step info) < 3
  /\ (calculate_position_size Scenarios.clock t (init default_config)
        "EURUSD" "BUY" (Some 20)).2 = Py.Fin (Py.fl 0.2)
  /\ Py.fl 0.2 < volume_min info.
Proof.
  vm_compute.
  repeat match goal with
         | |- _ /\ _ => split
         | |- exists _, _ => eexists
         end;
    first [reflexivity | discriminate].
Qed.

(** *** Break-even and trailing stop *)

Ltac py_bool :=
  repeat match goal with
  | H : (_ && _) = true |- _ => apply andb_true_iff in H; destruct H
  | H : (_ || _) = false |- _ => apply orb_false_iff in H; destruct H
  | H : (_ && _) = false |- _ => apply andb_false_iff in H; destruct H
  | H : (_ || _) = true |- _ => apply orb_true_iff in H; destruct H
  | H : negb _ = true |- _ => apply negb_true_iff in H
  | H : negb _ = false |- _ => apply negb_false_iff in H
  | H : Py.ltb _ _ = true |- _ => apply PyFacts.ltb_lt in H
  | H : Py.ltb _ _ = false |- _ => apply PyFacts.ltb_ge in H
  | H : Py.gtb _ _ = true |- _ => apply PyFacts.gtb_gt in H
  | H : Py.gtb _ _ = false |- _ => apply PyFacts.gtb_le in H
  | H : Py.geb _ _ = true |- _ => apply PyFacts.geb_ge in H
  | H : Py.geb _ _ = false |- _ => apply PyFacts.geb_lt in H
  | H : Py.leb _ _ = true |- _ => apply PyFacts.leb_le in H
  | H : Py.leb _ _ = false |- _ => apply PyFacts.leb_gt in H
  | H : Py.eqb _ _ = true |- _ => apply PyFacts.eqb_eq in H
  | H : Py.eqb _ _ = false |- _ => apply PyFacts.eqb_neq in H
  | H : (_ =? _)%Z = true |- _ => apply Z.eqb_eq in H
  | H : (_ =? _)%Z = false |- _ => apply Z.eqb_neq in H
  end.

Ltac case_if :=
  match goal with
  | |- context [if ?b then _ else _] => destruct b eqn:?
  end.

Ltac case_if_in H :=
  match type of H with
  | context [if ?b then _ else _] => destruct b eqn:?
  end.

(** Closes a goal whose hypotheses, read as inequalities, contradict. *)
Ltac py_absurd :=
  py_bool; unfold POSITION_TYPE_BUY, POSITION_TYPE_SELL in *;
  first [ congruence | contradiction | exfalso; lra | exfalso; lia ].

Lemma break_even_request_better c pt p pips new_sl :
  break_even_request c pt p pips = Some new_sl -> better_stop p new_sl.
Proof.
  unfold break_even_request, better_stop.
  remember (be_offset_pips c * 10 * pt) as off eqn:Hoff. clear Hoff.
  intros H. repeat case_if_in H; try discriminate H; injection H as <-; py_bool;
    solve [ left; split; [assumption | lra]
          | right; split; [assumption | lra]
          | py_absurd ].
Qed.

Lemma trailing_request_better c pt p pips new_sl :
  0 <= ts_step_pips c * 10 * pt ->
  trailing_request c pt p pips = Some new_sl -> better_stop p new_sl.
Proof.
  intros Hstep. unfold trailing_request, better_stop.
  remember (ts_step_pips c * 10 * pt) as d eqn:Hd. clear Hd.
  remember (ts_distance_pips c * 10 * pt) as dist eqn:Hdist. clear Hdist.
  intros H. repeat case_if_in H; try discriminate H; injection H as <-; py_bool;
    solve [ left; split; [assumption | lra]
          | right; split; [assumption | lra]
          | py_absurd ].
Qed.

(** Once the stop sits where the break-even block put it, the block asks for
    nothing. *)
Lemma break_even_request_settles c pt p pips new_sl new_tp :
  break_even_request c pt p pips = Some new_sl ->
  break_even_request c pt (set_sl_tp new_sl new_tp p) pips = None.
Proof.
  unfold break_even_request. simpl.
  remember (be_offset_pips c * 10 * pt) as off eqn:Hoff. clear Hoff.
  intros H. repeat case_if_in H; try discriminate H; injection H as <-;
    repeat case_if; try reflexivity; py_absurd.
Qed.

(** Once the stop sits where the trailing block put it, the block asks for
    nothing at the same price. *)
Lemma trailing_request_settles c pt p pips new_sl new_tp :
  0 <= ts_step_pips c * 10 * pt ->
  trailing_request c pt p pips = Some new_sl ->
  trailing_request c pt (set_sl_tp new_sl new_tp p) pips = None.
Proof.
  intros Hstep. unfold trailing_request. simpl.
  remember (ts_step_pips c * 10 * pt) as d eqn:Hd. clear Hd.
  remember (ts_distance_pips c * 10 * pt) as dist eqn:Hdist. clear Hdist.
  intros H. repeat case_if_in H; try discriminate H; injection H as <-;
    repeat case_if; try reflexivity; py_absurd.
Qed.

(** A stop that the trailing block has moved, while the break-even block had
    nothing to ask, leaves the break-even block with nothing to ask. *)
Lemma break_even_quiet_after_trailing c c' pt p pips new_sl new_tp :
  0 <= ts_step_pips c' * 10 * pt ->
  break_even_request c pt p pips = None ->
  trailing_request c' pt p pips = Some new_sl ->
  break_even_request c pt (set_sl_tp new_sl new_tp p) pips = None.
Proof.
  intros Hstep Hbe Htr. revert Hbe Htr.
  unfold break_even_request, trailing_request. simpl.
  remember (ts_step_pips c' * 10 * pt) as d eqn:Hd. clear Hd.
  remember (ts_distance_pips c' * 10 * pt) as dist eqn:Hdist. clear Hdist.
  remember (be_offset_pips c * 10 * pt) as off eqn:Hoff. clear Hoff.
  intros Hbe Htr.
  repeat case_if_in Htr; try discriminate Htr; injection Htr as <-;
    repeat case_if_in Hbe; try discriminate Hbe;
    repeat case_if; try reflexivity; py_absurd.
Qed.

Lemma partial_close_position_events t s k level pct :
  Forall (fun e => is_stop_event e = false) (_partial_close_position t s k level pct).2.
Proof.
  unfold _partial_close_position.
  destruct (positions s !! k) as [p|]; [|constructor].
  destruct (partial_close_volume t p pct) as [vol|]; [|constructor].
  destruct (order_send _ t) as [[] t']; simpl; repeat constructor.
Qed.

Lemma partial_close_loop_events levels : forall t s k p pips,
  Forall (fun e => is_stop_event e = false) (partial_close_loop t s k p pips levels).2.
Proof.
  induction levels as [|level rest IH]; intros t s k p pips; simpl; [constructor|].
  destruct (Py.geb pips (profit_pips level) && _); [|apply IH].
  pose proof (partial_close_position_events t s k (profit_pips level)
                (close_percent level)) as Hev.
  destruct (_partial_close_position t s k _ _) as [[[ok s'] t'] evs]. simpl in Hev.
  destruct ok.
  - destruct (positions s' !! k); exact Hev.
  - specialize (IH t' s' k p pips).
    destruct (partial_close_loop t' s' k p pips rest) as [[[ok2 s2] t2] evs2].
    simpl in *. apply Forall_app. split; assumption.
Qed.

Lemma manage_position_unfold t s k p info :
  positions s !! k = Some p ->
  t_symbol_info t (symbol p) = Some info ->
  0 < point info ->
  manage_position t s k =
    let pt := point info in
    let pips := profit_in_pips p pt in
    let be := break_even_request (break_even (config s)) pt p pips in
    let '(be_done, s1, t1) :=
      match be with
      | Some new_sl => _modify_position t s k new_sl (tp p)
      | None => (false, s, t)
      end in
    let be_evs :=
      match be with
      | Some new_sl => [EvBreakEven k new_sl be_done]
      | None => []
      end in
    if be_done then (true, s1, t1, be_evs) else
    let tr := trailing_request (trailing_stop (config s)) pt p pips in
    let '(tr_done, s2, t2) :=
      match tr with
      | Some new_sl => _modify_position t1 s1 k new_sl (tp p)
      | None => (false, s1, t1)
      end in
    let tr_evs :=
      match tr with
      | Some new_sl => [EvTrailing k new_sl tr_done]
      | None => []
      end in
    if tr_done then (true, s2, t2, be_evs ++ tr_evs) else
    if pc_enabled (partial_close (config s)) then
      let '(ok, s3, t3, evs) :=
        partial_close_loop t2 s2 k p pips (pc_levels (partial_close (config s))) in
      (ok, s3, t3, be_evs ++ tr_evs ++ evs)
    else (false, s2, t2, be_evs ++ tr_evs).
Proof.
  intros Hp Hinfo Hpt. unfold manage_position. rewrite Hp, Hinfo.
  destruct (Py.eqb (10 * point info) 0) eqn:E; [|reflexivity].
  apply PyFacts.eqb_eq in E. exfalso. lra.
Qed.

(** What an answered stop modification leaves behind. *)
Lemma modify_position_done t s k p new_sl new_tp s' t' :
  positions s !! k = Some p ->
  _modify_position t s k new_sl new_tp = (true, s', t') ->
  positions s' !! k = Some (set_sl_tp new_sl new_tp p)
  /\ config s' = config s
  /\ t_symbol_info t' = t_symbol_info t.
Proof.
  intros Hp. unfold _modify_position, order_send.
  destruct (t_accepts t _); [|discriminate].
  intros [= <- <-]. simpl. rewrite lookup_alter_eq, Hp. auto.
Qed.

Lemma modify_position_refused t s k new_sl new_tp s' t' :
  _modify_position t s k new_sl new_tp = (false, s', t') -> s' = s /\ t' = t.
Proof.
  unfold _modify_position, order_send.
  destruct (t_accepts t _); [discriminate|]. intros [= <- <-]. auto.
Qed.

Lemma stop_event_not_break_even (evs : list Event) :
  Forall (fun e => is_stop_event e = false) evs ->
  Forall (fun e => is_break_even e = false) evs.
Proof.
  intros Hall. eapply Forall_impl; [exact Hall|].
  intros [] H; simpl in *; congruence.
Qed.

(** With nothing to ask in either block, [manage_position] sends no stop
    modification. *)
Lemma quiet_blocks_send_nothing t s k p info :
  positions s !! k = Some p ->
  t_symbol_info t (symbol p) = Some info ->
  0 < point info ->
  break_even_request (break_even (config s)) (point info) p
    (profit_in_pips p (point info)) = None ->
  trailing_request (trailing_stop (config s)) (point info) p
    (profit_in_pips p (point info)) = None ->
  Forall (fun e => is_stop_event e = false) (manage_position t s k).2.
Proof.
  intros Hp Hinfo Hpt Hbe Htr.
  rewrite (manage_position_unfold _ _ _ _ _ Hp Hinfo Hpt). cbv zeta.
  rewrite Hbe, Htr. simpl.
  destruct (pc_enabled _); [|constructor].
  pose proof (partial_close_loop_events (pc_levels (partial_close (config s)))
                t s k p (profit_in_pips p (point info))) as H.
  destruct (partial_close_loop _ _ _ _ _ _) as [[[ok s3] t3] evs]. exact H.
Qed.

(** With nothing to ask in the break-even block, [manage_position] sends no
    break-even modification. *)
Lemma quiet_break_even_sends_nothing t s k p info :
  positions s !! k = Some p ->
  t_symbol_info t (symbol p) = Some info ->
  0 < point info ->
  break_even_request (break_even (config s)) (point info) p
    (profit_in_pips p (point info)) = None ->
  Forall (fun e => is_break_even e = false) (manage_position t s k).2.
Proof.
  intros Hp Hinfo Hpt Hbe.
  rewrite (manage_position_unfold _ _ _ _ _ Hp Hinfo Hpt). cbv zeta.
  rewrite Hbe.
  destruct (trailing_request _ _ _ _) as [y|].
  - destruct (_modify_position t s k y (tp p)) as [[[] s2] t2]; simpl.
    + repeat constructor.
    + destruct (pc_enabled _); [|repeat constructor].
      pose proof (partial_close_loop_events (pc_levels (partial_close (config s)))
                    t2 s2 k p (profit_in_pips p (point info))) as H.
      destruct (partial_close_loop _ _ _ _ _ _) as [[[ok s3] t3] evs]. simpl.
      constructor; [reflexivity|]. apply stop_event_not_break_even, H.
  - simpl. destruct (pc_enabled _); [|constructor].
    pose proof (partial_close_loop_events (pc_levels (partial_close (config s)))
                  t s k p (profit_in_pips p (point info))) as H.
    destruct (partial_close_loop _ _ _ _ _ _) as [[[ok s3] t3] evs]. simpl.
    apply stop_event_not_break_even, H.
Qed.

Lemma stop_event_ok_partial k p s1 evs :
  Forall (fun e => is_stop_event e = false) evs -> Forall (stop_event_ok k p s1) evs.
Proof.
  intros Hall. eapply Forall_impl; [exact Hall|].
  intros [] H; simpl in *; try discriminate H. exact I.
Qed.

Ltac stop_event :=
  unfold stop_event_ok; split; [reflexivity | split; [assumption |]];
  first [ let H := fresh in intros H; discriminate H | intros _; assumption ].

Ltac stop_events :=
  repeat match goal with
         | |- Forall _ (_ :: _) => constructor; [stop_event|]
         | |- Forall _ [] => constructor
         end.

Lemma manage_position_stop_events t s k p info :
  positions s !! k = Some p ->
  t_symbol_info t (symbol p) = Some info ->
  0 < point info ->
  0 <= ts_step_pips (trailing_stop (config s)) ->
  Forall (stop_event_ok k p (manage_position t s k).1.1.2) (manage_position t s k).2.
Proof.
  intros Hp Hinfo Hpt Hstep.
  assert (Hd : 0 <= ts_step_pips (trailing_stop (config s)) * 10 * point info) by nra.
  assert (Hdone : forall t0 z s' t', _modify_position t0 s k z (tp p) = (true, s', t') ->
                  sl <$> positions s' !! k = Some z).
  { intros t0 z s' t' Hm.
    destruct (modify_position_done _ _ _ _ _ _ _ _ Hp Hm) as (Hp' & _ & _).
    rewrite Hp'. reflexivity. }
  assert (Hloop : forall t0 s3 evs ok t3,
            partial_close_loop t0 s k p (profit_in_pips p (point info))
              (pc_levels (partial_close (config s))) = (ok, s3, t3, evs) ->
            Forall (stop_event_ok k p s3) evs).
  { intros t0 s3 evs ok t3 Hl. apply stop_event_ok_partial.
    pose proof (partial_close_loop_events (pc_levels (partial_close (config s)))
                  t0 s k p (profit_in_pips p (point info))) as H.
    rewrite Hl in H. exact H. }
  rewrite (manage_position_unfold _ _ _ _ _ Hp Hinfo Hpt). cbv zeta.
  destruct (break_even_request _ _ _ _) as [x|] eqn:Hbe;
    [pose proof (break_even_request_better _ _ _ _ _ Hbe) as Hx;
     destruct (_modify_position t s k x (tp p)) as [[[] s1] t1] eqn:Hm1;
     [ pose proof (Hdone _ _ _ _ Hm1); cbn [fst snd]; solve [stop_events]
     | apply modify_position_refused in Hm1 as [-> ->] ] |];
    (destruct (trailing_request _ _ _ _) as [y|] eqn:Htr;
     [pose proof (trailing_request_better _ _ _ _ _ Hd Htr) as Hy;
      destruct (_modify_position t s k y (tp p)) as [[[] s2] t2] eqn:Hm2;
      [ pose proof (Hdone _ _ _ _ Hm2); cbn [fst snd app]; solve [stop_events]
      | apply modify_position_refused in Hm2 as [-> ->] ] |]);
    (destruct (pc_enabled _);
     [ destruct (partial_close_loop _ _ _ _ _ _) as [[[ok s3] t3] evs] eqn:Hl;
       pose proof (Hloop _ _ _ _ _ Hl); cbn [fst snd app];
       solve [stop_events; assumption]
     | cbn [fst snd app]; solve [stop_events] ]).
Qed.

(** A break-even request made after the trailing block has moved the stop is
    one that the break-even block already made before the move. *)
Lemma break_even_request_repeats c c' pt p pips new_sl new_tp b :
  0 <= ts_step_pips c' * 10 * pt ->
  trailing_request c' pt p pips = Some new_sl ->
  break_even_request c pt (set_sl_tp new_sl new_tp p) pips = Some b ->
  break_even_request c pt p pips = Some b.
Proof.
  intros Hstep Htr Hbe. revert Htr Hbe.
  unfold break_even_request, trailing_request. simpl.
  remember (ts_step_pips c' * 10 * pt) as d eqn:Hd. clear Hd.
  remember (ts_distance_pips c' * 10 * pt) as dist eqn:Hdist. clear Hdist.
  remember (be_offset_pips c * 10 * pt) as off eqn:Hoff. clear Hoff.
  intros Htr Hbe.
  repeat case_if_in Htr; try discriminate Htr; injection Htr as <-;
    repeat case_if_in Hbe; try discriminate Hbe; injection Hbe as <-;
    repeat case_if; try reflexivity; py_absurd.
Qed.

Lemma no_stop_event_in (evs : list Event) (e : Event) :
  Forall (fun e => is_stop_event e = false) evs -> In e evs -> is_stop_event e = false.
Proof.
  intros Hall Hin. rewrite Forall_forall in Hall. apply Hall.
  apply list_elem_of_In. exact Hin.
Qed.

(** How a run that holds an answered stop modification came about. *)
Lemma answered_stop_event_run t s k p info :
  positions s !! k = Some p ->
  t_symbol_info t (symbol p) = Some info ->
  0 < point info ->
  let pips := profit_in_pips p (point info) in
  let be := break_even_request (break_even (config s)) (point info) p pips in
  let tr := trailing_request (trailing_stop (config s)) (point info) p pips in
  let s1 := (manage_position t s k).1.1.2 in
  let t1 := (manage_position t s k).1.2 in
  let evs1 := (manage_position t s k).2 in
  (forall x, In (EvBreakEven k x true) evs1 ->
     be = Some x /\ _modify_position t s k x (tp p) = (true, s1, t1))
  /\ (forall x, In (EvTrailing k x true) evs1 ->
     tr = Some x /\ _modify_position t s k x (tp p) = (true, s1, t1)
     /\ match be with
        | Some b => In (EvBreakEven k b false) evs1
        | None => True
        end).
Proof.
  intros Hp Hinfo Hpt.
  rewrite (manage_position_unfold _ _ _ _ _ Hp Hinfo Hpt). cbv zeta.
  assert (Hloop : forall t0 s3 evs ok t3 e,
            partial_close_loop t0 s k p (profit_in_pips p (point info))
              (pc_levels (partial_close (config s))) = (ok, s3, t3, evs) ->
            In e evs -> is_stop_event e = false).
  { intros t0 s3 evs ok t3 e Hl. apply no_stop_event_in.
    pose proof (partial_close_loop_events (pc_levels (partial_close (config s)))
                  t0 s k p (profit_in_pips p (point info))) as H.
    rewrite Hl in H. exact H. }
  destruct (break_even_request _ _ _ _) as [x|] eqn:Hbe;
    [destruct (_modify_position t s k x (tp p)) as [[[] s1] t1] eqn:Hm1;
     [ cbn [fst snd]; split; intros z Hin; simpl in Hin;
       destruct Hin as [Hin|[]]; [injection Hin as <-; auto | discriminate Hin]
     | apply modify_position_refused in Hm1 as [-> ->] ] |];
    (destruct (trailing_request _ _ _ _) as [y|] eqn:Htr;
     [destruct (_modify_position t s k y (tp p)) as [[[] s2] t2] eqn:Hm2;
      [ cbn [fst snd app]; split; intros z Hin; simpl in Hin;
        repeat (destruct Hin as [Hin|Hin]; [try discriminate Hin|]);
        try contradiction; try (injection Hin as <-); simpl; auto
      | apply modify_position_refused in Hm2 as [-> ->] ] |]);
    (destruct (pc_enabled _);
     [ destruct (partial_close_loop _ _ _ _ _ _) as [[[ok s3] t3] evs] eqn:Hl;
       cbn [fst snd app]; split; intros z Hin; simpl in Hin;
       repeat (destruct Hin as [Hin|Hin]; [try discriminate Hin|]);
       try contradiction;
       apply (Hloop _ _ _ _ _ _ Hl) in Hin; discriminate Hin
     | cbn [fst snd app]; split; intros z Hin; simpl in Hin;
       repeat (destruct Hin as [Hin|Hin]; [try discriminate Hin|]);
       contradiction ]).
Qed.

(** With nothing to ask in the trailing block, [manage_position] sends what
    the break-even block asks, and partial closes. *)
Lemma quiet_trailing_events (P : Event -> Prop) t s k p info :
  positions s !! k = Some p ->
  t_symbol_info t (symbol p) = Some info ->
  0 < point info ->
  trailing_request (trailing_stop (config s)) (point info) p
    (profit_in_pips p (point info)) = None ->
  (forall b done,
     break_even_request (break_even (config s)) (point info) p
       (profit_in_pips p (point info)) = Some b -> P (EvBreakEven k b done)) ->
  (forall e, is_stop_event e = false -> P e) ->
  Forall P (manage_position t s k).2.
Proof.
  intros Hp Hinfo Hpt Htr Hbe Hother.
  rewrite (manage_position_unfold _ _ _ _ _ Hp Hinfo Hpt). cbv zeta.
  rewrite Htr.
  assert (Hloop : forall t0 s0,
            Forall P (partial_close_loop t0 s0 k p (profit_in_pips p (point info))
                        (pc_levels (partial_close (config s)))).2).
  { intros t0 s0. eapply Forall_impl; [apply partial_close_loop_events|].
    intros e He. apply Hother, He. }
  destruct (break_even_request _ _ _ _) as [b|].
  - destruct (_modify_position t s k b (tp p)) as [[[] s1] t1]; cbn [fst snd app].
    + constructor; [apply Hbe; reflexivity|constructor].
    + destruct (pc_enabled _).
      * specialize (Hloop t1 s1).
        destruct (partial_close_loop _ _ _ _ _ _) as [[[ok s3] t3] evs].
        cbn [fst snd app] in *. constructor; [apply Hbe; reflexivity|exact Hloop].
      * cbn [fst snd app]. constructor; [apply Hbe; reflexivity|constructor].
  - cbn [fst snd app]. destruct (pc_enabled _).
    + specialize (Hloop t s).
      destruct (partial_close_loop _ _ _ _ _ _) as [[[ok s3] t3] evs]. exact Hloop.
    + constructor.
Qed.

(** C4 (amended): a break-even or trailing-stop modification sent by
    [manage_position] always asks for a stop that is strictly better for the
    side of the position (higher for a long position, lower for a short one),
    and an answered modification is what the position then carries. Invoked
    again at the same price, on any terminal [t2] that knows the symbol,
    [manage_position] does not repeat an answered update. After an answered
    trailing-stop update it sends no trailing-stop modification, and a
    break-even modification only to repeat a request that the terminal
    refused in the first call; when the first call sent nothing but the
    trailing-stop update, the second sends no stop modification at all.
    After an answered break-even update it sends no break-even modification
    (a trailing-stop update may still follow). The symbol has a positive
    point and the trailing step is not negative. *)
Theorem stop_updates_improve_and_settle (t : Terminal) (s : State) (k : Z)
    (p : Position) (info : SymbolInfo) :
  positions s !! k = Some p ->
  t_symbol_info t (symbol p) = Some info ->
  0 < point info ->
  0 <= ts_step_pips (trailing_stop (config s)) ->
  let s1 := (manage_position t s k).1.1.2 in
  let evs1 := (manage_position t s k).2 in
  Forall (stop_event_ok k p s1) evs1
  /\ (forall new_sl t2,
      In (EvTrailing k new_sl true) evs1 ->
      t_symbol_info t2 (symbol p) = Some info ->
      Forall (after_trailing_ok evs1) (manage_position t2 s1 k).2)
  /\ (forall new_sl t2,
      evs1 = [EvTrailing k new_sl true] ->
      t_symbol_info t2 (symbol p) = Some info ->
      Forall (fun e => is_stop_event e = false) (manage_position t2 s1 k).2)
  /\ (forall new_sl t2,
      In (EvBreakEven k new_sl true) evs1 ->
      t_symbol_info t2 (symbol p) = Some info ->
      Forall (fun e => is_break_even e = false) (manage_position t2 s1 k).2).
Proof.
  intros Hp Hinfo Hpt Hstep s1 evs1.
  assert (Hd : 0 <= ts_step_pips (trailing_stop (config s)) * 10 * point info) by nra.
  split; [apply (manage_position_stop_events _ _ _ _ _ Hp Hinfo Hpt Hstep)|].
  pose proof (answered_stop_event_run _ _ _ _ _ Hp Hinfo Hpt) as Hrun.
  cbv zeta in Hrun. fold s1 evs1 in Hrun. destruct Hrun as [Hrun_be Hrun_tr].
  assert (Hafter : forall new_sl t2,
            In (EvTrailing k new_sl true) evs1 ->
            t_symbol_info t2 (symbol p) = Some info ->
            Forall (after_trailing_ok evs1) (manage_position t2 s1 k).2).
  { intros new_sl t2 Hev Hinfo2.
    destruct (Hrun_tr _ Hev) as (Htr & Hm & Hbe).
    destruct (modify_position_done _ _ _ _ _ _ _ _ Hp Hm) as (Hp1 & Hc1 & _).
    apply (quiet_trailing_events _ t2 s1 k _ info Hp1); [exact Hinfo2|exact Hpt| | |].
    - rewrite Hc1. apply (trailing_request_settles _ _ _ _ _ _ Hd Htr).
    - intros b done Hb. rewrite Hc1 in Hb.
      change (profit_in_pips (set_sl_tp new_sl (tp p) p) (point info))
        with (profit_in_pips p (point info)) in Hb.
      rewrite (break_even_request_repeats _ _ _ _ _ _ _ _ Hd Htr Hb) in Hbe.
      exact Hbe.
    - intros [] He; simpl in He; try discriminate He. exact I. }
  split; [exact Hafter|]. split; intros new_sl t2 Hev Hinfo2.
  - assert (Hin : In (EvTrailing k new_sl true) evs1) by (rewrite Hev; left; reflexivity).
    specialize (Hafter new_sl t2 Hin Hinfo2). rewrite Hev in Hafter.
    eapply Forall_impl; [exact Hafter|].
    intros [k' x done|k' x done|k' l v done] He; simpl in He |- *.
    + destruct He as [He|[]]. discriminate He.
    + destruct He.
    + reflexivity.
  - destruct (Hrun_be _ Hev) as (Hbe & Hm).
    destruct (modify_position_done _ _ _ _ _ _ _ _ Hp Hm) as (Hp1 & Hc1 & _).
    apply (quiet_break_even_sends_nothing t2 s1 k _ info Hp1); [exact Hinfo2|exact Hpt|].
    rewrite Hc1. apply (break_even_request_settles _ _ _ _ _ _ Hbe).
Qed.

Lemma stop_updates_improve_and_settle_witness :
  let t := Scenarios.terminal_refusing_break_even in
  let s := Scenarios.manager_wide_trailing in
  let p := pos_dict (Scenarios.tposition 7 0 1 1.1 1.1016 1.095) in
  let new_sl := 1.1016 - 20 * 10 * 0.00001 in
  (positions s !! 7%Z = Some p /\ 0 < point Scenarios.eurusd
   /\ 0 <= ts_step_pips (trailing_stop (config s)))
  /\ Forall (stop_event_ok 7 p (manage_position t s 7).1.1.2) (manage_position t s 7).2
  /\ In (EvTrailing 7 new_sl true) (manage_position t s 7).2
  /\ Forall (after_trailing_ok (manage_position t s 7).2)
            (manage_position Scenarios.terminal_long_16_pips
               (manage_position t s 7).1.1.2 7).2.
Proof.
  intros t s p new_sl.
  assert (Hp : positions s !! 7%Z = Some p) by (vm_compute; reflexivity).
  assert (Hpt : 0 < point Scenarios.eurusd) by reflexivity.
  assert (Hstep : 0 <= ts_step_pips (trailing_stop (config s)))
    by (intros H; discriminate H).
  assert (Hin : In (EvTrailing 7 new_sl true) (manage_position t s 7).2)
    by (vm_compute; right; left; reflexivity).
  destruct (stop_updates_improve_and_settle t s 7 p Scenarios.eurusd Hp eq_refl Hpt Hstep)
    as (H1 & H2 & _).
  split; [auto|]. split; [exact H1|]. split; [exact Hin|].
  apply (H2 new_sl Scenarios.terminal_long_16_pips Hin). reflexivity.
Defined.

(** At 12 pips of profit the break-even block moves the stop to the entry
    plus two pips and a second call sends nothing. *)
Example break_even_then_quiet :
  let t := Scenarios.terminal_long_12_pips in
  let s := Scenarios.manager_long_12_pips in
  let r1 := manage_position t s 7 in
  let r2 := manage_position r1.1.2 r1.1.1.2 7 in
  match r1.2 with
  | [EvBreakEven k x true] => k = 7%Z /\ x == 1.1002
  | _ => False
  end
  /\ List.filter is_stop_event r2.2 = [].
Proof. vm_compute. repeat split; reflexivity. Qed.

(** At 16 pips of profit, with a trailing distance of 20 pips, the terminal
    refuses the break-even level 1.1002 and accepts the trailing level
    1.0996, still under the entry. The next call asks for the break-even
    level again: the same terminal refuses it again, a terminal that
    accepts it moves the stop there. *)
Example refused_break_even_is_sent_again :
  let t := Scenarios.terminal_refusing_break_even in
  let s := Scenarios.manager_wide_trailing in
  let r1 := manage_position t s 7 in
  let r2 := manage_position r1.1.2 r1.1.1.2 7 in
  let r2' := manage_position Scenarios.terminal_long_16_pips r1.1.1.2 7 in
  match r1.2, List.filter is_stop_event r2.2, r2'.2 with
  | [EvBreakEven _ x false; EvTrailing _ y true], [EvBreakEven _ x2 false],
    [EvBreakEven _ x2' true] =>
      x == 1.1002 /\ y == 1.0996 /\ x2 == 1.1002 /\ x2' == 1.1002
      /\ match sl <$> positions r2'.1.1.2 !! 7%Z with
         | Some z => z == 1.1002
         | None => False
         end
  | _, _, _ => False
  end.
Proof. vm_compute. repeat split; reflexivity. Qed.

(** C4 as stated fails: at 30 pips of profit the first call moves the stop
    to break-even (1.1002) and the second call, at the same price, moves it
    again, to the trailing level (1.1020). *)
Lemma second_invocation_moves_stop_again :
  let t := Scenarios.terminal_long_30_pips in
  let s := Scenarios.manager_long_30_pips in
  let r1 := manage_position t s 7 in
  let r2 := manage_position r1.1.2 r1.1.1.2 7 in
  match r1.2, r2.2 with
  | [EvBreakEven k1 x true], [EvTrailing k2 y true] =>
      k1 = 7%Z /\ k2 = 7%Z /\ x == 1.1002 /\ y == 1.102
      /\ current_price <$> positions r1.1.1.2 !! 7%Z = current_price <$> positions s !! 7%Z
  | _, _ => False
  end.
Proof. vm_compute. repeat split; reflexivity. Qed.

(** *** Partial close *)

(** A level whose key the dictionary read by [manage_position] holds is
    skipped by the loop. *)
Lemma consumed_level_skipped level rest t s k p pips :
  has_level_key (profit_pips level) p = true ->
  partial_close_loop t s k p pips (level :: rest)
  = partial_close_loop t s k p pips rest.
Proof.
  intros H. simpl. rewrite H. rewrite andb_false_r. reflexivity.
Qed.

(** [update_positions] rebuilds every dictionary: no key of a consumed level
    survives it. *)
Lemma update_positions_forgets_levels t s k p :
  positions (update_positions t s).1 !! k = Some p -> partial_close_keys p = [].
Proof.
  unfold update_positions.
  destruct (t_positions_get t) as [ps|]; simpl; [|rewrite lookup_empty; discriminate].
  unfold new_positions.
  assert (H : forall (m : gmap Z Position),
            (forall k p, m !! k = Some p -> partial_close_keys p = []) ->
            forall k p, foldl (fun m p => <[tp_ticket p := pos_dict p]> m) m ps !! k = Some p ->
                        partial_close_keys p = []).
  { induction ps as [|q ps IH]; intros m Hm k' p'; simpl; [apply Hm|].
    apply IH. intros k2 p2. rewrite lookup_insert.
    destruct (decide (tp_ticket q = k2)); [intros [= <-]; reflexivity | apply Hm]. }
  apply H. intros k' p'. rewrite lookup_empty. discriminate.
Qed.

(** C5 (code defect): the key that marks a consumed level lives in the
    position dictionary, and [update_positions] replaces every dictionary.
    With the positions fetched again between two cycles the 15-pip level
    closes part of ticket 7 twice at an unchanged price; and even without any
    outside refresh, the refresh that follows the close at the 30-pip level
    drops the key of the 15-pip level, which then fires a second time. *)
Theorem partial_close_level_fires_twice :
  partial_closes 7 15
    (run_actions [Manage 7; Refresh; Manage 7] Scenarios.terminal_no_stop_20_pips
       (Scenarios.manager_of Scenarios.terminal_no_stop_20_pips)).2 = 2%nat
  /\ partial_closes 7 15
       (run_actions [Manage 7; Manage 7; Manage 7] Scenarios.terminal_no_stop_35_pips
          (Scenarios.manager_of Scenarios.terminal_no_stop_35_pips)).2 = 2%nat.
Proof. vm_compute. split; reflexivity. Qed.

(** Without a refresh in between, the second call leaves the consumed level
    alone. *)
Example partial_close_level_once_without_refresh :
  partial_closes 7 15
    (run_actions [Manage 7; Manage 7] Scenarios.terminal_no_stop_20_pips
       (Scenarios.manager_of Scenarios.terminal_no_stop_20_pips)).2 = 1%nat.
Proof. vm_compute. reflexivity. Qed.

End RiskManagerProofs.

(** ** The order replicator *)
Module ReplicatorProofs.
Import Replicator.

(** *** The transformation of a source order *)

(** C8: the order [{ticket: 100, EURUSD, BUY, 1.0, 1.0950, 1.1100}] passes
    the filters and is dispatched as [{EURUSD, BUY, 0.5, 1.0950, 1.1100}]
    under [{multiplier 0.5, reverse false, includeLevels true, adjust 0}], and
    as [{EURUSD, SELL, 1.0, 0, 0}] under
    [{multiplier 1.0, reverse true, includeLevels false}]. *)
Theorem replicate_order_examples :
  let o := ReplicationScenarios.order_100 in
  (_should_replicate_order o ReplicationScenarios.config_half = true
   /\ match _replicate_order ReplicationScenarios.healthy_targets o "T1"
               ReplicationScenarios.config_half with
      | (true, [Execute target (Some k) req]) =>
          target = "T1" /\ k = 100%Z
          /\ x_symbol req = "EURUSD" /\ x_action req = "BUY"
          /\ x_volume req == 0.5 /\ x_sl req == 1.0950 /\ x_tp req == 1.1100
      | _ => False
      end)
  /\ (_should_replicate_order o ReplicationScenarios.config_reverse = true
      /\ match _replicate_order ReplicationScenarios.healthy_targets o "T1"
                  ReplicationScenarios.config_reverse with
         | (true, [Execute target (Some k) req]) =>
             target = "T1" /\ k = 100%Z
             /\ x_symbol req = "EURUSD" /\ x_action req = "SELL"
             /\ x_volume req == 1.0 /\ x_sl req == 0 /\ x_tp req == 0
         | _ => False
         end).
Proof. vm_compute. repeat split; reflexivity. Qed.

(** The comment names the source ticket. *)
Example replicated_comment :
  x_comment <$> transform ReplicationScenarios.order_100 ReplicationScenarios.config_half
  = Some "REP:100:".
Proof. vm_compute. reflexivity. Qed.

(** *** One pass over the targets *)

Lemma executions_app b evs1 evs2 :
  executions b (evs1 ++ evs2) = (executions b evs1 + executions b evs2)%nat.
Proof. unfold executions. rewrite List.filter_app, length_app. reflexivity. Qed.



(** [_replicate_order] calls [execute_order] of its target at most once. *)
Lemma replicate_order_executions env o target c b :
  executions b (_replicate_order env o target c).2
  = match transform o c with
    | Some _ => if String.eqb target b then 1%nat else 0%nat
    | None => 0%nat
    end.
Proof.
  unfold _replicate_order, executions.
  destruct (transform o c) as [req|]; [|reflexivity].
  destruct (execute_order env target req); simpl;
    destruct (String.eqb target b); reflexivity.
Qed.


Lemma replicate_order_no_sleep env o target c :
  Forall (fun e => is_sleep e = false) (_replicate_order env o target c).2.
Proof.
  unfold _replicate_order.
  destruct (transform o c) as [req|]; [|repeat constructor].
  destruct (execute_order env target req); repeat constructor.
Qed.

Lemma eqb_string_sym (a b : string) : String.eqb a b = String.eqb b a.
Proof.
  destruct (String.eqb a b) eqn:E1, (String.eqb b a) eqn:E2; try reflexivity.
  - apply String.eqb_eq in E1. subst. rewrite String.eqb_refl in E2. discriminate.
  - apply String.eqb_eq in E2. subst. rewrite String.eqb_refl in E1. discriminate.
Qed.

Lemma dispatch_all_executions env o c b targets : forall i,
  (executions b (dispatch_all env o c i targets) <= occurrences b targets)%nat.
Proof.
  unfold occurrences.
  induction targets as [|target rest IH]; intros i; simpl; [reflexivity|].
  rewrite executions_app. specialize (IH (S i)).
  assert (H : (executions b (if negb (check_connection env target)
                             then [Log ERROR (ticket o) (Some i)]
                             else let '(ok, evs) := _replicate_order env o target c in
                                  evs ++ [Log (if ok then INFO else ERROR) (ticket o) (Some i)])
               <= if String.eqb b target then 1 else 0)%nat).
  { destruct (check_connection env target); simpl.
    - pose proof (replicate_order_executions env o target c b) as Hx.
      destruct (_replicate_order env o target c) as [ok evs]. simpl in Hx.
      rewrite executions_app, Hx. rewrite (eqb_string_sym b target).
      unfold executions.
      destruct (transform o c), (String.eqb target b), ok; simpl; lia.
    - unfold executions. destruct (String.eqb b target); simpl; lia. }
  destruct (String.eqb b target); simpl in *; lia.
Qed.


Lemma dispatch_all_no_sleep env o c targets : forall i,
  Forall (fun e => is_sleep e = false) (dispatch_all env o c i targets).
Proof.
  induction targets as [|target rest IH]; intros i; simpl; [constructor|].
  apply Forall_app. split; [|apply IH].
  destruct (check_connection env target); simpl; [|repeat constructor].
  pose proof (replicate_order_no_sleep env o target c) as Hx.
  destruct (_replicate_order env o target c) as [ok evs]. simpl in Hx.
  apply Forall_app. split; [exact Hx | repeat constructor].
Qed.

(** A target whose dispatch fails gets its error line. *)
Lemma dispatch_all_logs_failure env o c targets : forall i j b,
  targets !! j = Some b ->
  check_connection env b = false \/ (_replicate_order env o b c).1 = false ->
  In (Log ERROR (ticket o) (Some (i + j)%nat)) (dispatch_all env o c i targets).
Proof.
  induction targets as [|target rest IH]; intros i j b Hj Hfail; [discriminate Hj|].
  simpl. apply in_or_app. destruct j as [|j].
  - injection Hj as ->. left. rewrite Nat.add_0_r.
    destruct (check_connection env b) eqn:Hc; simpl; [|left; reflexivity].
    destruct Hfail as [Hf|Hf]; [discriminate Hf|].
    destruct (_replicate_order env o b c) as [ok evs]. simpl in Hf. subst ok.
    apply in_or_app. right. left. reflexivity.
  - right. replace (i + S j)%nat with (S i + j)%nat by lia.
    apply (IH (S i) j b Hj Hfail).
Qed.

(** C7 (amended): in the replication loop each per-target dispatch of a
    dequeued order is attempted at most once (once per entry of the target
    list, never again), with no delay between attempts: the only pause is
    the configured delay before the first dispatch. A target whose dispatch
    fails gets an ERROR line, and the order is never put back on the queue:
    it is dropped after the single pass and so never retried forever. *)
Theorem dispatch_attempted_once_never_requeued (env : Targets) (r : Replicator) :
  let r' := (replication_iteration env r).1 in
  let evs := (replication_iteration env r).2 in
  order_queue r' = tail (order_queue r)
  /\ (forall b, (executions b evs <= occurrences b (mt5_backend_targets r))%nat)
  /\ Forall (fun e => is_sleep e = false) (tail evs)
  /\ (forall o rest j b,
        order_queue r = o :: rest ->
        enabled (replication_config r) = true ->
        _should_replicate_order o (replication_config r) = true ->
        mt5_backend_targets r !! j = Some b ->
        check_connection env b = false
        \/ (_replicate_order env o b (replication_config r)).1 = false ->
        In (Log ERROR (ticket o) (Some j)) evs).
Proof.
  unfold replication_iteration.
  destruct (order_queue r) as [|o rest] eqn:Hq; simpl.
  { split; [exact Hq|]. split; [intros b; unfold executions; simpl; lia|].
    split; [constructor|]. intros; discriminate. }
  destruct (enabled (replication_config r)) eqn:He; simpl.
  2:{ split; [reflexivity|]. split; [intros b; unfold executions; simpl; lia|].
      split; [constructor|]. intros; discriminate. }
  destruct (_should_replicate_order o (replication_config r)) eqn:Hs; simpl.
  2:{ split; [reflexivity|]. split; [intros b; unfold executions; simpl; lia|].
      split; [constructor|]. intros o' rest' j b [= <- <-] _ Hs'. congruence. }
  split; [reflexivity|].
  pose proof (dispatch_all_no_sleep env o (replication_config r)
                (mt5_backend_targets r) 0) as Hns.
  split; [|split].
  - intros b. rewrite executions_app.
    pose proof (dispatch_all_executions env o (replication_config r) b
                  (mt5_backend_targets r) 0) as Hx.
    match goal with
    | |- (executions b ?pre + _ <= _)%nat =>
        assert (Hz : executions b pre = 0%nat) by (destruct (Py.gtb _ 0); reflexivity)
    end.
    rewrite Hz. exact Hx.
  - destruct (Py.gtb _ 0); simpl; [exact Hns|].
    destruct (dispatch_all _ _ _ _ _); [constructor|].
    inversion Hns; assumption.
  - intros o' rest' j b [= <- <-] _ _ Hj Hfail.
    apply in_or_app. right.
    apply (dispatch_all_logs_failure env o (replication_config r)
             (mt5_backend_targets r) 0 j b Hj Hfail).
Qed.

(** C7 as stated fails: a target that refuses order 100 is asked once, no
    warning is logged, nothing waits, and the order is gone from the queue;
    further iterations never dispatch it again. *)
Lemma failed_order_is_dropped_not_requeued :
  let r := ReplicationScenarios.replicator_with_order in
  let env := ReplicationScenarios.failing_targets in
  let '(r1, evs1) := replication_iteration env r in
  let '(r3, evs3) := run elements [Replicate env; Replicate env; Replicate env] r in
  executions "T1" evs1 = 1%nat
  /\ order_queue r1 = []
  /\ List.filter is_warning evs1 = []
  /\ List.filter is_sleep evs1 = []
  /\ In (Log ERROR (Some 100%Z) (Some 0%nat)) evs1
  /\ executions "T1" evs3 = 1%nat
  /\ order_queue r3 = [].
Proof. vm_compute. repeat split; auto. Qed.

(** *** De-duplication by the set of processed tickets *)










Lemma add_target_backend_nodup b r :
  NoDup (mt5_backend_targets r) -> NoDup (mt5_backend_targets (add_target_backend b r)).
Proof.
  intros H. unfold add_target_backend.
  destruct (bool_decide (b ∈ mt5_backend_targets r)) eqn:E; [exact H|].
  apply bool_decide_eq_false in E. simpl.
  apply NoDup_app. repeat split; [exact H | | apply NoDup_singleton].
  intros x Hx Hb. apply list_elem_of_singleton in Hb. subst. contradiction.
Qed.

Lemma remove_first_subset b l x : x ∈ remove_first b l -> x ∈ l.
Proof.
  induction l as [|y l IH]; simpl; [auto|].
  destruct (bool_decide (y = b)).
  - intros H. right. exact H.
  - intros H. apply elem_of_cons in H as [-> | H]; [left | right; auto].
Qed.

Lemma remove_target_backend_nodup b r :
  NoDup (mt5_backend_targets r) -> NoDup (mt5_backend_targets (remove_target_backend b r)).
Proof.
  unfold remove_target_backend. simpl.
  induction 1 as [|x l Hx Hl IH]; simpl; [constructor|].
  destruct (bool_decide (x = b)); [exact Hl|].
  constructor; [|exact IH].
  intros Hin. apply Hx. apply (remove_first_subset b l x Hin).
Qed.













(** Order 100 comes back in three overlapping windows and is dispatched
    once; order 101 is dispatched once as well. *)
Example overlapping_windows_dispatch_once :
  let evs := (run elements ReplicationScenarios.overlapping_history
                ReplicationScenarios.fresh_replicator).2 in
  dispatches "T1" 100 evs = 1%nat /\ dispatches "T1" 101 evs = 1%nat.
Proof. vm_compute. split; reflexivity. Qed.


End ReplicatorProofs.

(** ** The registry of replication groups *)
Module MultiAccountProofs.
Import MultiAccount.

Lemma group_replicator_some g grp r m :
  replication_groups m !! g = Some grp ->
  replicators m !! source grp = Some r ->
  group_replicator g m = Some (source grp, r).
Proof. intros Hg Hr. unfold group_replicator. rewrite Hg, Hr. reflexivity. Qed.

(** *** Groups are created well formed and stay so *)

Lemma well_formed_empty : well_formed empty.
Proof. intros g grp H. simpl in H. rewrite lookup_empty in H. discriminate H. Qed.

Lemma add_account_well_formed a m : well_formed m -> well_formed (add_account a m).1.
Proof.
  unfold add_account. destruct (bool_decide (a ∈ backends m)); intros H; exact H.
Qed.

Lemma create_replication_group_well_formed g src ts m :
  well_formed m -> well_formed (create_replication_group g src ts m).1.
Proof.
  intros Hwf. unfold create_replication_group.
  destruct (bool_decide (is_Some (replication_groups m !! g))); [exact Hwf|].
  destruct (negb (bool_decide (src ∈ backends m))); [exact Hwf|].
  destruct (replicators m !! src) as [r|] eqn:Hr; simpl;
    intros g' grp'; simpl; rewrite lookup_insert;
    (destruct (decide (g = g')) as [->|Hne];
     [ intros [= <-]; simpl; rewrite lookup_insert_eq; eauto
     | intros Hg'; destruct (Hwf g' grp' Hg') as [r' Hr'];
       rewrite lookup_insert; destruct (decide (src = source grp')); eauto ]).
Qed.

Lemma create_replication_group_creates g src ts m :
  (create_replication_group g src ts m).2 = true ->
  exists grp r,
    replication_groups (create_replication_group g src ts m).1 !! g = Some grp
    /\ source grp = src
    /\ replicators (create_replication_group g src ts m).1 !! src = Some r.
Proof.
  unfold create_replication_group.
  destruct (bool_decide (is_Some (replication_groups m !! g))); [discriminate|].
  destruct (negb (bool_decide (src ∈ backends m))); [discriminate|].
  destruct (replicators m !! src) as [r|]; simpl; intros _;
    eexists; eexists; rewrite !lookup_insert_eq; eauto.
Qed.

Lemma set_group_config_well_formed g u m :
  well_formed m -> well_formed (set_group_config g u m).1.
Proof.
  intros Hwf. unfold set_group_config.
  destruct (group_replicator g m) as [[src r]|]; [|exact Hwf].
  intros g' grp' Hg'. simpl in *. destruct (Hwf g' grp' Hg') as [r' Hr'].
  rewrite lookup_insert. destruct (decide (src = source grp')); eauto.
Qed.

Lemma start_replication_well_formed conn g m :
  well_formed m -> well_formed (start_replication conn g m).1.
Proof.
  intros Hwf. unfold start_replication.
  destruct (group_replicator g m) as [[src r]|]; [|exact Hwf].
  destruct (Replicator.start_replication conn r) as [r1 ok].
  intros g' grp' Hg'. simpl in *. destruct (Hwf g' grp' Hg') as [r' Hr'].
  rewrite lookup_insert. destruct (decide (src = source grp')); eauto.
Qed.

Lemma stop_replication_well_formed g m :
  well_formed m -> well_formed (stop_replication g m).1.
Proof.
  intros Hwf. unfold stop_replication.
  destruct (group_replicator g m) as [[src r]|]; [|exact Hwf].
  destruct (negb (is_source_active g src m));
    [destruct (Replicator.stop_replication r) as [r1 ok]|];
    intros g' grp' Hg'; simpl in *; destruct (Hwf g' grp' Hg') as [r' Hr'];
    rewrite lookup_insert; destruct (decide (src = source grp')); eauto.
Qed.

Lemma remove_replication_group_well_formed g m :
  well_formed m -> well_formed (remove_replication_group g m).1.
Proof.
  intros Hwf. unfold remove_replication_group.
  destruct (replication_groups m !! g) as [grp|] eqn:Hg; [|exact Hwf].
  simpl.
  destruct (existsb _ (map_to_list (delete g (replication_groups m)))) eqn:Hused; simpl.
  - intros g' grp' Hg'. simpl in *.
    apply lookup_delete_Some in Hg' as [_ Hg']. apply (Hwf g' grp' Hg').
  - intros g' grp' Hg'. simpl in *.
    assert (Hne : source grp <> source grp').
    { intros Heq.
      assert (Hex : existsb (fun kv : string * Group => String.eqb (source kv.2) (source grp))
                      (map_to_list (delete g (replication_groups m))) = true).
      { apply existsb_exists. exists (g', grp'). split.
        - apply list_elem_of_In, elem_of_map_to_list. exact Hg'.
        - simpl. rewrite Heq. apply String.eqb_refl. }
      congruence. }
    apply lookup_delete_Some in Hg' as [_ Hg'].
    rewrite lookup_delete_ne by exact Hne. apply (Hwf g' grp' Hg').
Qed.

(** *** One configuration per source *)

(** What [dict.update] leaves under each key. *)
Lemma update_reads (u : Replicator.ConfigUpdate) (c : Replicator.Config) :
  let c' := Replicator.update u c in
  Replicator.reads (Replicator.u_enabled u) (Replicator.enabled c) (Replicator.enabled c')
  /\ Replicator.reads (Replicator.u_volume_multiplier u)
       (Replicator.volume_multiplier c) (Replicator.volume_multiplier c')
  /\ Replicator.reads (Replicator.u_reverse_direction u)
       (Replicator.reverse_direction c) (Replicator.reverse_direction c')
  /\ Replicator.reads (Replicator.u_symbols_filter u)
       (Replicator.symbols_filter c) (Replicator.symbols_filter c')
  /\ Replicator.reads (Replicator.u_max_volume u)
       (Replicator.max_volume c) (Replicator.max_volume c')
  /\ Replicator.reads (Replicator.u_min_volume u)
       (Replicator.min_volume c) (Replicator.min_volume c')
  /\ Replicator.reads (Replicator.u_delay_seconds u)
       (Replicator.delay_seconds c) (Replicator.delay_seconds c')
  /\ Replicator.reads (Replicator.u_include_sl_tp u)
       (Replicator.include_sl_tp c) (Replicator.include_sl_tp c')
  /\ Replicator.reads (Replicator.u_adjust_sl_tp_percent u)
       (Replicator.adjust_sl_tp_percent c) (Replicator.adjust_sl_tp_percent c').
Proof.
  destruct u as [[] [] [] [] [] [] [] [] []]; simpl; repeat split; reflexivity.
Qed.

(** C10: two groups of one source account share a single configuration.
    After [set_group_config] for one of them, [get_group_config] for the
    other returns the updated configuration, the same that the first group
    now reads: under every key, the value handed to [set_group_config] when
    the update holds the key, and the value read before otherwise. A group
    of another source account reads what it read before. *)
Theorem groups_of_one_source_share_config (m : Registry) (g1 g2 : string)
    (grp1 grp2 : Group) (u : Replicator.ConfigUpdate) :
  well_formed m ->
  replication_groups m !! g1 = Some grp1 ->
  replication_groups m !! g2 = Some grp2 ->
  source grp1 = source grp2 ->
  let m' := (set_group_config g1 u m).1 in
  (set_group_config g1 u m).2 = true
  /\ (exists c c',
        get_group_config g2 m = Some c
        /\ get_group_config g2 m' = Some c'
        /\ get_group_config g1 m' = Some c'
        /\ Replicator.reads (Replicator.u_enabled u)
             (Replicator.enabled c) (Replicator.enabled c')
        /\ Replicator.reads (Replicator.u_volume_multiplier u)
             (Replicator.volume_multiplier c) (Replicator.volume_multiplier c')
        /\ Replicator.reads (Replicator.u_reverse_direction u)
             (Replicator.reverse_direction c) (Replicator.reverse_direction c')
        /\ Replicator.reads (Replicator.u_symbols_filter u)
             (Replicator.symbols_filter c) (Replicator.symbols_filter c')
        /\ Replicator.reads (Replicator.u_max_volume u)
             (Replicator.max_volume c) (Replicator.max_volume c')
        /\ Replicator.reads (Replicator.u_min_volume u)
             (Replicator.min_volume c) (Replicator.min_volume c')
        /\ Replicator.reads (Replicator.u_delay_seconds u)
             (Replicator.delay_seconds c) (Replicator.delay_seconds c')
        /\ Replicator.reads (Replicator.u_include_sl_tp u)
             (Replicator.include_sl_tp c) (Replicator.include_sl_tp c')
        /\ Replicator.reads (Replicator.u_adjust_sl_tp_percent u)
             (Replicator.adjust_sl_tp_percent c) (Replicator.adjust_sl_tp_percent c'))
  /\ (forall g3 grp3,
        replication_groups m !! g3 = Some grp3 ->
        source grp3 <> source grp1 ->
        get_group_config g3 m' = get_group_config g3 m).
Proof.
  intros Hwf Hg1 Hg2 Hsrc m'.
  destruct (Hwf g1 grp1 Hg1) as [r Hr].
  assert (Hset : set_group_config g1 u m
                 = (with_replicators
                      (<[source grp1 := Replicator.set_replication_config u r]>
                         (replicators m)) m, true)).
  { unfold set_group_config. rewrite (group_replicator_some _ _ _ _ Hg1 Hr). reflexivity. }
  subst m'. rewrite Hset. simpl.
  split; [reflexivity|].
  unfold get_group_config, group_replicator. simpl.
  rewrite Hg1, Hg2, <- Hsrc, Hr, lookup_insert_eq. simpl.
  split.
  - exists (Replicator.replication_config r),
           (Replicator.update u (Replicator.replication_config r)).
    split; [reflexivity|]. split; [reflexivity|]. split; [reflexivity|].
    apply update_reads.
  - intros g3 grp3 Hg3 Hne. rewrite Hg3.
    rewrite lookup_insert_ne by (intros Heq; apply Hne; symmetry; exact Heq).
    reflexivity.
Qed.

Lemma groups_of_one_source_share_config_witness :
  let u := {| Replicator.u_enabled := Some true;
              Replicator.u_volume_multiplier := Some 0.5;
              Replicator.u_reverse_direction := None;
              Replicator.u_symbols_filter := Some ["EURUSD"];
              Replicator.u_max_volume := None;
              Replicator.u_min_volume := None;
              Replicator.u_delay_seconds := None;
              Replicator.u_include_sl_tp := None;
              Replicator.u_adjust_sl_tp_percent := None |} in
  let m' := (set_group_config "g1" u ReplicationScenarios.two_groups).1 in
  well_formed ReplicationScenarios.two_groups
  /\ get_group_config "g2" ReplicationScenarios.two_groups = Some Replicator.default_config
  /\ (exists c',
        get_group_config "g2" m' = Some c'
        /\ Replicator.enabled c' = true
        /\ Replicator.volume_multiplier c' = 0.5
        /\ Replicator.symbols_filter c' = ["EURUSD"]
        /\ Replicator.include_sl_tp c' = true)
  /\ get_group_config "g3" m' = Some Replicator.default_config.
Proof.
  intros u m'.
  assert (Hwf : well_formed ReplicationScenarios.two_groups).
  { unfold ReplicationScenarios.two_groups.
    repeat first [ apply create_replication_group_well_formed
                 | apply add_account_well_formed ].
    apply well_formed_empty. }
  assert (Hold : get_group_config "g2" ReplicationScenarios.two_groups
                 = Some Replicator.default_config) by (vm_compute; reflexivity).
  split; [exact Hwf|]. split; [exact Hold|].
  destruct (groups_of_one_source_share_config ReplicationScenarios.two_groups "g1" "g2"
              {| source := "A"; targets := ["T1"] |}
              {| source := "A"; targets := ["T2"] |} u)
    as (_ & (c & c' & Hc & Hc' & _ & He & Hv & _ & Hf & _ & _ & _ & Hi & _) & H4).
  - exact Hwf.
  - vm_compute. reflexivity.
  - vm_compute. reflexivity.
  - reflexivity.
  - subst m'. split.
    + exists c'. split; [exact Hc'|].
      rewrite Hold in Hc. injection Hc as <-.
      split; [exact He|]. split; [exact Hv|]. split; [exact Hf|]. exact Hi.
    + rewrite (H4 "g3" {| source := "B"; targets := ["T1"] |}).
      * vm_compute. reflexivity.
      * vm_compute. reflexivity.
      * discriminate.
Defined.

(** *** Stopping one group of a shared source *)

(** When the branch "another enabled group shares the source" is taken, the
    shared replicator keeps its threads and loses its [enabled] flag, for
    every group of that source. *)
Lemma stop_replication_shared_source g src r m :
  group_replicator g m = Some (src, r) ->
  is_source_active g src m = true ->
  exists r',
    (stop_replication g m).1 = with_replicators (<[src := r']> (replicators m)) m
    /\ Replicator.running r' = Replicator.running r
    /\ Replicator.enabled (Replicator.replication_config r') = false
    /\ forall g' grp',
         replication_groups m !! g' = Some grp' -> source grp' = src ->
         Replicator.enabled <$> get_group_config g' (stop_replication g m).1 = Some false.
Proof.
  intros Hg Hact. unfold stop_replication. rewrite Hg, Hact. simpl.
  eexists. split; [reflexivity|]. split; [reflexivity|]. split; [reflexivity|].
  intros g' grp' Hg' Hsrc. unfold get_group_config, group_replicator. simpl.
  rewrite Hg', Hsrc, lookup_insert_eq. reflexivity.
Qed.

(** The pipeline itself is stopped exactly when no other enabled group
    shares the source. *)
Lemma stop_replication_stops_pipeline g src r m :
  group_replicator g m = Some (src, r) ->
  Replicator.running r = true ->
  (Replicator.running <$> replicators (stop_replication g m).1 !! src = Some false
   <-> is_source_active g src m = false).
Proof.
  intros Hg Hrun. unfold stop_replication. rewrite Hg.
  destruct (is_source_active g src m) eqn:Hact; simpl.
  - rewrite lookup_insert_eq. simpl. rewrite Hrun. split; discriminate.
  - unfold Replicator.stop_replication. rewrite Hrun. simpl.
    rewrite lookup_insert_eq. simpl. split; reflexivity.
Qed.

(** C9 (code defect): groups g1 and g2 share the source account A and the
    pipeline of A is replicating. [stop_replication("g1")] keeps the threads
    of the pipeline running but clears [enabled] in the one configuration
    that both groups read: g2 is disabled too, the monitor iteration enqueues
    nothing any more and an order still on the queue is dropped without a
    dispatch. *)
Theorem stop_group_disables_sibling_groups :
  let m := ReplicationScenarios.two_groups_running in
  let m' := (stop_replication "g1" m).1 in
  Replicator.enabled <$> get_group_config "g2" m = Some true
  /\ (stop_replication "g1" m).2 = true
  /\ Replicator.enabled <$> get_group_config "g2" m' = Some false
  /\ match replicators m' !! "A" with
     | Some r =>
         Replicator.running r = true
         /\ Replicator.enqueued
              (Replicator.Monitor true (Some [ReplicationScenarios.order_100])) r = []
         /\ Replicator.replication_iteration ReplicationScenarios.healthy_targets
              (Replicator.with_queue [ReplicationScenarios.order_100] r)
            = (Replicator.with_queue [] r, [])
     | None => False
     end.
Proof. vm_compute. repeat split; reflexivity. Qed.

(** Before the stop the same pipeline replicates the order to the targets of
    both groups. *)
Example shared_pipeline_replicates_before_stop :
  match replicators ReplicationScenarios.two_groups_running !! "A" with
  | Some r =>
      let evs := (Replicator.replication_iteration ReplicationScenarios.healthy_targets
                    (Replicator.with_queue [ReplicationScenarios.order_100] r)).2 in
      Replicator.executions "T1" evs = 1%nat /\ Replicator.executions "T2" evs = 1%nat
  | None => False
  end.
Proof. vm_compute. split; reflexivity. Qed.

End MultiAccountProofs.

(** ** Stop-loss and take-profit levels *)
Module LevelsProofs.
Import RiskManager Levels.

Lemma round_half (y : Q) : Qabs (Py.round y - y) <= 1 # 2.
Proof.
  pose proof (Qfloor_le y) as Hlo. pose proof (Qlt_floor y) as Hhi.
  rewrite inject_Z_plus in Hhi. change (inject_Z 1) with 1 in Hhi.
  apply Qabs_Qle_condition.
  unfold Py.round. cbv zeta. rewrite inject_Z_plus. change (inject_Z 1) with 1.
  destruct (Z.even (Qfloor y)); generalize dependent (inject_Z (Qfloor y)); intros f Hlo Hhi;
    destruct (Py.ltb (y - f) (1 # 2)) eqn:H1;
    destruct (Py.ltb (1 # 2) (y - f)) eqn:H2;
    repeat match goal with
           | H : Py.ltb _ _ = true |- _ => apply PyFacts.ltb_lt in H
           | H : Py.ltb _ _ = false |- _ => apply PyFacts.ltb_ge in H
           end; split; lra.
Qed.

Lemma pow10_pos (n : Z) : 0 < Py.pow10 n.
Proof. unfold Py.pow10. apply Qpower_0_lt. reflexivity. Qed.

Lemma round_digits_close (x : Q) (n : Z) :
  Qabs (round_digits x n - x) <= (1 # 2) / Py.pow10 n.
Proof.
  pose proof (pow10_pos n) as Hp.
  pose proof (round_half (x * Py.pow10 n)) as Hr.
  unfold round_digits. set (r := Py.round (x * Py.pow10 n)) in *.
  set (u := Py.pow10 n) in *.
  apply Qabs_Qle_condition in Hr. destruct Hr as [Hr1 Hr2].
  apply Qabs_Qle_condition.
  assert (r / u - x == (r - x * u) / u) as -> by (field; lra).
  split.
  - apply Qle_shift_div_l; [exact Hp|].
    assert (- ((1 # 2) / u) * u == - (1 # 2)) as -> by (field; lra). exact Hr1.
  - apply Qle_shift_div_r; [exact Hp|].
    assert ((1 # 2) / u * u == 1 # 2) as -> by (field; lra). exact Hr2.
Qed.

Lemma round_digits_multiple (x : Q) (n : Z) :
  exists k : Z, round_digits x n == inject_Z k / Py.pow10 n.
Proof.
  destruct (PyFacts.round_integer (x * Py.pow10 n)) as [k Hk].
  exists k. unfold round_digits. rewrite Hk. reflexivity.
Qed.

Lemma level_at_finite info entry up (pips : Q) :
  level_at info entry up (Py.Fin pips)
  = Py.Fin (round_digits (if up then entry + pips * 10 * point info
                          else entry + - (pips * 10 * point info)) (digits info)).
Proof. unfold level_at. destruct up; reflexivity. Qed.

(** X10: when the entry price, the symbol and a finite stop distance are
    known, [calculate_stop_loss] answers a multiple of [10 ** -digits] that
    is within half such a unit of the entry less the distance for a BUY, and
    of the entry plus the distance otherwise; it lies on the losing side of
    the entry as soon as the distance is half a unit or more. *)
Theorem stop_loss_level_tracks_the_pips (t : Terminal) (s : State)
    (sym action : string) (entry_price : option Q) (entry pips : Q)
    (info : SymbolInfo) :
  entry_of t sym action entry_price = Some entry ->
  t_symbol_info t sym = Some info ->
  _calculate_stop_loss_pips t s sym action = Py.Fin pips ->
  let half_unit := (1 # 2) / Py.pow10 (digits info) in
  let distance := pips * 10 * point info in
  exists sl,
    calculate_stop_loss t s sym action entry_price = Py.Fin sl
    /\ (exists k : Z, sl == inject_Z k / Py.pow10 (digits info))
    /\ (if String.eqb action "BUY"
        then Qabs (sl - (entry - distance)) <= half_unit
             /\ (half_unit <= distance -> sl <= entry)
        else Qabs (sl - (entry + distance)) <= half_unit
             /\ (half_unit <= distance -> entry <= sl)).
Proof.
  intros He Hi Hp half_unit distance.
  unfold calculate_stop_loss. rewrite He, Hi, Hp, level_at_finite.
  eexists. split; [reflexivity|]. split; [apply round_digits_multiple|].
  destruct (String.eqb action "BUY"); simpl negb; cbv iota.
  - pose proof (round_digits_close (entry + - (pips * 10 * point info)) (digits info)) as Hc.
    fold half_unit distance in Hc |- *.
    set (sl := round_digits (entry + - distance) (digits info)) in *.
    assert (sl - (entry - distance) == sl - (entry + - distance)) as Heq by ring.
    split.
    + rewrite Heq. exact Hc.
    + intros Hd. apply Qabs_Qle_condition in Hc. lra.
  - pose proof (round_digits_close (entry + pips * 10 * point info) (digits info)) as Hc.
    fold half_unit distance in Hc |- *.
    set (sl := round_digits (entry + distance) (digits info)) in *.
    split; [exact Hc|].
    intros Hd. apply Qabs_Qle_condition in Hc. lra.
Qed.

(** X11: under the method "risk_reward", with the entry price and the
    symbol known, [calculate_take_profit] answers 0 for a stop loss of 0,
    and otherwise the entry moved by [risk_reward_ratio] times its distance
    to the stop loss, up for a BUY and down otherwise, rounded to the digits
    of the symbol. *)
Theorem take_profit_keeps_the_ratio (c : TakeProfitCfg) (t : Terminal) (s : State)
    (sym action : string) (entry_price : option Q) (entry sl : Q)
    (info : SymbolInfo) :
  tp_method c = "risk_reward" ->
  entry_of t sym action entry_price = Some entry ->
  t_symbol_info t sym = Some info ->
  let answer := calculate_take_profit c t s sym action entry_price (Some sl) in
  let reward := Qabs (entry - sl) * risk_reward_ratio c in
  (sl == 0 -> answer = Py.Fin 0)
  /\ (~ sl == 0 ->
      exists tp,
        answer = Py.Fin tp
        /\ Qabs (tp - (if String.eqb action "BUY" then entry + reward else entry - reward))
           <= (1 # 2) / Py.pow10 (digits info)).
Proof.
  intros Hm He Hi answer reward. subst answer.
  unfold calculate_take_profit. rewrite He, Hm, Hi. simpl String.eqb. cbv iota.
  unfold fis_zero. split.
  - intros Hz. apply PyFacts.eqb_eq in Hz. rewrite Hz. reflexivity.
  - intros Hz. apply PyFacts.eqb_neq in Hz. rewrite Hz.
    destruct (String.eqb action "BUY"); simpl; eexists; (split; [reflexivity|]).
    + pose proof (round_digits_close
                    (entry + Qabs (entry + - sl) * risk_reward_ratio c) (digits info)) as Hc.
      exact Hc.
    + pose proof (round_digits_close
                    (entry + - (Qabs (entry + - sl) * risk_reward_ratio c)) (digits info)) as Hc.
      exact Hc.
Qed.

End LevelsProofs.

(** ** Float quotients and products *)
Module FloatFacts.

Lemma pow2_pos (e : Z) : 0 < Qpower 2 e.
Proof. apply Qpower_0_lt. reflexivity. Qed.

Lemma pow2_succ (e : Z) : Qpower 2 (e + 1) == Qpower 2 e * 2.
Proof. rewrite Qpower_plus by (intros H; discriminate H). reflexivity. Qed.

(** The exponent that [Py.fl] first tries is not too large. *)
Lemma first_exponent_low (a : Q) :
  0 < a ->
  Qpower 2 52 * Qpower 2 (Z.log2 (Qnum a) - Z.log2 (Zpos (Qden a)) - 53) <= a.
Proof.
  intros Ha. destruct a as [n d]. cbn [Qnum Qden].
  assert (0 < n)%Z as Hn by (unfold Qlt in Ha; simpl in Ha; lia).
  pose proof (Z.log2_spec n Hn) as [Hn1 _].
  pose proof (Z.log2_spec (Zpos d) (Pos2Z.is_pos d)) as [_ Hd2].
  pose proof (Z.log2_nonneg n) as Hln. pose proof (Z.log2_nonneg (Zpos d)) as Hld.
  set (ln := Z.log2 n) in *. set (ld := Z.log2 (Zpos d)) in *.
  assert (Qpower 2 52 * Qpower 2 (ln - ld - 53)
          == inject_Z (2 ^ ln) / inject_Z (2 ^ (ld + 1))) as Heq.
  { rewrite <- Qpower_plus by (intros H; discriminate H).
    replace (52 + (ln - ld - 53))%Z with (ln + - (ld + 1))%Z by lia.
    rewrite Qpower_plus by (intros H; discriminate H).
    rewrite Qpower_opp.
    rewrite !Zpower_Qpower by lia. reflexivity. }
  rewrite Heq. clear Heq.
  assert (0 < 2 ^ (ld + 1))%Z as Hpos by (apply Z.pow_pos_nonneg; lia).
  apply Qle_shift_div_r; [rewrite <- (Zlt_Qlt 0); exact Hpos|].
  unfold Qle, Qmult, inject_Z. simpl.
  rewrite Z.mul_1_r.
  assert (0 <= 2 ^ ln)%Z by (apply Z.pow_nonneg; lia).
  nia.
Qed.

Lemma exponent_low (a : Q) :
  0 < a ->
  let e0 := (Z.log2 (Qnum a) - Z.log2 (Zpos (Qden a)) - 53)%Z in
  let e := if Qle_bool (Qpower 2 53) (a / Qpower 2 e0) then (e0 + 1)%Z else e0 in
  Qpower 2 52 * Qpower 2 e <= a.
Proof.
  intros Ha e0 e. subst e.
  destruct (Qle_bool (Qpower 2 53) (a / Qpower 2 e0)) eqn:Hc.
  - apply Qle_bool_iff in Hc. rewrite pow2_succ.
    pose proof (pow2_pos e0) as Hp.
    assert (Qpower 2 53 == Qpower 2 52 * 2) as H53 by reflexivity.
    assert (a / Qpower 2 e0 * Qpower 2 e0 == a) as Heq by (field; lra).
    apply (Qmult_le_compat_r _ _ (Qpower 2 e0)) in Hc; [|lra].
    rewrite Heq, H53 in Hc. lra.
  - apply first_exponent_low. exact Ha.
Qed.

(** A real number and the double nearest to it differ by at most one part
    in [2 ** 53] of the number. *)
Lemma fl_error (x : Q) : Qabs (Py.fl x - x) * Qpower 2 53 <= Qabs x.
Proof.
  assert (Qpower 2 53 == Qpower 2 52 * 2) as H53 by reflexivity.
  pose proof (pow2_pos 52) as H52.
  unfold Py.fl. destruct (Qeq_bool x 0) eqn:Hz.
  { apply Qeq_bool_iff in Hz. rewrite Hz. vm_compute. discriminate. }
  apply Qeq_bool_neq in Hz.
  assert (0 < Qabs x) as Ha.
  { pose proof (Qabs_nonneg x) as Hn.
    destruct (Qeq_dec (Qabs x) 0) as [He|He]; [|lra].
    exfalso. apply Hz. assert (Qabs x <= 0) as Hle by lra.
    apply Qabs_Qle_condition in Hle. lra. }
  cbv zeta.
  pose proof (exponent_low (Qabs x) Ha) as Hlow. cbv zeta in Hlow.
  set (e := if Qle_bool _ _ then _ else _) in *.
  pose proof (pow2_pos e) as Hp.
  pose proof (LevelsProofs.round_half (Qabs x / Qpower 2 e)) as Hr.
  set (m := Py.round (Qabs x / Qpower 2 e)) in *.
  assert (Qabs x == Qabs x / Qpower 2 e * Qpower 2 e) as Hy by (field; lra).
  set (y := Qabs x / Qpower 2 e) in *.
  set (P := Qpower 2 e) in *.
  apply Qabs_Qle_condition in Hr. destruct Hr as [Hr1 Hr2].
  assert (0 <= (m - y + (1 # 2)) * P) as Hd1 by (apply Qmult_le_0_compat; lra).
  assert (0 <= (y - m + (1 # 2)) * P) as Hd2 by (apply Qmult_le_0_compat; lra).
  rewrite H53.
  assert (Qabs ((if Qle_bool 0 x then m else - m) * P - x) <= P * (1 # 2)) as Hb.
  { apply Qabs_Qle_condition.
    destruct (Qle_bool 0 x) eqn:Hs.
    - apply Qle_bool_iff in Hs. rewrite (Qabs_pos x Hs) in Hy. lra.
    - assert (x < 0) as Hneg.
      { destruct (Qlt_le_dec x 0) as [H|H]; [exact H|].
        apply Qle_bool_iff in H. congruence. }
      rewrite (Qabs_neg x) in Hy by lra. lra. }
  assert (0 <= Qabs ((if Qle_bool 0 x then m else - m) * P - x)) by apply Qabs_nonneg.
  set (err := Qabs ((if Qle_bool 0 x then m else - m) * P - x)) in *.
  set (c := Qpower 2 52) in *.
  assert (0 <= (P * (1 # 2) - err) * (c * 2)) by (apply Qmult_le_0_compat; lra).
  lra.
Qed.

(** The distance of a float quotient from the exact one. *)
Lemma fl_quotient_near (v step : Q) :
  0 <= v -> 0 < step ->
  Qabs (Py.fl (v / step) - v / step) <= v / step / Qpower 2 53.
Proof.
  intros Hv Hs.
  pose proof (fl_error (v / step)) as He.
  pose proof (pow2_pos 53) as Hp.
  assert (0 <= v / step) as Hw.
  { apply Qle_shift_div_l; [exact Hs|]. lra. }
  rewrite (Qabs_pos (v / step) Hw) in He.
  apply Qle_shift_div_l; [exact Hp|exact He].
Qed.

Lemma scale_le (a b step : Q) : 0 < step -> a <= b -> a * step <= b * step.
Proof. intros Hs H. apply Qmult_le_compat_r; lra. Qed.

Lemma scale_lt (a b step : Q) : 0 < step -> a < b -> a * step < b * step.
Proof. intros Hs H. apply Qmult_lt_compat_r; lra. Qed.

(** [Py.fl] against the IEEE 754 operations of the Standard Library: the
    doubles that Python reads for 0.3, 0.1, 0.29 and 0.01, the quotients
    [0.3 / 0.1] and [0.29 / 0.01], and the product [2 * 0.1]. *)
Example fl_agrees_with_ieee_754 :
  let third := Py.sf_div (Py.sf_of_Z 3) (Py.sf_of_Z 10) in
  let tenth := Py.sf_div (Py.sf_of_Z 1) (Py.sf_of_Z 10) in
  let v := Py.sf_div (Py.sf_of_Z 29) (Py.sf_of_Z 100) in
  let step := Py.sf_div (Py.sf_of_Z 1) (Py.sf_of_Z 100) in
  Py.sf_value third == Py.fl 0.3
  /\ Py.sf_value tenth == Py.fl 0.1
  /\ Py.sf_value (Py.sf_div third tenth) == Py.fl (Py.fl 0.3 / Py.fl 0.1)
  /\ Py.sf_value (Py.sf_mul (Py.sf_of_Z 2) tenth) == Py.fl (2 * Py.fl 0.1)
  /\ Py.sf_value v == Py.fl 0.29
  /\ Py.sf_value step == Py.fl 0.01
  /\ Py.sf_value (Py.sf_div v step) == Py.fl (Py.fl 0.29 / Py.fl 0.01)
  /\ Py.sf_value (Py.sf_mul (Py.sf_of_Z 28) step) == Py.fl (28 * Py.fl 0.01).
Proof. vm_compute. repeat split; reflexivity. Qed.

(** [0.3 / 0.1] is 2.9999999999999996 and [2 * 0.1] is the double 0.2;
    [0.29 / 0.01] is 28.999999999999996 and [28 * 0.01] is the double
    0.28. *)
Example float_quotients_below_the_whole_number :
  Py.floor (Py.fl (Py.fl 0.3 / Py.fl 0.1)) == 2
  /\ Py.fl (2 * Py.fl 0.1) == Py.fl 0.2
  /\ Py.floor (Py.fl (Py.fl 0.29 / Py.fl 0.01)) == 28
  /\ Py.fl (28 * Py.fl 0.01) == Py.fl 0.28.
Proof. vm_compute. repeat split; reflexivity. Qed.

End FloatFacts.

(** ** The checks before a trade *)
Module RiskChecksProofs.
Import RiskManager RiskNotions.

Lemma symbol_counts_from (ps : list Position) : forall (m : gmap string Z) sym,
  foldl (fun m p => <[symbol p := (default 0 (m !! symbol p) + 1)%Z]> m) m ps !! sym
  = if (0 <? positions_on sym ps)%Z
    then Some (default 0 (m !! sym) + positions_on sym ps)%Z
    else m !! sym.
Proof.
  unfold positions_on.
  induction ps as [|p ps IH]; intros m sym; [reflexivity|].
  simpl foldl. rewrite IH, filter_cons.
  destruct (decide (symbol p = sym)) as [->|Hne].
  - rewrite lookup_insert_eq. simpl default.
    destruct (filter _ ps) as [|q l]; simpl length.
    + reflexivity.
    + replace (0 <? Z.of_nat (S (length l)))%Z with true by (symmetry; apply Z.ltb_lt; lia).
      replace (0 <? Z.of_nat (S (S (length l))))%Z with true by (symmetry; apply Z.ltb_lt; lia).
      f_equal. lia.
  - rewrite lookup_insert_ne by exact Hne. reflexivity.
Qed.

Lemma symbol_counts_lookup ps sym :
  symbol_counts ps !! sym
  = if (0 <? positions_on sym ps)%Z then Some (positions_on sym ps) else None.
Proof.
  unfold symbol_counts. rewrite symbol_counts_from, lookup_empty. reflexivity.
Qed.

Lemma symbol_flags_lookup mx ps sym :
  symbol_flags mx ps !! sym
  = if (0 <? positions_on sym ps)%Z && (mx <=? positions_on sym ps)%Z
    then Some true else None.
Proof.
  unfold symbol_flags. rewrite lookup_fmap, map_lookup_filter, symbol_counts_lookup.
  destruct (0 <? positions_on sym ps)%Z; [|reflexivity].
  simpl. destruct (mx <=? positions_on sym ps)%Z eqn:Hle.
  - apply Z.leb_le in Hle. rewrite option_guard_True by exact Hle. reflexivity.
  - apply Z.leb_gt in Hle. rewrite option_guard_False by lia. reflexivity.
Qed.

(** X3: after [check_risk_limits] on an account whose balance is not zero,
    the flag [max_risk_per_symbol_reached] of a symbol is [True] exactly
    when the manager holds at least [max_positions_per_symbol] positions on
    it; a symbol below the limit, or without a position, has no entry. *)
Theorem symbol_flag_set_iff_symbol_limit_reached (clk : Clock) (t : Terminal)
    (s0 : State) (sym : string) :
  let s1 := (update_positions t (update_account_info t s0).1).1 in
  (forall a, account_info s1 = Some a -> ~ balance a == 0) ->
  let s := (check_risk_limits clk t s0).1 in
  let n := positions_on sym (position_values s) in
  max_risk_per_symbol_reached (risk_limits s) !! sym
  = if (0 <? n)%Z && (max_positions_per_symbol (risk_limits_cfg (config s)) <=? n)%Z
    then Some true else None.
Proof.
  intros s1 Hbal.
  destruct (RiskManagerProofs.check_risk_limits_evaluates_all clk t s0 Hbal)
    as (d & w & m & _ & _ & _ & Heq).
  cbv zeta in Heq. rewrite Heq. cbv zeta. cbn [fst].
  apply symbol_flags_lookup.
Qed.

Lemma symbol_flag_set_iff_symbol_limit_reached_witness :
  max_risk_per_symbol_reached
    (risk_limits (check_risk_limits Scenarios.clock Scenarios.terminal_two_positions
                    (init default_config)).1) !! "EURUSD"
  = Some true.
Proof.
  rewrite (symbol_flag_set_iff_symbol_limit_reached Scenarios.clock
             Scenarios.terminal_two_positions (init default_config) "EURUSD").
  - vm_compute. reflexivity.
  - intros a Ha. vm_compute in Ha. injection Ha as <-. vm_compute. discriminate.
Defined.

(** X4: [_check_trading_time] allows trading exactly when the time filter
    is off, or the flag of the weekday is not [False] and the hour lies in
    [start_hour, end_hour): with [start_hour >= end_hour] no hour is
    allowed. *)
Theorem trading_time_only_inside_the_window (clk : Clock) (s : State) :
  let f := time_filter (config s) in
  _check_trading_time clk s = true
  <-> (tf_enabled f = false
       \/ (trade_day f (now_weekday clk) <> Some false
           /\ (start_hour f <= now_hour clk < end_hour f)%Z)).
Proof.
  intros f.
  destruct (tf_enabled f) eqn:Hen.
  2: { unfold _check_trading_time. fold f. rewrite Hen. simpl. split; auto. }
  transitivity (trade_day f (now_weekday clk) <> Some false
                /\ (start_hour f <= now_hour clk < end_hour f)%Z).
  2: { split; [intros H; right; exact H | intros [H|H]; [discriminate|exact H]]. }
  unfold _check_trading_time, trade_day. fold f. rewrite Hen.
  unfold _check_high_impact_news. simpl negb. cbv iota.
  rewrite andb_false_r.
  assert (Hhours :
    (if (now_hour clk <? start_hour f)%Z || (end_hour f <=? now_hour clk)%Z
     then false else true) = true
    <-> (start_hour f <= now_hour clk < end_hour f)%Z).
  { destruct (now_hour clk <? start_hour f)%Z eqn:H1;
    destruct (end_hour f <=? now_hour clk)%Z eqn:H2; simpl;
    try apply Z.ltb_lt in H1; try apply Z.ltb_ge in H1;
    try apply Z.leb_le in H2; try apply Z.leb_gt in H2;
    split; try discriminate; try lia; intros _; reflexivity. }
  generalize dependent (now_weekday clk). intros wd.
  assert (wd = 0 \/ wd = 1 \/ wd = 2 \/ wd = 3 \/ wd = 4 \/ wd = 5 \/ wd = 6
          \/ (wd <> 0 /\ wd <> 1 /\ wd <> 2 /\ wd <> 3 /\ wd <> 4 /\ wd <> 5
              /\ wd <> 6))%Z as Hwd by lia.
  destruct Hwd as [->|[->|[->|[->|[->|[->|[->|(N0 & N1 & N2 & N3 & N4 & N5 & N6)]]]]]]];
  rewrite ?(proj2 (Z.eqb_neq wd 0%Z)), ?(proj2 (Z.eqb_neq wd 1%Z)),
          ?(proj2 (Z.eqb_neq wd 2%Z)), ?(proj2 (Z.eqb_neq wd 3%Z)),
          ?(proj2 (Z.eqb_neq wd 4%Z)), ?(proj2 (Z.eqb_neq wd 5%Z)),
          ?(proj2 (Z.eqb_neq wd 6%Z)) by assumption;
  simpl;
  try match goal with
      | |- context [negb ?b] => destruct b; simpl
      end;
  rewrite ?Hhours;
  try (split; [intros H; split; [discriminate|exact H] | intros [_ H]; exact H]);
  (split; [discriminate|intros [H _]; congruence]).
Qed.


Lemma map_is_empty_true {K A} `{Countable K} (m : gmap K A) :
  map_is_empty m = true -> m = ∅.
Proof.
  unfold map_is_empty. destruct (map_to_list m) eqn:Hm; [|discriminate].
  intros _. apply map_to_list_empty_iff. exact Hm.
Qed.

Lemma check_risk_limits_passed clk t s0 :
  (check_risk_limits clk t s0).2 = true ->
  let s1 := (update_positions t (update_account_info t s0).1).1 in
  let cfg := risk_limits_cfg (config s1) in
  check_risk_limits clk t s0
  = (set_risk_limits (limits false false false false false ∅ false) s1, true)
  /\ (Z.of_nat (size (positions s1)) < max_open_positions cfg)%Z
  /\ (forall a, account_info s1 = Some a ->
        drawdown_percent a <= max_drawdown_percent cfg)
  /\ symbol_flags (max_positions_per_symbol cfg) (position_values s1) = ∅.
Proof.
  unfold check_risk_limits. cbv zeta.
  set (s1 := (update_positions t (update_account_info t s0).1).1).
  set (cfg := risk_limits_cfg (config s1)).
  destruct (loss_check _ (daily_stats s1 !! _) _) as [d|]; [|discriminate].
  destruct (loss_check _ (weekly_stats s1 !! _) _) as [w|]; [|discriminate].
  destruct (loss_check _ (monthly_stats s1 !! _) _) as [m|]; [|discriminate].
  cbn [snd]. intros H.
  repeat (apply andb_true_iff in H; destruct H as [H ?]).
  repeat match goal with
         | H : negb _ = true |- _ => apply negb_true_iff in H
         end.
  match goal with
  | H : map_is_empty _ = true |- _ => apply map_is_empty_true in H; rename H into Hsym
  end.
  match goal with
  | H : (_ <=? _)%Z = false |- _ => rename H into Hmp
  end.
  match goal with
  | H : match account_info s1 with _ => _ end = false |- _ => rename H into Hdd
  end.
  subst d w m. rewrite Hsym, Hmp, Hdd.
  match goal with
  | H : (if _ then _ else _) = false |- _ => rewrite H
  end.
  split; [reflexivity|]. split; [apply Z.leb_gt in Hmp; exact Hmp|].
  split; [|reflexivity].
  intros a Ha. rewrite Ha in Hdd. apply PyFacts.gtb_le in Hdd. exact Hdd.
Qed.

(** X5: when [check_trading_allowed] answers [True], the manager holds
    fewer positions than [max_open_positions], the drawdown of the account
    is within [max_drawdown_percent], every symbol with a position is below
    [max_positions_per_symbol], the time filter allows trading and no flag
    of the risk limits is set. *)
Theorem trading_allowed_only_within_the_limits (clk : Clock) (t : Terminal)
    (s0 : State) (sym : string) :
  (check_trading_allowed clk t s0 sym).2 = true ->
  let s := (check_trading_allowed clk t s0 sym).1 in
  let cfg := risk_limits_cfg (config s) in
  (Z.of_nat (size (positions s)) < max_open_positions cfg)%Z
  /\ (forall a, account_info s = Some a ->
        drawdown_percent a <= max_drawdown_percent cfg)
  /\ (forall sym',
        let n := positions_on sym' (position_values s) in
        n = 0%Z \/ (n < max_positions_per_symbol cfg)%Z)
  /\ _check_trading_time clk s = true
  /\ risk_limits s = limits false false false false false ∅ false.
Proof.
  unfold check_trading_allowed.
  destruct (check_risk_limits clk t s0) as [s ok] eqn:Hc.
  destruct ok; [|discriminate]. simpl negb. cbv iota.
  assert ((check_risk_limits clk t s0).2 = true) as Hok by (rewrite Hc; reflexivity).
  destruct (check_risk_limits_passed clk t s0 Hok) as (Heq & Hmp & Hdd & Hsym).
  rewrite Hc in Heq. injection Heq as ->.
  set (s1 := (update_positions t (update_account_info t s0).1).1) in *.
  set (s := set_risk_limits _ s1).
  destruct (_check_trading_time clk s) eqn:Htime; [|discriminate].
  simpl negb. cbv iota.
  assert ((if negb (sym =? "")%string
           then if (max_positions_per_symbol (risk_limits_cfg (config s))
                    <=? Z.of_nat (length (filter (fun p => symbol p = sym)
                                                 (position_values s))))%Z
                then (s, false)
                else if default false (max_risk_per_symbol_reached (risk_limits s) !! sym)
                     then (s, false)
                     else if vf_enabled (volatility_filter (config s))
                             && negb (_check_volatility_filter t s sym)
                          then (s, false) else (s, true)
           else (s, true)).1 = s) as Hfst.
  { repeat case_match; reflexivity. }
  intros _. rewrite Hfst.
  split; [exact Hmp|]. split; [exact Hdd|]. split; [|split; [exact Htime|reflexivity]].
  intros sym'. cbv zeta.
  pose proof (symbol_flags_lookup (max_positions_per_symbol (risk_limits_cfg (config s1)))
                (position_values s1) sym') as Hl.
  rewrite Hsym, lookup_empty in Hl.
  change (position_values s) with (position_values s1).
  change (config s) with (config s1).
  set (n := positions_on sym' (position_values s1)) in *.
  destruct (0 <? n)%Z eqn:H0; simpl in Hl.
  - destruct (_ <=? n)%Z eqn:H1; [discriminate|].
    right. apply Z.leb_gt in H1. exact H1.
  - left. apply Z.ltb_ge in H0. unfold n, positions_on in *. lia.
Qed.

Lemma trading_allowed_only_within_the_limits_witness :
  let s := (check_trading_allowed Scenarios.clock Scenarios.terminal_1000
              (init default_config) "EURUSD").1 in
  (Z.of_nat (size (positions s)) < 5)%Z
  /\ _check_trading_time Scenarios.clock s = true.
Proof.
  destruct (trading_allowed_only_within_the_limits Scenarios.clock
              Scenarios.terminal_1000 (init default_config) "EURUSD")
    as (H1 & _ & _ & H2 & _).
  - vm_compute. reflexivity.
  - split; [exact H1|exact H2].
Defined.

(** *** Rounding to the volume step *)

(** X8: the volume rounded to a positive step is the double nearest to a
    whole multiple of the step, and that multiple lies within a step (half a
    step for the nearest policy) of the volume, on the side that the policy
    names, up to the error of the float quotient: one part in [2 ** 53] of
    the volume. *)
Theorem round_to_step_stays_within_a_step (rounding : string) (v step : Q) :
  0 <= v -> 0 < step ->
  let tolerance := v / Qpower 2 53 in
  exists n : Z,
    round_to_step rounding v step = Py.fl (inject_Z n * step)
    /\ Qabs (round_to_step rounding v step - inject_Z n * step) * Qpower 2 53
       <= Qabs (inject_Z n * step)
    /\ (if String.eqb rounding "up"
        then v - tolerance <= inject_Z n * step
             /\ inject_Z n * step < v + tolerance + step
        else if String.eqb rounding "down"
        then v - tolerance - step < inject_Z n * step
             /\ inject_Z n * step <= v + tolerance
        else Qabs (inject_Z n * step - v) <= step / 2 + tolerance).
Proof.
  intros Hv Hs tolerance.
  pose proof (FloatFacts.fl_quotient_near v step Hv Hs) as Hq.
  pose proof (FloatFacts.pow2_pos 53) as Hp.
  apply Qabs_Qle_condition in Hq. destruct Hq as [Hq1 Hq2].
  assert (v / step * step == v) as Hvs by (field; lra).
  assert (v / step / Qpower 2 53 * step == tolerance) as Hts
    by (unfold tolerance; field; lra).
  set (w := v / step) in *. set (t := w / Qpower 2 53) in *.
  clearbody tolerance.
  unfold round_to_step. cbv zeta. fold w.
  set (q := Py.fl w) in *.
  destruct (String.eqb rounding "up").
  { exists (Qceiling q). split; [reflexivity|].
    split; [apply FloatFacts.fl_error|].
    pose proof (Qle_ceiling q) as H1. pose proof (Qceiling_lt q) as H2.
    assert (inject_Z (Qceiling q - 1) == inject_Z (Qceiling q) - 1) as Hn
      by (unfold Z.sub; rewrite inject_Z_plus; reflexivity).
    rewrite Hn in H2.
    set (n := inject_Z (Qceiling q)) in *.
    assert ((w - t) * step <= n * step) as A
      by (apply FloatFacts.scale_le; [exact Hs|lra]).
    assert (n * step < (w + t + 1) * step) as B
      by (apply FloatFacts.scale_lt; [exact Hs|lra]).
    split; lra. }
  destruct (String.eqb rounding "down").
  { exists (Qfloor q). split; [reflexivity|].
    split; [apply FloatFacts.fl_error|].
    pose proof (Qfloor_le q) as H1. pose proof (Qlt_floor q) as H2.
    assert (inject_Z (Qfloor q + 1) == inject_Z (Qfloor q) + 1) as Hn
      by (rewrite inject_Z_plus; reflexivity).
    rewrite Hn in H2.
    set (n := inject_Z (Qfloor q)) in *.
    assert ((w - t - 1) * step < n * step) as A
      by (apply FloatFacts.scale_lt; [exact Hs|lra]).
    assert (n * step <= (w + t) * step) as B
      by (apply FloatFacts.scale_le; [exact Hs|lra]).
    split; lra. }
  destruct (PyFacts.round_integer q) as [k Hk].
  exists k. rewrite Hk. split; [reflexivity|].
  split; [apply FloatFacts.fl_error|].
  pose proof (LevelsProofs.round_half q) as Hr. rewrite Hk in Hr.
  apply Qabs_Qle_condition in Hr. destruct Hr as [Hr1 Hr2].
  set (n := inject_Z k) in *.
  assert ((w - t - (1 # 2)) * step <= n * step) as A
    by (apply FloatFacts.scale_le; [exact Hs|lra]).
  assert (n * step <= (w + t + (1 # 2)) * step) as B
    by (apply FloatFacts.scale_le; [exact Hs|lra]).
  assert (step / 2 == (1 # 2) * step) as Hh by (field; lra).
  apply Qabs_Qle_condition. split; lra.
Qed.

Lemma round_to_step_stays_within_a_step_witness :
  let v := Py.fl 0.29 in
  let step := Py.fl 0.01 in
  0 <= v /\ 0 < step
  /\ exists n : Z,
       round_to_step "down" v step = Py.fl (inject_Z n * step)
       /\ Qabs (round_to_step "down" v step - inject_Z n * step) * Qpower 2 53
          <= Qabs (inject_Z n * step)
       /\ v - v / Qpower 2 53 - step < inject_Z n * step
       /\ inject_Z n * step <= v + v / Qpower 2 53.
Proof.
  intros v step.
  assert (Hv : 0 <= v) by (vm_compute; discriminate).
  assert (Hs : 0 < step) by (vm_compute; reflexivity).
  split; [exact Hv|]. split; [exact Hs|].
  exact (round_to_step_stays_within_a_step "down" v step Hv Hs).
Defined.

(** A volume of 0.29 lots in steps of 0.01: the float quotient is under 29
    and rounding down answers 0.28 lots; 0.07 lots rounded up are 0.08
    lots, the float quotient being over 7. *)
Example round_to_step_a_whole_step_off :
  Py.fl (Py.fl 0.29 / Py.fl 0.01) < 29
  /\ round_to_step "down" (Py.fl 0.29) (Py.fl 0.01) == Py.fl 0.28
  /\ 7 < Py.fl (Py.fl 0.07 / Py.fl 0.01)
  /\ round_to_step "up" (Py.fl 0.07) (Py.fl 0.01) == Py.fl 0.08.
Proof. vm_compute. repeat split; reflexivity. Qed.

End RiskChecksProofs.

(** ** Loading the configuration *)
Module ConfigFileProofs.
Import ConfigFile.

Lemma merge_value_dict d1 d2 :
  merge_value (Some (JDict d1)) (JDict d2) = JDict (merge_dict d1 d2).
Proof. reflexivity. Qed.

Lemma lookup_merge_dict d1 d2 k :
  merge_dict d1 d2 !! k
  = match d2 !! k with
    | Some v => Some (merge_value (d1 !! k) v)
    | None => d1 !! k
    end.
Proof.
  unfold merge_dict. rewrite lookup_union, map_lookup_imap.
  destruct (d2 !! k) as [v|]; simpl.
  - destruct (d1 !! k); reflexivity.
  - destruct (d1 !! k); reflexivity.
Qed.

Lemma merge_value_not_dict old v : is_dict v = false -> merge_value old v = v.
Proof. destruct v; try discriminate; destruct old as [[]|]; reflexivity. Qed.

Lemma merge_dict_file_wins p : forall d1 d2 v,
  lookup_path p (JDict d2) = Some v -> is_dict v = false ->
  lookup_path p (JDict (merge_dict d1 d2)) = Some v.
Proof.
  induction p as [|k p IH]; intros d1 d2 v Hl Hv.
  - simpl in Hl. injection Hl as <-. discriminate.
  - simpl in Hl |- *. rewrite lookup_merge_dict.
    destruct (d2 !! k) as [w|] eqn:Hk; [|discriminate].
    destruct p as [|k' p'].
    + simpl in Hl |- *. injection Hl as ->.
      rewrite merge_value_not_dict by assumption. reflexivity.
    + destruct w as [| | | | |d2']; try discriminate.
      destruct (d1 !! k) as [[| | | | |d1']|]; try exact Hl.
      rewrite merge_value_dict. apply IH; assumption.
Qed.

Lemma merge_dict_defaults_survive p : forall d1 d2 v,
  lookup_path p (JDict d1) = Some v -> untouched p (JDict d2) = true ->
  lookup_path p (JDict (merge_dict d1 d2)) = Some v.
Proof.
  induction p as [|k p IH]; intros d1 d2 v Hl Hu.
  - discriminate.
  - simpl in Hl, Hu |- *. rewrite lookup_merge_dict.
    destruct (d1 !! k) as [u|] eqn:Hk; [|discriminate].
    destruct (d2 !! k) as [w|]; [|exact Hl].
    apply andb_true_iff in Hu as [Hw Hu].
    destruct w as [| | | | |d2']; try discriminate.
    destruct p as [|k' p']; [discriminate|].
    destruct u as [| | | | |d1']; try discriminate.
    rewrite merge_value_dict. apply IH; assumption.
Qed.

(** X1: a value that the configuration file gives at a path of keys, and
    that is not itself a dictionary, is the value of the loaded
    configuration at that path, whatever the defaults hold there. *)
Theorem loaded_config_file_values_win (default_config config : gmap string Json)
    (p : list string) (v : Json) :
  lookup_path p (JDict config) = Some v ->
  is_dict v = false ->
  lookup_path p (JDict (_load_config default_config (Some (Some (JDict config)))))
  = Some v.
Proof. intros Hl Hv. simpl. apply merge_dict_file_wins; assumption. Qed.

Lemma loaded_config_file_values_win_witness :
  lookup_path ["risk_limits"; "max_open_positions"]
    (JDict (_load_config defaults_example (Some (Some (JDict file_example)))))
  = Some (JNum 8).
Proof.
  apply (loaded_config_file_values_win defaults_example file_example
           ["risk_limits"; "max_open_positions"] (JNum 8)).
  - vm_compute. reflexivity.
  - reflexivity.
Defined.

(** X2: a default at a path of keys about which the file says nothing (the
    file has no such key, at the end of dictionaries nested along the path)
    is still the value of the loaded configuration; so are all defaults when
    there is no file, when it cannot be read or when it is no object. *)
Theorem loaded_config_defaults_survive (default_config : gmap string Json)
    (file : option (option Json)) (p : list string) (v : Json) :
  lookup_path p (JDict default_config) = Some v ->
  match file with
  | Some (Some (JDict config)) => untouched p (JDict config) = true
  | _ => True
  end ->
  lookup_path p (JDict (_load_config default_config file)) = Some v.
Proof.
  intros Hl Hu.
  destruct file as [[[| | | | |config]|]|]; simpl; try exact Hl.
  apply merge_dict_defaults_survive; assumption.
Qed.

Lemma loaded_config_defaults_survive_witness :
  lookup_path ["risk_limits"; "max_daily_loss_percent"]
    (JDict (_load_config defaults_example (Some (Some (JDict file_example)))))
  = Some (JNum 3).
Proof.
  apply (loaded_config_defaults_survive defaults_example
           (Some (Some (JDict file_example)))
           ["risk_limits"; "max_daily_loss_percent"] (JNum 3)).
  - vm_compute. reflexivity.
  - vm_compute. reflexivity.
Defined.

End ConfigFileProofs.

(** ** History, statistics and closing *)
Module HistoryProofs.
Import RiskManager History.

Lemma group_by_lookup {K} `{Countable K} (key : Trade -> K) (h : list Trade) (k : K) :
  group_by key h !! k = match filter (fun tr => key tr = k) h with
                        | [] => None
                        | g => Some g
                        end.
Proof.
  induction h as [|tr h IH]; [apply lookup_empty|].
  change (group_by key (tr :: h))
    with (<[key tr := tr :: default [] (group_by key h !! key tr)]> (group_by key h)).
  rewrite filter_cons. destruct (decide (key tr = k)) as [->|Hne].
  - rewrite lookup_insert_eq, IH.
    destruct (filter _ h); reflexivity.
  - rewrite lookup_insert_ne by exact Hne. exact IH.
Qed.

Lemma stats_lookup {K} `{Countable K} (key : Trade -> K) (h : list Trade) (k : K) :
  (stat_of <$> group_by key h) !! k = row_of (filter (fun tr => key tr = k) h).
Proof.
  rewrite lookup_fmap, group_by_lookup.
  destruct (filter _ h); reflexivity.
Qed.

Lemma wins_le (g : list Trade) :
  (length (List.filter (fun tr => Py.gtb (tr_profit tr) 0) g) <= length g)%nat.
Proof. apply List.filter_length_le. Qed.

Lemma stat_of_row (g : list Trade) :
  g <> [] ->
  (0 < st_trades (stat_of g))%Z
  /\ (st_wins (stat_of g) + st_losses (stat_of g) = st_trades (stat_of g))%Z
  /\ (0 <= st_wins (stat_of g))%Z /\ (0 <= st_losses (stat_of g))%Z
  /\ 0 <= st_win_rate (stat_of g) /\ st_win_rate (stat_of g) <= 100.
Proof.
  intros Hg. pose proof (wins_le g) as Hw.
  assert (0 < length g)%nat as Hlen by (destruct g; [congruence|simpl; lia]).
  unfold stat_of; simpl.
  set (w := length (List.filter _ g)) in *.
  repeat split; try lia.
  - assert (0 <= inject_Z (Z.of_nat w)) by (rewrite <- (Zle_Qle 0); lia).
    assert (0 < inject_Z (Z.of_nat (length g))) by (rewrite <- (Zlt_Qlt 0); lia).
    apply Qmult_le_0_compat; [|lra].
    apply Qle_shift_div_l; [assumption|lra].
  - assert (inject_Z (Z.of_nat w) <= inject_Z (Z.of_nat (length g)))
      by (rewrite <- Zle_Qle; lia).
    assert (0 < inject_Z (Z.of_nat (length g))) by (rewrite <- (Zlt_Qlt 0); lia).
    assert (inject_Z (Z.of_nat w) / inject_Z (Z.of_nat (length g)) <= 1).
    { apply Qle_shift_div_r; [assumption|lra]. }
    lra.
Qed.

(** X16: after [_update_statistics] on a history that is not empty, the
    row of a day, of a week or of a month is there exactly when a trade was
    closed in that period and summarises the trades closed in it; in every
    row the wins and losses add up to the trades and the win rate lies
    between 0 and 100. On an empty history the old statistics stay. *)
Theorem statistics_are_those_of_the_period (date_of year_of week_of month_of : Z -> Z)
    (s : State) :
  let s' := _update_statistics date_of year_of week_of month_of s in
  let h := trade_history s in
  match h with
  | [] => s' = s
  | _ :: _ =>
      (forall d,
         daily_stats s' !! d
         = row_of (filter (fun tr => date_of (tr_close_time tr) = d) h))
      /\ (forall y w,
            weekly_stats s' !! (y, w)
            = row_of (filter (fun tr => (year_of (tr_close_time tr),
                                         week_of (tr_close_time tr)) = (y, w)) h))
      /\ (forall y m,
            monthly_stats s' !! (y, m)
            = row_of (filter (fun tr => (year_of (tr_close_time tr),
                                         month_of (tr_close_time tr)) = (y, m)) h))
      /\ (forall d row,
            daily_stats s' !! d = Some row ->
            (0 < st_trades row)%Z
            /\ (st_wins row + st_losses row = st_trades row)%Z
            /\ (0 <= st_wins row)%Z /\ (0 <= st_losses row)%Z
            /\ 0 <= st_win_rate row /\ st_win_rate row <= 100)
  end.
Proof.
  unfold _update_statistics.
  destruct (trade_history s) as [|tr h] eqn:Hh; [reflexivity|].
  cbv zeta. unfold set_statistics; cbn [daily_stats weekly_stats monthly_stats].
  split; [|split; [|split]].
  - intros d. apply (stats_lookup (fun tr => date_of (tr_close_time tr))).
  - intros y w.
    apply (stats_lookup (fun tr => (year_of (tr_close_time tr), week_of (tr_close_time tr)))).
  - intros y m.
    apply (stats_lookup (fun tr => (year_of (tr_close_time tr), month_of (tr_close_time tr)))).
  - intros d row Hrow.
    rewrite (stats_lookup (fun tr => date_of (tr_close_time tr))) in Hrow.
    destruct (filter _ (tr :: h)) as [|x g] eqn:Hf; [discriminate|].
    injection Hrow as <-. apply stat_of_row. discriminate.
Qed.

(** *** Pairing of deals *)

Lemma pair_deals_length (deals : list Deal) : forall cur,
  (length (pair_deals cur deals) <= count_entry DEAL_ENTRY_OUT deals)%nat
  /\ (length (pair_deals cur deals)
      <= (match cur with Some _ => 1 | None => 0 end) + count_entry DEAL_ENTRY_IN deals)%nat.
Proof.
  unfold count_entry.
  induction deals as [|d deals IH]; intros cur; [simpl; lia|].
  simpl. rewrite !filter_cons.
  destruct (d_entry d =? DEAL_ENTRY_IN)%Z eqn:Hin.
  - apply Z.eqb_eq in Hin.
    destruct (IH (Some d)) as [H1 H2].
    rewrite (decide_True (P := d_entry d = DEAL_ENTRY_IN)) by exact Hin.
    rewrite (decide_False (P := d_entry d = DEAL_ENTRY_OUT))
      by (rewrite Hin; discriminate).
    simpl. destruct cur; lia.
  - apply Z.eqb_neq in Hin.
    rewrite (decide_False (P := d_entry d = DEAL_ENTRY_IN)) by exact Hin.
    destruct (d_entry d =? DEAL_ENTRY_OUT)%Z eqn:Hout.
    + apply Z.eqb_eq in Hout.
      rewrite (decide_True (P := d_entry d = DEAL_ENTRY_OUT)) by exact Hout.
      destruct (IH None) as [H1 H2]. destruct cur; simpl in *; lia.
    + apply Z.eqb_neq in Hout.
      rewrite (decide_False (P := d_entry d = DEAL_ENTRY_OUT)) by exact Hout.
      apply IH.
Qed.

Lemma pair_deals_In (deals : list Deal) : forall cur tr,
  In tr (pair_deals cur deals) ->
  (exists opening between closing after,
      cur = Some opening /\ deals = between ++ closing :: after
      /\ Forall neutral between /\ d_entry closing = DEAL_ENTRY_OUT
      /\ tr = trade_of opening closing)
  \/ (exists before opening between closing after,
        deals = before ++ opening :: between ++ closing :: after
        /\ d_entry opening = DEAL_ENTRY_IN
        /\ Forall neutral between /\ d_entry closing = DEAL_ENTRY_OUT
        /\ tr = trade_of opening closing).
Proof.
  induction deals as [|d deals IH]; intros cur tr Hin; [destruct Hin|].
  simpl in Hin.
  destruct (d_entry d =? DEAL_ENTRY_IN)%Z eqn:Hi.
  - apply Z.eqb_eq in Hi. right.
    destruct (IH _ _ Hin) as [(o & b & c & a & Hc & -> & Hb & Hout & ->)
                             |(bf & o & b & c & a & -> & Ho & Hb & Hout & ->)].
    + injection Hc as <-. exists [], d, b, c, a. auto.
    + exists (d :: bf), o, b, c, a. auto.
  - apply Z.eqb_neq in Hi.
    destruct (d_entry d =? DEAL_ENTRY_OUT)%Z eqn:Ho.
    + apply Z.eqb_eq in Ho.
      assert (In tr (pair_deals None deals)
              \/ exists opening, cur = Some opening /\ tr = trade_of opening d) as [Hr|Hr].
      { destruct cur as [o|]; [|left; exact Hin].
        destruct Hin as [<-|Hin]; [right; eauto|left; exact Hin]. }
      * right.
        destruct (IH _ _ Hr) as [(o & b & c & a & Hc & _)
                                |(bf & o & b & c & a & -> & Hop & Hb & Hout & ->)];
          [discriminate|].
        exists (d :: bf), o, b, c, a. auto.
      * destruct Hr as (o & -> & ->). left.
        exists o, [], d, deals. auto.
    + apply Z.eqb_neq in Ho.
      destruct (IH _ _ Hin) as [(o & b & c & a & Hc & -> & Hb & Hout & ->)
                               |(bf & o & b & c & a & -> & Hop & Hb & Hout & ->)].
      * left. exists o, (d :: b), c, a.
        repeat split; auto. constructor; [split; assumption|assumption].
      * right. exists (d :: bf), o, b, c, a. auto.
Qed.

Lemma update_statistics_keeps date_of year_of week_of month_of s :
  let s' := _update_statistics date_of year_of week_of month_of s in
  positions s' = positions s /\ config s' = config s
  /\ account_info s' = account_info s /\ trade_history s' = trade_history s
  /\ risk_limits s' = risk_limits s.
Proof.
  unfold _update_statistics. destruct (trade_history s) eqn:Hh; simpl; auto.
Qed.

(** X15: every trade that [update_trade_history] records joins an opening
    deal with the first closing deal after it, with no opening deal in
    between; there are no more trades than opening deals nor than closing
    deals; the positions and the account are untouched, and nothing changes
    when the terminal answers no history. *)
Theorem update_trade_history_pairs_deals (date_of year_of week_of month_of : Z -> Z)
    (history : option (list Deal)) (s : State) :
  let s' := (update_trade_history date_of year_of week_of month_of history s).1 in
  match history with
  | None => s' = s
  | Some deals =>
      (length (trade_history s') <= count_entry DEAL_ENTRY_IN deals)%nat
      /\ (length (trade_history s') <= count_entry DEAL_ENTRY_OUT deals)%nat
      /\ (forall tr, In tr (trade_history s') ->
            exists before opening between closing after,
              deals = before ++ opening :: between ++ closing :: after
              /\ d_entry opening = DEAL_ENTRY_IN
              /\ Forall neutral between
              /\ d_entry closing = DEAL_ENTRY_OUT
              /\ tr = trade_of opening closing)
      /\ positions s' = positions s /\ account_info s' = account_info s
  end.
Proof.
  destruct history as [deals|]; [|reflexivity].
  cbv zeta. unfold update_trade_history. cbn [fst].
  destruct (update_statistics_keeps date_of year_of week_of month_of
              (set_trade_history (pair_deals None deals) s))
    as (Hp & _ & Ha & Hh & _).
  rewrite Hp, Ha, Hh. cbn [set_trade_history trade_history positions account_info].
  destruct (pair_deals_length deals None) as [H1 H2].
  split; [simpl in H2; lia|]. split; [exact H1|]. split; [|auto].
  intros tr Hin.
  destruct (pair_deals_In _ _ _ Hin) as [(o & b & c & a & Hc & _)|H]; [discriminate|exact H].
Qed.


(** *** Closing positions *)

Section Closing.

Variables date_of year_of week_of month_of : Z -> Z.
Variable history_deals_get : Terminal -> option (list Deal).

Lemma update_trade_history_keeps history s :
  let s' := (update_trade_history date_of year_of week_of month_of history s).1 in
  positions s' = positions s /\ config s' = config s.
Proof.
  destruct history as [deals|]; [|split; reflexivity].
  cbv zeta. unfold update_trade_history. cbn [fst].
  destruct (update_statistics_keeps date_of year_of week_of month_of
              (set_trade_history (pair_deals None deals) s)) as (Hp & Hc & _).
  rewrite Hp, Hc. split; reflexivity.
Qed.

Lemma order_send_accepted r t :
  t_accepts t r = true ->
  order_send r t = (true, with_positions t (apply_request r <$> t_positions_get t)).
Proof. unfold order_send. intros ->. reflexivity. Qed.

Lemma order_send_refused r t : t_accepts t r = false -> order_send r t = (false, t).
Proof. unfold order_send. intros ->. reflexivity. Qed.

Lemma close_position_cases t s k :
  match positions s !! k with
  | Some p =>
      match t_symbol_info_tick t (symbol p) with
      | Some last_tick =>
          if can_close t k p then
            exists s',
              close_position date_of year_of week_of month_of history_deals_get t s k
              = (true, s',
                 with_positions t (apply_request (closing_deal k p last_tick)
                                     <$> t_positions_get t))
              /\ positions s' = delete k (positions s) /\ config s' = config s
          else close_position date_of year_of week_of month_of history_deals_get t s k
               = (false, s, t)
      | None =>
          can_close t k p = false
          /\ close_position date_of year_of week_of month_of history_deals_get t s k
             = (false, s, t)
      end
  | None =>
      close_position date_of year_of week_of month_of history_deals_get t s k
      = (false, s, t)
  end.
Proof.
  unfold close_position, can_close.
  destruct (positions s !! k) as [p|]; [|reflexivity].
  destruct (t_symbol_info_tick t (symbol p)) as [last_tick|]; [|split; reflexivity].
  destruct (t_accepts t (closing_deal k p last_tick)) eqn:Hacc.
  - rewrite (order_send_accepted _ _ Hacc).
    eexists. split; [reflexivity|].
    destruct (update_trade_history_keeps
                (history_deals_get
                   (with_positions t (apply_request (closing_deal k p last_tick)
                                        <$> t_positions_get t)))
                (set_positions (delete k (positions s)) s)) as [Hp Hc].
    rewrite Hp, Hc. split; reflexivity.
  - rewrite (order_send_refused _ _ Hacc). reflexivity.
Qed.

(** X13: [close_position] answers [True] exactly when the manager holds a
    position under the ticket, a tick is quoted for its symbol and the
    terminal accepts the closing deal. It then forgets that ticket and no
    other, and the terminal has applied the deal for the whole volume;
    otherwise neither the manager nor the terminal has changed. *)
Theorem close_position_removes_its_ticket_only (t : Terminal) (s : State) (k : Z) :
  let '(ok, s', t') :=
    close_position date_of year_of week_of month_of history_deals_get t s k in
  (ok = true <-> exists p, positions s !! k = Some p /\ can_close t k p = true)
  /\ (if ok
      then positions s' = delete k (positions s)
           /\ config s' = config s
           /\ exists p last_tick,
                positions s !! k = Some p
                /\ t_symbol_info_tick t (symbol p) = Some last_tick
                /\ t' = with_positions t (apply_request (closing_deal k p last_tick)
                                            <$> t_positions_get t)
      else s' = s /\ t' = t).
Proof.
  pose proof (close_position_cases t s k) as H.
  destruct (positions s !! k) as [p|] eqn:Hk.
  - destruct (t_symbol_info_tick t (symbol p)) as [last_tick|] eqn:Htick.
    + destruct (can_close t k p) eqn:Hc.
      * destruct H as (s' & -> & Hp & Hcfg). split.
        -- split; [intros _; eauto|reflexivity].
        -- split; [exact Hp|]. split; [exact Hcfg|]. eauto.
      * rewrite H. split; [|split; reflexivity].
        split; [discriminate|]. intros (q & Hq & Hq'). congruence.
    + destruct H as [Hc ->]. split; [|split; reflexivity].
      split; [discriminate|]. intros (q & Hq & Hq'). congruence.
  - rewrite H. split; [|split; reflexivity].
    split; [discriminate|]. intros (q & Hq & _). discriminate.
Qed.

Lemma close_position_outcome t s k :
  match positions s !! k with
  | Some p =>
      if can_close t k p then
        exists s' ps,
          close_position date_of year_of week_of month_of history_deals_get t s k
          = (true, s', with_positions t ps)
          /\ positions s' = delete k (positions s)
      else close_position date_of year_of week_of month_of history_deals_get t s k
           = (false, s, t)
  | None =>
      close_position date_of year_of week_of month_of history_deals_get t s k
      = (false, s, t)
  end.
Proof.
  pose proof (close_position_cases t s k) as H.
  destruct (positions s !! k) as [p|]; [|exact H].
  destruct (t_symbol_info_tick t (symbol p)) as [last_tick|].
  - destruct (can_close t k p); [|exact H].
    destruct H as (s' & H & Hp & _). eauto.
  - destruct H as [-> H]. exact H.
Qed.

Lemma forallb_agree {A} (f g : A -> bool) (l : list A) :
  (forall x, In x l -> f x = g x) -> forallb f l = forallb g l.
Proof.
  induction l as [|x l IH]; intros H; [reflexivity|].
  simpl. rewrite (H x) by (left; reflexivity).
  rewrite IH; [reflexivity|]. intros y Hy. apply H. right. exact Hy.
Qed.

Lemma closing_fold_step ok0 s0 t0 k :
  closing_fold date_of year_of week_of month_of history_deals_get (ok0, s0, t0) k
  = (if (close_position date_of year_of week_of month_of history_deals_get t0 s0 k).1.1
     then ok0 else false,
     (close_position date_of year_of week_of month_of history_deals_get t0 s0 k).1.2,
     (close_position date_of year_of week_of month_of history_deals_get t0 s0 k).2).
Proof.
  unfold closing_fold.
  destruct (close_position date_of year_of week_of month_of history_deals_get t0 s0 k)
    as [[? ?] ?].
  reflexivity.
Qed.

Lemma closing_fold_spec (t : Terminal) (l : list Z) : forall ok0 s0 t0,
  NoDup l ->
  (forall k p, can_close t0 k p = can_close t k p) ->
  let '(ok, s', t') :=
    foldl (closing_fold date_of year_of week_of month_of history_deals_get)
          (ok0, s0, t0) l in
  (forall k,
     positions s' !! k
     = match positions s0 !! k with
       | Some p => if bool_decide (k ∈ l) && can_close t k p then None else Some p
       | None => None
       end)
  /\ ok = ok0 && forallb (fun k => match positions s0 !! k with
                                   | Some p => can_close t k p
                                   | None => false
                                   end) l.
Proof.
  induction l as [|k l IH]; intros ok0 s0 t0 Hnd Ht.
  - simpl. split.
    + intros k. destruct (positions s0 !! k); reflexivity.
    + rewrite andb_true_r. reflexivity.
  - apply NoDup_cons in Hnd as [Hk Hnd].
    change (foldl (closing_fold date_of year_of week_of month_of history_deals_get)
              (ok0, s0, t0) (k :: l))
      with (foldl (closing_fold date_of year_of week_of month_of history_deals_get)
              (closing_fold date_of year_of week_of month_of history_deals_get
                 (ok0, s0, t0) k) l).
    rewrite closing_fold_step.
    pose proof (close_position_outcome t0 s0 k) as Hc.
    destruct (positions s0 !! k) as [p|] eqn:Hp.
    + rewrite Ht in Hc. destruct (can_close t k p) eqn:Hcan.
      * destruct Hc as (s1 & ps & Hc & Hp1). rewrite Hc. cbn [fst snd].
        specialize (IH ok0 s1 (with_positions t0 ps) Hnd (fun k' q => Ht k' q)).
        destruct (foldl _ _ l) as [[ok s'] t'].
        destruct IH as [IH1 IH2]. split.
        -- intros k'. rewrite IH1, Hp1.
           destruct (decide (k' = k)) as [->|Hne].
           ++ rewrite lookup_delete_eq, Hp.
              rewrite bool_decide_eq_true_2 by (apply elem_of_cons; left; reflexivity).
              rewrite Hcan. reflexivity.
           ++ rewrite lookup_delete_ne by congruence.
              destruct (positions s0 !! k') as [q|]; [|reflexivity].
              destruct (decide (k' ∈ l)) as [Hin|Hnin].
              ** rewrite !bool_decide_eq_true_2;
                   [reflexivity|apply elem_of_cons; right; exact Hin|exact Hin].
              ** rewrite !bool_decide_eq_false_2; [reflexivity| |exact Hnin].
                 intros [?|?]%elem_of_cons; contradiction.
        -- rewrite IH2. simpl. rewrite Hp.
           assert (forallb (fun k0 => match positions s1 !! k0 with
                                      | Some p0 => can_close t k0 p0
                                      | None => false
                                      end) l
                   = forallb (fun k0 => match positions s0 !! k0 with
                                        | Some p0 => can_close t k0 p0
                                        | None => false
                                        end) l) as ->.
           { apply forallb_agree. intros k0 Hk0. rewrite Hp1.
             rewrite lookup_delete_ne; [reflexivity|].
             intros <-. apply Hk. apply list_elem_of_In. exact Hk0. }
           rewrite Hcan. reflexivity.
      * rewrite Hc. cbn [fst snd].
        specialize (IH false s0 t0 Hnd Ht).
        destruct (foldl _ _ l) as [[ok s'] t'].
        destruct IH as [IH1 IH2]. split.
        -- intros k'. rewrite IH1.
           destruct (positions s0 !! k') as [q|] eqn:Hq; [|reflexivity].
           destruct (decide (k' = k)) as [->|Hne].
           ++ assert (q = p) as -> by congruence.
              rewrite Hcan, !andb_false_r. reflexivity.
           ++ destruct (decide (k' ∈ l)) as [Hin|Hnin].
              ** rewrite !bool_decide_eq_true_2;
                   [reflexivity|apply elem_of_cons; right; exact Hin|exact Hin].
              ** rewrite !bool_decide_eq_false_2; [reflexivity| |exact Hnin].
                 intros [?|?]%elem_of_cons; contradiction.
        -- rewrite IH2. simpl. rewrite Hp, Hcan. simpl.
           rewrite andb_false_r. reflexivity.
    + rewrite Hc. cbn [fst snd].
      specialize (IH false s0 t0 Hnd Ht).
      destruct (foldl _ _ l) as [[ok s'] t'].
      destruct IH as [IH1 IH2]. split.
      * intros k'. rewrite IH1.
        destruct (positions s0 !! k') as [q|] eqn:Hq; [|reflexivity].
        destruct (decide (k' = k)) as [->|Hne]; [congruence|].
        destruct (decide (k' ∈ l)) as [Hin|Hnin].
        -- rewrite !bool_decide_eq_true_2;
             [reflexivity|apply elem_of_cons; right; exact Hin|exact Hin].
        -- rewrite !bool_decide_eq_false_2; [reflexivity| |exact Hnin].
           intros [?|?]%elem_of_cons; contradiction.
      * rewrite IH2. simpl. rewrite Hp. simpl.
        rewrite andb_false_r. reflexivity.
Qed.

Variable dict_keys : gmap Z Position -> list Z.

(** X14: when the keys of the positions are enumerated without a repeat,
    [close_all_positions] closes every position that can be closed and keeps
    the others, whatever the order of the enumeration; it answers [True]
    exactly when no position is left. *)
Theorem close_all_positions_closes_what_it_can (t : Terminal) (s : State) :
  dict_keys (positions s) ≡ₚ (map_to_list (positions s)).*1 ->
  let '(ok, s', t') :=
    close_all_positions date_of year_of week_of month_of history_deals_get
                        dict_keys t s in
  (forall k,
     positions s' !! k
     = match positions s !! k with
       | Some p => if can_close t k p then None else Some p
       | None => None
       end)
  /\ (ok = true <-> positions s' = ∅).
Proof.
  intros Hperm. unfold close_all_positions.
  destruct (map_is_empty (positions s)) eqn:He.
  - apply RiskChecksProofs.map_is_empty_true in He.
    split; [|split; auto].
    intros k. rewrite He, lookup_empty. reflexivity.
  - assert (NoDup (dict_keys (positions s))) as Hnd.
    { rewrite Hperm. apply NoDup_fst_map_to_list. }
    pose proof (closing_fold_spec t (dict_keys (positions s)) true s t Hnd
                  (fun k p => eq_refl)) as Hspec.
    destruct (foldl _ _ _) as [[ok s'] t'].
    destruct Hspec as [Hl Hok].
    assert (forall k p, positions s !! k = Some p -> k ∈ dict_keys (positions s)) as Hin.
    { intros k p Hk. rewrite Hperm. apply list_elem_of_fmap.
      exists (k, p). split; [reflexivity|]. apply elem_of_map_to_list. exact Hk. }
    assert (forall k,
              positions s' !! k
              = match positions s !! k with
                | Some p => if can_close t k p then None else Some p
                | None => None
                end) as Hl'.
    { intros k. rewrite Hl. destruct (positions s !! k) as [p|] eqn:Hk; [|reflexivity].
      rewrite bool_decide_eq_true_2 by (eapply Hin; exact Hk). reflexivity. }
    split; [exact Hl'|].
    rewrite Hok. simpl. rewrite forallb_forall. split.
    + intros Hall. apply map_eq. intros k. rewrite Hl', lookup_empty.
      destruct (positions s !! k) as [p|] eqn:Hk; [|reflexivity].
      specialize (Hall k). rewrite Hk in Hall.
      rewrite Hall; [reflexivity|].
      apply list_elem_of_In. eapply Hin. exact Hk.
    + intros Hempty k Hk. apply list_elem_of_In in Hk.
      rewrite Hperm in Hk. apply list_elem_of_fmap in Hk as ([k' p] & -> & Hkp).
      apply elem_of_map_to_list in Hkp. simpl. rewrite Hkp.
      specialize (Hl' k'). rewrite Hempty, lookup_empty, Hkp in Hl'.
      destruct (can_close t k' p); [reflexivity|discriminate].
Qed.

End Closing.

End HistoryProofs.

(** ** Stop distance and recovery mode *)
Module RiskModelsProofs.
Import RiskManager RiskNotions.

(** *** The stop-loss distance in pips *)

Lemma clamp_cases (x : Py.F) (lo hi : Q) :
  lo <= hi ->
  match Py.fmin (Py.fmax x (Py.Fin lo)) (Py.Fin hi) with
  | Py.Fin q => lo <= q /\ q <= hi
  | Py.NaN => x = Py.NaN
  | _ => False
  end.
Proof.
  intros Hle. destruct x as [v| | |].
  - rewrite RiskManagerProofs.clamp_finite. apply PyFacts.clamp_between. exact Hle.
  - unfold Py.fmax, Py.fmin, Py.fgtb. simpl. split; lra.
  - unfold Py.fmax, Py.fmin, Py.fgtb. simpl.
    destruct (Py.ltb hi lo) eqn:H; [apply PyFacts.ltb_lt in H; lra|].
    split; lra.
  - reflexivity.
Qed.

Lemma true_ranges_length rates : forall prev,
  length (true_ranges prev rates) = length rates.
Proof.
  induction rates as [|b r IH]; intros prev; [reflexivity|].
  simpl. f_equal. apply IH.
Qed.

Lemma atr_finite rates period :
  (0 < period)%nat -> (period <= length rates)%nat ->
  exists a, atr rates period = Py.Fin a.
Proof.
  intros Hp Hl. unfold atr. cbv zeta.
  rewrite true_ranges_length.
  destruct (period =? 0)%nat eqn:H0; [apply Nat.eqb_eq in H0; lia|].
  destruct (length rates <? period)%nat eqn:H1; [apply Nat.ltb_lt in H1; lia|].
  simpl. eexists. reflexivity.
Qed.

Lemma scaled_atr_pips_not_nan rates period info (mult : Q) :
  (0 < period)%nat -> (period <= length rates)%nat -> ~ point info == 0 ->
  Py.fmul (atr_pips rates period info) (Py.Fin mult) <> Py.NaN.
Proof.
  intros Hp Hl Hpt.
  destruct (atr_finite rates period Hp Hl) as [a Ha].
  unfold atr_pips. rewrite Ha. unfold Py.fdiv.
  destruct (Py.eqb (10 * point info) 0) eqn:Hz.
  - apply PyFacts.eqb_eq in Hz. exfalso. apply Hpt. lra.
  - simpl. discriminate.
Qed.

(** X9: when [min_pips <= max_pips], the stop distance that
    [_calculate_stop_loss_pips] answers is [fixed_pips] or lies between
    [min_pips] and [max_pips]; it is never infinite, and it is NaN only
    under the ATR method with a period of zero or a symbol whose point is
    zero. *)
Theorem stop_loss_pips_fixed_or_clamped (t : Terminal) (s : State)
    (sym action : string) :
  let c := stop_loss (config s) in
  sl_min_pips c <= sl_max_pips c ->
  match _calculate_stop_loss_pips t s sym action with
  | Py.Fin q => q = sl_fixed_pips c \/ (sl_min_pips c <= q /\ q <= sl_max_pips c)
  | Py.NaN =>
      sl_method c = "atr"
      /\ (sl_atr_period c = 0%nat
          \/ exists info, t_symbol_info t sym = Some info /\ point info == 0)
  | _ => False
  end.
Proof.
  intros c Hle. unfold _calculate_stop_loss_pips. fold c.
  destruct (String.eqb (sl_method c) "fixed"); [left; reflexivity|].
  destruct (String.eqb (sl_method c) "atr") eqn:Hatr.
  - apply String.eqb_eq in Hatr.
    destruct (t_copy_rates_d1 t sym (sl_atr_period c + 1)) as [rates|]; [|left; reflexivity].
    destruct (length rates <? sl_atr_period c + 1)%nat eqn:Hlen; [left; reflexivity|].
    apply Nat.ltb_ge in Hlen.
    destruct (t_symbol_info t sym) as [info|] eqn:Hinfo; [|left; reflexivity].
    pose proof (clamp_cases
                  (Py.fmul (atr_pips rates (sl_atr_period c) info) (Py.Fin (sl_atr_multiple c)))
                  (sl_min_pips c) (sl_max_pips c) Hle) as Hc.
    destruct (Py.fmin _ _) as [q| | |]; try exact Hc.
    + right. exact Hc.
    + split; [exact Hatr|].
      destruct (sl_atr_period c) as [|n] eqn:Hn; [left; reflexivity|right].
      exists info. split; [reflexivity|].
      destruct (Qeq_dec (point info) 0) as [Hz|Hnz]; [exact Hz|].
      exfalso. revert Hc. apply scaled_atr_pips_not_nan; [lia|lia|exact Hnz].
  - destruct (String.eqb (sl_method c) "support_resistance"); [left; reflexivity|].
    destruct (String.eqb (sl_method c) "percent"); [|left; reflexivity].
    destruct (t_symbol_info_tick t sym) as [last_tick|]; [|left; reflexivity].
    destruct (t_symbol_info t sym) as [info|]; [|left; reflexivity].
    destruct (Py.eqb (10 * point info) 0); [left; reflexivity|].
    rewrite RiskManagerProofs.clamp_finite.
    right. apply PyFacts.clamp_between. exact Hle.
Qed.

Lemma stop_loss_pips_fixed_or_clamped_witness :
  match _calculate_stop_loss_pips Scenarios.terminal_1000 (init default_config)
          "EURUSD" "BUY" with
  | Py.Fin q => q = 20 \/ (10 <= q /\ q <= 100)
  | _ => False
  end.
Proof.
  pose proof (stop_loss_pips_fixed_or_clamped Scenarios.terminal_1000
                (init default_config) "EURUSD" "BUY") as H.
  cbv zeta in H.
  destruct (_calculate_stop_loss_pips _ _ _ _) as [q| | |] eqn:Hq;
    try (vm_compute in Hq; discriminate Hq).
  apply H. vm_compute. discriminate.
Defined.

(** *** Recovery mode *)

Lemma insert_desc_perm x l : insert_desc x l ≡ₚ x :: l.
Proof.
  induction l as [|y r IH]; [reflexivity|].
  simpl. destruct (tr_close_time y <=? tr_close_time x)%Z; [reflexivity|].
  rewrite IH. apply Permutation_swap.
Qed.

Lemma sorted_desc_perm l : sorted_desc l ≡ₚ l.
Proof.
  induction l as [|x l IH]; [reflexivity|].
  unfold sorted_desc in *. simpl. rewrite insert_desc_perm, IH. reflexivity.
Qed.

Lemma insert_desc_descending x l : descending l -> descending (insert_desc x l).
Proof.
  induction l as [|y r IH]; intros Hd; [simpl; auto|].
  simpl. destruct Hd as [Hy Hr].
  destruct (tr_close_time y <=? tr_close_time x)%Z eqn:Hle.
  - apply Z.leb_le in Hle. simpl. split; [|split; assumption].
    constructor; [exact Hle|].
    eapply Forall_impl; [exact Hy|]. intros z Hz. simpl in Hz. lia.
  - apply Z.leb_gt in Hle. simpl. split; [|apply IH; exact Hr].
    rewrite insert_desc_perm. constructor; [lia|exact Hy].
Qed.

Lemma sorted_desc_descending l : descending (sorted_desc l).
Proof.
  induction l as [|x l IH]; [exact I|].
  unfold sorted_desc in *. simpl. apply insert_desc_descending. exact IH.
Qed.

Lemma count_losses_streak trigger (l : list Trade) : forall n,
  (n < trigger)%nat ->
  (trigger <= count_losses trigger n l)%nat ->
  (trigger - n <= length l)%nat
  /\ Forall (fun tr => tr_profit tr < 0) (take (trigger - n) l).
Proof.
  induction l as [|tr r IH]; intros n Hn Hc; simpl in Hc; [lia|].
  destruct (Py.ltb (tr_profit tr) 0) eqn:Hloss; [|lia].
  apply PyFacts.ltb_lt in Hloss.
  destruct (trigger <=? S n)%nat eqn:Hs.
  - apply Nat.leb_le in Hs. replace (trigger - n)%nat with 1%nat by lia.
    simpl. split; [lia|]. constructor; [exact Hloss|]. rewrite take_0. constructor.
  - apply Nat.leb_gt in Hs. destruct (IH (S n) Hs Hc) as [Hl Hf].
    replace (trigger - n)%nat with (S (trigger - S n)) by lia.
    simpl. split; [lia|]. constructor; assumption.
Qed.

(** X6: [_check_recovery_mode] answers [True] only if the
    [trigger_consecutive_losses] most recently closed trades all lost and
    were closed within [max_recovery_days] days of one another. *)
Theorem recovery_mode_needs_a_losing_streak (s : State) :
  _check_recovery_mode s = true ->
  let c := recovery_mode (config s) in
  let n := trigger_consecutive_losses c in
  let recent := sorted_desc (trade_history s) in
  recent ≡ₚ trade_history s
  /\ descending recent
  /\ (n <= length recent)%nat
  /\ Forall (fun tr => tr_profit tr < 0) (take n recent)
  /\ (forall first kth,
        (0 < n)%nat -> head recent = Some first -> recent !! (n - 1)%nat = Some kth ->
        (tr_close_time first - tr_close_time kth <= max_recovery_days c * 86400)%Z).
Proof.
  intros H c n recent.
  split; [apply sorted_desc_perm|]. split; [apply sorted_desc_descending|].
  unfold _check_recovery_mode in H. fold c n recent in H.
  destruct (length (trade_history s) <? n)%nat eqn:Hlen; [discriminate|].
  apply Nat.ltb_ge in Hlen.
  assert (length recent = length (trade_history s)) as Hl
    by (apply Permutation_length, sorted_desc_perm).
  split; [lia|].
  destruct (n <=? count_losses n 0 recent)%nat eqn:Hc; [|discriminate].
  apply Nat.leb_le in Hc.
  split.
  - destruct (decide (n = 0%nat)) as [->|Hn]; [rewrite take_0; constructor|].
    destruct (count_losses_streak n recent 0) as [_ Hf]; [lia|exact Hc|].
    rewrite Nat.sub_0_r in Hf. exact Hf.
  - intros first kth Hn Hf Hk. rewrite Hf in H.
    destruct (n =? 0)%nat eqn:Hz; [apply Nat.eqb_eq in Hz; lia|].
    rewrite Hk in H.
    destruct (_ <? _)%Z eqn:Hd; [discriminate|].
    apply Z.ltb_ge in Hd. exact Hd.
Qed.

End RiskModelsProofs.

(** ** Correlation and position management *)
Module PositionChecksProofs.
Import RiskManager RiskNotions.

(** *** Correlation risk *)

Lemma in_pairs {A} (l : list A) (a b : A) :
  In (a, b) (pairs l) -> a ∈ l /\ b ∈ l /\ (NoDup l -> a <> b).
Proof.
  induction l as [|x r IH]; [intros []|].
  simpl. intros [Hin|Hin]%in_app_or.
  - apply in_map_iff in Hin as (y & Hy & Hr). injection Hy as <- <-.
    apply list_elem_of_In in Hr.
    split; [apply elem_of_cons; left; reflexivity|].
    split; [apply elem_of_cons; right; exact Hr|].
    intros [Hx _]%NoDup_cons Heq. subst. contradiction.
  - destruct (IH Hin) as (Ha & Hb & Hne).
    split; [apply elem_of_cons; right; exact Ha|].
    split; [apply elem_of_cons; right; exact Hb|].
    intros [_ Hnd]%NoDup_cons. apply Hne, Hnd.
Qed.

Lemma in_types_of sym ps ty :
  In ty (types_of sym ps) -> exists p, p ∈ ps /\ symbol p = sym /\ type p = ty.
Proof.
  unfold types_of. intros (p & Hty & Hp)%in_map_iff.
  apply list_elem_of_In, list_elem_of_filter in Hp as [Hs Hp].
  exists p. auto.
Qed.

Lemma any_same_true l1 l2 :
  any_same l1 l2 = true -> exists ty, In ty l1 /\ In ty l2.
Proof.
  unfold any_same. intros (t1 & H1 & (t2 & H2 & Heq)%existsb_exists)%existsb_exists.
  apply Z.eqb_eq in Heq. subst. eauto.
Qed.

Lemma any_different_true l1 l2 :
  any_different l1 l2 = true -> exists t1 t2, In t1 l1 /\ In t2 l2 /\ t1 <> t2.
Proof.
  unfold any_different.
  intros (t1 & H1 & (t2 & H2 & Hne)%existsb_exists)%existsb_exists.
  apply negb_true_iff, Z.eqb_neq in Hne. eauto.
Qed.

(** X7: [_check_correlation_risk] answers [True] only if two open
    positions on different symbols, both with rates, have a correlation
    above the threshold and the same direction, or a correlation below the
    negated threshold and opposite directions. *)
Theorem correlation_risk_names_two_correlated_positions (t : Terminal) (s : State) :
  _check_correlation_risk t s = true ->
  let threshold := cr_threshold (correlation_risk (config s)) in
  exists p1 p2 corr,
    p1 ∈ position_values s /\ p2 ∈ position_values s
    /\ symbol p1 <> symbol p2
    /\ t_has_rates t (symbol p1) = true /\ t_has_rates t (symbol p2) = true
    /\ t_corr t (symbol p1) (symbol p2) = Some corr
    /\ ((threshold < corr /\ type p1 = type p2)
        \/ (corr <= threshold /\ corr < - threshold /\ type p1 <> type p2)).
Proof.
  unfold _check_correlation_risk. cbv zeta.
  set (ps := position_values s). set (th := cr_threshold _).
  destruct (length ps <? 2)%nat; [discriminate|].
  destruct (length (remove_dups (map symbol ps)) <? 2)%nat; [discriminate|].
  destruct (length (filter _ _) <? 2)%nat; [discriminate|].
  intros ([s1 s2] & Hin & Hrisk)%existsb_exists.
  apply in_pairs in Hin as (_ & _ & Hne).
  specialize (Hne (NoDup_remove_dups _)).
  unfold pair_risk in Hrisk.
  destruct (t_has_rates t s1 && t_has_rates t s2) eqn:Hr; [|discriminate].
  apply andb_true_iff in Hr as [Hr1 Hr2].
  destruct (t_corr t s1 s2) as [corr|] eqn:Hcorr; [|discriminate].
  destruct (Py.gtb corr th) eqn:Hg.
  - apply PyFacts.gtb_gt in Hg.
    apply any_same_true in Hrisk as (ty & H1 & H2).
    apply in_types_of in H1 as (p1 & Hp1 & <- & <-).
    apply in_types_of in H2 as (p2 & Hp2 & <- & Hty).
    exists p1, p2, corr. repeat split; try assumption. left. split; auto.
  - apply PyFacts.gtb_le in Hg.
    destruct (Py.ltb corr (- th)) eqn:Hl; [|discriminate].
    apply PyFacts.ltb_lt in Hl.
    apply any_different_true in Hrisk as (t1 & t2 & H1 & H2 & Hty).
    apply in_types_of in H1 as (p1 & Hp1 & <- & <-).
    apply in_types_of in H2 as (p2 & Hp2 & <- & <-).
    exists p1, p2, corr. repeat split; try assumption. right. repeat split; auto.
Qed.

(** *** Requests of [manage_position] *)





End PositionChecksProofs.

(** ** What one iteration of the replication loop sends *)
Module DispatchProofs.
Import Replicator ReplicatorNotions.

Lemma should_replicate_order_spec o c :
  _should_replicate_order o c = true
  <-> (symbols_filter c = [] \/ symbol o ∈ symbols_filter c)
      /\ (0 < min_volume c -> min_volume c <= volume o)
      /\ (0 < max_volume c -> volume o <= max_volume c).
Proof.
  unfold _should_replicate_order.
  assert (Hfilter :
    match symbols_filter c with
    | _ :: _ => if bool_decide (symbol o ∈ symbols_filter c) then true else false
    | [] => true
    end = true
    <-> (symbols_filter c = [] \/ symbol o ∈ symbols_filter c)).
  { destruct (symbols_filter c) as [|x l]; [split; auto|].
    destruct (bool_decide (symbol o ∈ x :: l)) eqn:Hd.
    - apply bool_decide_eq_true in Hd. split; auto.
    - apply bool_decide_eq_false in Hd. split; [discriminate|].
      intros [H|H]; [discriminate|contradiction]. }
  destruct (match symbols_filter c with [] => true | _ => _ end).
  - destruct (Py.gtb (min_volume c) 0) eqn:H1;
      destruct (Py.ltb (volume o) (min_volume c)) eqn:H2;
      destruct (Py.gtb (max_volume c) 0) eqn:H3;
      destruct (Py.gtb (volume o) (max_volume c)) eqn:H4;
      RiskManagerProofs.py_bool; simpl;
      (split;
       [intros H;
        first [discriminate H
              |split; [apply Hfilter; reflexivity|split; intros; lra]]
       |intros (_ & Ha & Hb);
        first [reflexivity
              |try specialize (Ha ltac:(assumption));
               try specialize (Hb ltac:(assumption)); lra]]).
  - simpl. split; [discriminate|]. intros (Hf & _).
    apply Hfilter in Hf. discriminate.
Qed.

Lemma replicate_order_execute env o target c b k req :
  In (Execute b k req) (_replicate_order env o target c).2 ->
  b = target /\ k = ticket o /\ transform o c = Some req.
Proof.
  unfold _replicate_order.
  destruct (transform o c) as [req'|]; simpl.
  - destruct (execute_order env target req'); simpl;
      intros H; repeat (destruct H as [H|H]; try discriminate H; try contradiction);
      injection H as <- <- <-; auto.
  - intros [H|[]]. discriminate.
Qed.

Lemma dispatch_all_execute env o c b k req targets : forall i,
  In (Execute b k req) (dispatch_all env o c i targets) ->
  b ∈ targets /\ check_connection env b = true
  /\ k = ticket o /\ transform o c = Some req.
Proof.
  induction targets as [|target rest IH]; intros i Hin; [destruct Hin|].
  simpl in Hin. apply in_app_or in Hin as [Hin|Hin].
  - destruct (check_connection env target) eqn:Hc; simpl in Hin.
    + destruct (_replicate_order env o target c) as [ok evs] eqn:Hr.
      apply in_app_or in Hin as [Hin|[Hin|[]]]; [|discriminate].
      assert (In (Execute b k req) (_replicate_order env o target c).2) as Hin'
        by (rewrite Hr; exact Hin).
      apply replicate_order_execute in Hin' as (-> & -> & Ht).
      split; [apply elem_of_cons; left; reflexivity|auto].
    + destruct Hin as [Hin|[]]. discriminate.
  - destruct (IH _ Hin) as (Hb & Hrest).
    split; [apply elem_of_cons; right; exact Hb|exact Hrest].
Qed.

(** X17: one iteration of the replication loop calls [execute_order] on a
    target only for the order at the head of the queue, with replication
    enabled, the order passing the symbol and volume filters, the request
    being the transformed order, and the target being a connected target of
    the replicator. *)
Theorem only_accepted_orders_reach_connected_targets (env : Targets)
    (r : Replicator) (target : string) (k : option Z) (req : ExecRequest) :
  In (Execute target k req) (replication_iteration env r).2 ->
  let c := replication_config r in
  exists o,
    head (order_queue r) = Some o /\ ticket o = k
    /\ enabled c = true
    /\ (symbols_filter c = [] \/ symbol o ∈ symbols_filter c)
    /\ (0 < min_volume c -> min_volume c <= volume o)
    /\ (0 < max_volume c -> volume o <= max_volume c)
    /\ transform o c = Some req
    /\ target ∈ mt5_backend_targets r
    /\ check_connection env target = true.
Proof.
  intros Hin c. unfold replication_iteration in Hin. fold c in Hin.
  destruct (order_queue r) as [|o rest]; [simpl in Hin; destruct Hin|].
  destruct (enabled c) eqn:He; simpl in Hin; [|destruct Hin].
  destruct (_should_replicate_order o c) eqn:Hs; simpl in Hin.
  2: { destruct Hin as [Hin|[]]. discriminate. }
  apply should_replicate_order_spec in Hs as (Hf & Hmin & Hmax).
  assert (In (Execute target k req) (dispatch_all env o c 0 (mt5_backend_targets r))) as Hd.
  { apply in_app_or in Hin as [Hin|Hin]; [|exact Hin].
    destruct (Py.gtb (delay_seconds c) 0); [|destruct Hin].
    destruct Hin as [Hin|[]]. discriminate. }
  apply dispatch_all_execute in Hd as (Hb & Hc & -> & Ht).
  exists o. repeat split; auto.
Qed.

Lemma only_accepted_orders_reach_connected_targets_witness :
  exists o,
    head (order_queue ReplicationScenarios.replicator_with_order) = Some o
    /\ ticket o = Some 100%Z
    /\ "T1" ∈ mt5_backend_targets ReplicationScenarios.replicator_with_order.
Proof.
  destruct (only_accepted_orders_reach_connected_targets
              ReplicationScenarios.healthy_targets
              ReplicationScenarios.replicator_with_order "T1" (Some 100%Z)
              {| x_action := "BUY"; x_symbol := "EURUSD"; x_volume := 1.0 * 0.5;
                 x_sl := 1.0950; x_tp := 1.1100; x_comment := "REP:100:" |})
    as (o & H1 & H2 & _ & _ & _ & _ & _ & H3 & _).
  - vm_compute. left. reflexivity.
  - exists o. auto.
Defined.

Lemma calls_app evs1 evs2 : calls (evs1 ++ evs2) = calls evs1 ++ calls evs2.
Proof. unfold calls. apply omap_app. Qed.

Lemma replicate_order_calls env o target c req :
  transform o c = Some req ->
  calls (_replicate_order env o target c).2 = [(target, req)].
Proof.
  unfold _replicate_order. intros ->.
  destruct (execute_order env target req); reflexivity.
Qed.

Lemma dispatch_all_calls env o c req targets : forall i,
  transform o c = Some req ->
  calls (dispatch_all env o c i targets)
  = map (fun b => (b, req)) (List.filter (check_connection env) targets).
Proof.
  induction targets as [|target rest IH]; intros i Ht; [reflexivity|].
  simpl. rewrite calls_app, (IH _ Ht).
  destruct (check_connection env target) eqn:Hc; simpl.
  - pose proof (replicate_order_calls env o target c req Ht) as Hr.
    destruct (_replicate_order env o target c) as [ok evs]. simpl in Hr.
    rewrite calls_app, Hr. reflexivity.
  - reflexivity.
Qed.

(** X18: when replication is enabled and the order at the head of the queue
    passes the filters and is transformed into a request, the iteration
    calls [execute_order] with that request on each connected target, once
    per occurrence and in the order of the target list, and on no other. *)
Theorem every_connected_target_gets_the_order (env : Targets) (r : Replicator)
    (o : Order) (rest : list Order) (req : ExecRequest) :
  order_queue r = o :: rest ->
  enabled (replication_config r) = true ->
  _should_replicate_order o (replication_config r) = true ->
  transform o (replication_config r) = Some req ->
  calls (replication_iteration env r).2
  = map (fun b => (b, req))
        (List.filter (check_connection env) (mt5_backend_targets r)).
Proof.
  intros Hq He Hs Ht. unfold replication_iteration. rewrite Hq, He, Hs. simpl.
  rewrite calls_app, (dispatch_all_calls _ _ _ _ _ _ Ht).
  destruct (Py.gtb _ 0); reflexivity.
Qed.

Lemma every_connected_target_gets_the_order_witness :
  length (calls (replication_iteration ReplicationScenarios.failing_targets
                   ReplicationScenarios.replicator_with_order).2) = 1%nat.
Proof.
  rewrite (every_connected_target_gets_the_order
             ReplicationScenarios.failing_targets
             ReplicationScenarios.replicator_with_order
             ReplicationScenarios.order_100 []
             {| x_action := "BUY"; x_symbol := "EURUSD"; x_volume := 1.0 * 0.5;
                x_sl := 1.0950; x_tp := 1.1100; x_comment := "REP:100:" |}).
  - reflexivity.
  - reflexivity.
  - reflexivity.
  - vm_compute. reflexivity.
  - vm_compute. reflexivity.
Defined.

(** X19: the request made of an order keeps its symbol, is a BUY or a SELL
    as the type of the order and [reverse_direction] say, asks for no more
    than the volume times the multiplier and no more than a positive
    [max_volume], and carries no stop loss or take profit when
    [include_sl_tp] is off or the order has none. *)
Theorem replica_request_respects_the_configuration (o : Order) (c : Config)
    (req : ExecRequest) :
  transform o c = Some req ->
  x_symbol req = symbol o
  /\ x_comment req = rep_comment o
  /\ (x_action req = "BUY"
      /\ (type o = Some 0%Z /\ reverse_direction c = false
          \/ type o = Some 1%Z /\ reverse_direction c = true)
      \/ x_action req = "SELL"
         /\ (type o = Some 1%Z /\ reverse_direction c = false
             \/ type o = Some 0%Z /\ reverse_direction c = true))
  /\ x_volume req <= volume o * volume_multiplier c
  /\ (0 < max_volume c -> x_volume req <= max_volume c)
  /\ (include_sl_tp c = false -> x_sl req == 0 /\ x_tp req == 0)
  /\ (sl o == 0 -> x_sl req == 0)
  /\ (tp o == 0 -> x_tp req == 0).
Proof.
  unfold transform. cbv zeta.
  set (vol := volume o * volume_multiplier c).
  assert ((if Py.gtb (max_volume c) 0 then Py.min vol (max_volume c) else vol) <= vol
          /\ (0 < max_volume c ->
              (if Py.gtb (max_volume c) 0 then Py.min vol (max_volume c) else vol)
              <= max_volume c)) as [Hv1 Hv2].
  { destruct (Py.gtb (max_volume c) 0) eqn:Hg.
    - unfold Py.min. destruct (Py.ltb (max_volume c) vol) eqn:Hl.
      + apply PyFacts.ltb_lt in Hl. split; [lra|intros; lra].
      + apply PyFacts.ltb_ge in Hl. split; [lra|intros; lra].
    - apply PyFacts.gtb_le in Hg. split; [lra|intros; lra]. }
  destruct (type o) as [[|[| |]|]|] eqn:Hty; try discriminate.
  - destruct (reverse_direction c) eqn:Hrev; simpl String.eqb; cbv iota;
      destruct (include_sl_tp c) eqn:Hinc; simpl negb; cbv iota;
      try destruct (Py.eqb (adjust_sl_tp_percent c) 0) eqn:Hadj; simpl negb; cbv iota;
      try destruct (Py.eqb (sl o) 0) eqn:Hsl; try destruct (Py.eqb (tp o) 0) eqn:Htp;
      simpl negb; cbv iota; intros [= <-]; simpl;
      repeat match goal with
             | H : Py.eqb _ _ = true |- _ => apply PyFacts.eqb_eq in H
             | H : Py.eqb _ _ = false |- _ => apply PyFacts.eqb_neq in H
             end;
      repeat split; auto; try discriminate; try (intros; lra); try (intros; contradiction).
  - destruct (reverse_direction c) eqn:Hrev; simpl String.eqb; cbv iota;
      destruct (include_sl_tp c) eqn:Hinc; simpl negb; cbv iota;
      try destruct (Py.eqb (adjust_sl_tp_percent c) 0) eqn:Hadj; simpl negb; cbv iota;
      try destruct (Py.eqb (sl o) 0) eqn:Hsl; try destruct (Py.eqb (tp o) 0) eqn:Htp;
      simpl negb; cbv iota; intros [= <-]; simpl;
      repeat match goal with
             | H : Py.eqb _ _ = true |- _ => apply PyFacts.eqb_eq in H
             | H : Py.eqb _ _ = false |- _ => apply PyFacts.eqb_neq in H
             end;
      repeat split; auto; try discriminate; try (intros; lra); try (intros; contradiction).
Qed.

End DispatchProofs.

(** ** Targets, start and stop of a replicator *)
Module ReplicatorStateProofs.
Import Replicator.

Lemma with_targets_same r : with_targets (mt5_backend_targets r) r = r.
Proof. destruct r; reflexivity. Qed.

Lemma remove_first_absent b l : b ∉ l -> remove_first b l = l.
Proof.
  induction l as [|x l IH]; intros Hb; [reflexivity|].
  simpl. apply not_elem_of_cons in Hb as [Hne Hb].
  rewrite bool_decide_eq_false_2 by congruence. rewrite IH by exact Hb. reflexivity.
Qed.

Lemma remove_first_app_new b l : b ∉ l -> remove_first b (l ++ [b]) = l.
Proof.
  induction l as [|x l IH]; intros Hb.
  - simpl. rewrite bool_decide_eq_true_2 by reflexivity. reflexivity.
  - simpl. apply not_elem_of_cons in Hb as [Hne Hb].
    rewrite bool_decide_eq_false_2 by congruence. rewrite IH by exact Hb. reflexivity.
Qed.

Lemma remove_first_other b l x : x <> b -> x ∈ l -> x ∈ remove_first b l.
Proof.
  intros Hne. induction l as [|y l IH]; intros Hx; [exact Hx|].
  simpl. destruct (bool_decide (y = b)) eqn:Hd.
  - apply bool_decide_eq_true in Hd. subst y.
    apply elem_of_cons in Hx as [Hx|Hx]; [contradiction|exact Hx].
  - apply elem_of_cons in Hx as [->|Hx]; apply elem_of_cons; [left; reflexivity|right; auto].
Qed.

Lemma remove_first_nodup b l : NoDup l -> b ∉ remove_first b l.
Proof.
  induction l as [|x l IH]; intros Hnd; [apply not_elem_of_nil|].
  apply NoDup_cons in Hnd as [Hx Hnd]. simpl.
  destruct (bool_decide (x = b)) eqn:Hd.
  - apply bool_decide_eq_true in Hd. subst. exact Hx.
  - apply bool_decide_eq_false in Hd. apply not_elem_of_cons. split; [congruence|auto].
Qed.

(** X20: adding a target twice is adding it once; a target that was not
    there and is added and removed leaves the replicator as it was; removing
    takes a target off a list without repeats, and touches no other
    target. *)
Theorem target_list_add_then_remove (b : string) (r : Replicator) :
  add_target_backend b (add_target_backend b r) = add_target_backend b r
  /\ b ∈ mt5_backend_targets (add_target_backend b r)
  /\ (b ∉ mt5_backend_targets r ->
      remove_target_backend b (add_target_backend b r) = r)
  /\ (NoDup (mt5_backend_targets r) ->
      b ∉ mt5_backend_targets (remove_target_backend b r))
  /\ (forall x, x <> b ->
        (x ∈ mt5_backend_targets (remove_target_backend b r)
         <-> x ∈ mt5_backend_targets r)).
Proof.
  split; [|split; [|split; [|split]]].
  - unfold add_target_backend.
    destruct (bool_decide (b ∈ mt5_backend_targets r)) eqn:Hd.
    + rewrite Hd. reflexivity.
    + simpl. rewrite bool_decide_eq_true_2; [reflexivity|].
      apply elem_of_app. right. apply list_elem_of_singleton. reflexivity.
  - unfold add_target_backend.
    destruct (bool_decide (b ∈ mt5_backend_targets r)) eqn:Hd.
    + apply bool_decide_eq_true in Hd. exact Hd.
    + simpl. apply elem_of_app. right. apply list_elem_of_singleton. reflexivity.
  - intros Hb. unfold add_target_backend, remove_target_backend.
    rewrite bool_decide_eq_false_2 by exact Hb. simpl.
    rewrite remove_first_app_new by exact Hb. destruct r; reflexivity.
  - intros Hnd. simpl. apply remove_first_nodup. exact Hnd.
  - intros x Hne. simpl. split.
    + apply ReplicatorProofs.remove_first_subset.
    + apply remove_first_other. exact Hne.
Qed.

(** X21: [start_replication] of a replicator answers [True] exactly when it
    is running already or its source is set and connected, it has a target
    and all targets are connected; it changes the replicator only when it
    starts it, which sets [running] and [enabled]. A stop after it clears
    both and keeps the targets, the queue and the processed tickets. *)
Theorem start_needs_connected_accounts_and_stop_disables (conn : string -> bool)
    (r : Replicator) :
  let r1 := (start_replication conn r).1 in
  let started := (start_replication conn r).2 in
  let r2 := (stop_replication r1).1 in
  (started = true
   <-> running r = true
       \/ ((exists src, mt5_backend_source r = Some src /\ conn src = true)
           /\ mt5_backend_targets r <> []
           /\ Forall (fun b => conn b = true) (mt5_backend_targets r)))
  /\ (started = true -> running r1 = true)
  /\ (started = true -> running r = false ->
      enabled (replication_config r1) = true)
  /\ (started = false \/ running r = true -> r1 = r)
  /\ (stop_replication r1).2 = true
  /\ running r2 = false
  /\ (started = true -> enabled (replication_config r2) = false)
  /\ mt5_backend_targets r2 = mt5_backend_targets r
  /\ order_queue r2 = order_queue r
  /\ processed_orders r2 = processed_orders r.
Proof.
  cbv zeta. unfold start_replication.
  destruct (running r) eqn:Hrun.
  - simpl. unfold stop_replication. rewrite Hrun. simpl.
    repeat split; auto; discriminate.
  - destruct (mt5_backend_source r) as [src|] eqn:Hsrc.
    2: { simpl. unfold stop_replication. rewrite Hrun. simpl.
         repeat split; auto; try discriminate.
         intros [H|((src & H & _) & _)]; discriminate. }
    destruct (conn src) eqn:Hc; simpl.
    2: { unfold stop_replication. rewrite Hrun. simpl.
         repeat split; auto; try discriminate.
         intros [H|((src' & H & Hc') & _)]; [discriminate|].
         injection H as <-. congruence. }
    destruct (mt5_backend_targets r) as [|b l] eqn:Ht.
    { simpl. unfold stop_replication. rewrite Hrun. simpl.
      repeat split; auto; try discriminate.
      intros [H|(_ & H & _)]; [discriminate|contradiction]. }
    destruct (forallb conn (b :: l)) eqn:Hall.
    + simpl. repeat split; auto; try discriminate.
      * intros _. right. split; [eauto|]. split; [discriminate|].
        apply Forall_forall. intros x Hx.
        rewrite forallb_forall in Hall. apply Hall, list_elem_of_In. exact Hx.
      * intros [H|H]; discriminate.
    + simpl. unfold stop_replication. rewrite Hrun. simpl.
      repeat split; auto; try discriminate.
      intros [H|(_ & _ & H)]; [discriminate|].
      assert (forallb conn (b :: l) = true); [|congruence].
      apply forallb_forall. intros x Hx.
      rewrite Forall_forall in H. apply H, list_elem_of_In. exact Hx.
Qed.

End ReplicatorStateProofs.

(** ** The registry stays consistent *)
Module GroupsProofs.
Import MultiAccount Groups.

Lemma valid_targets_spec (m : Registry) src ts x :
  x ∈ List.filter (fun target_id => bool_decide (target_id ∈ backends m)
                                     && negb (String.eqb target_id src)) ts
  <-> x ∈ ts /\ x ∈ backends m /\ x <> src.
Proof.
  rewrite list_elem_of_In, List.filter_In, <- list_elem_of_In.
  rewrite andb_true_iff, bool_decide_eq_true, negb_true_iff, String.eqb_neq.
  tauto.
Qed.

Lemma add_target_backend_elem b r x :
  x ∈ Replicator.mt5_backend_targets (Replicator.add_target_backend b r)
  <-> x ∈ Replicator.mt5_backend_targets r \/ x = b.
Proof.
  unfold Replicator.add_target_backend.
  destruct (bool_decide (b ∈ Replicator.mt5_backend_targets r)) eqn:Hd.
  - apply bool_decide_eq_true in Hd. split; [auto|]. intros [H| ->]; assumption.
  - simpl. rewrite elem_of_app, list_elem_of_singleton. reflexivity.
Qed.

Lemma add_target_backend_source b r :
  Replicator.mt5_backend_source (Replicator.add_target_backend b r)
  = Replicator.mt5_backend_source r.
Proof.
  unfold Replicator.add_target_backend.
  destruct (bool_decide _); reflexivity.
Qed.

Lemma add_targets_elem ts : forall r x,
  x ∈ Replicator.mt5_backend_targets
        (foldl (fun r target_id => Replicator.add_target_backend target_id r) r ts)
  <-> x ∈ Replicator.mt5_backend_targets r \/ x ∈ ts.
Proof.
  induction ts as [|b ts IH]; intros r x; simpl.
  - rewrite elem_of_nil. tauto.
  - rewrite IH, add_target_backend_elem, elem_of_cons. tauto.
Qed.

Lemma add_targets_source ts : forall r,
  Replicator.mt5_backend_source
    (foldl (fun r target_id => Replicator.add_target_backend target_id r) r ts)
  = Replicator.mt5_backend_source r.
Proof.
  induction ts as [|b ts IH]; intros r; simpl; [reflexivity|].
  rewrite IH. apply add_target_backend_source.
Qed.

Lemma add_targets_config ts : forall r,
  Replicator.replication_config
    (foldl (fun r target_id => Replicator.add_target_backend target_id r) r ts)
  = Replicator.replication_config r
  /\ Replicator.running
       (foldl (fun r target_id => Replicator.add_target_backend target_id r) r ts)
     = Replicator.running r.
Proof.
  induction ts as [|b ts IH]; intros r; simpl; [auto|].
  destruct (IH (Replicator.add_target_backend b r)) as [-> ->].
  unfold Replicator.add_target_backend. destruct (bool_decide _); auto.
Qed.

Lemma consistent_empty : consistent empty.
Proof.
  split; intros *; simpl; rewrite lookup_empty; discriminate.
Qed.

Lemma consistent_backends bs m : consistent m -> consistent (with_backends bs m).
Proof. intros [H1 H2 H3 H4]. split; exact H1 || exact H2 || exact H3 || exact H4. Qed.

Lemma add_account_consistent a m : consistent m -> consistent (add_account a m).1.
Proof.
  intros [H1 H2 H3 H4]. unfold add_account.
  destruct (bool_decide _); simpl; split; assumption.
Qed.

Lemma consistent_rewire src r r' m :
  consistent m ->
  replicators m !! src = Some r ->
  same_wiring r r' ->
  consistent (with_replicators (<[src := r']> (replicators m)) m).
Proof.
  intros [H1 H2 H3 H4] Hr [Hs Ht]. split; simpl.
  - intros g grp Hg. destruct (H1 g grp Hg) as (r0 & Hr0 & Hsub).
    destruct (decide (source grp = src)) as [Heq|Hne].
    + rewrite Heq in *. rewrite lookup_insert_eq. exists r'. split; [reflexivity|].
      rewrite Ht. assert (r0 = r) as -> by congruence. exact Hsub.
    + rewrite lookup_insert_ne by congruence. eauto.
  - intros src' r0 Hl. destruct (decide (src' = src)) as [->|Hne].
    + eapply H2. exact Hr.
    + rewrite lookup_insert_ne in Hl by congruence. eapply H2. exact Hl.
  - intros src' r0 Hl. destruct (decide (src' = src)) as [->|Hne].
    + rewrite lookup_insert_eq in Hl. injection Hl as <-.
      rewrite Hs, Ht. eapply H3. exact Hr.
    + rewrite lookup_insert_ne in Hl by congruence. eapply H3. exact Hl.
  - exact H4.
Qed.

Lemma create_replication_group_consistent g src ts m :
  consistent m -> consistent (create_replication_group g src ts m).1.
Proof.
  intros Hm. pose proof Hm as [H1 H2 H3 H4]. unfold create_replication_group.
  destruct (bool_decide (is_Some (replication_groups m !! g))) eqn:Hg; [exact Hm|].
  apply bool_decide_eq_false in Hg.
  assert (replication_groups m !! g = None) as Hnone
    by (destruct (replication_groups m !! g); [exfalso; apply Hg; eauto|reflexivity]).
  destruct (bool_decide (src ∈ backends m)); simpl; [|exact Hm].
  set (valid := List.filter _ ts).
  assert (src ∉ valid) as Hsv.
  { intros Hin. apply valid_targets_spec in Hin as (_ & _ & Hne). congruence. }
  destruct (replicators m !! src) as [r|] eqn:Hr; simpl.
  - split; simpl.
    + intros g' grp Hl. destruct (decide (g' = g)) as [->|Hne].
      * rewrite lookup_insert_eq in Hl. injection Hl as <-. simpl.
        rewrite lookup_insert_eq. eexists. split; [reflexivity|].
        intros x Hx. apply add_targets_elem. right. exact Hx.
      * rewrite lookup_insert_ne in Hl by congruence.
        destruct (H1 g' grp Hl) as (r0 & Hr0 & Hsub).
        destruct (decide (source grp = src)) as [Heq|Hs].
        -- rewrite Heq in *. rewrite lookup_insert_eq. eexists. split; [reflexivity|].
           intros x Hx. apply add_targets_elem. left.
           assert (r0 = r) as -> by congruence. apply Hsub, Hx.
        -- rewrite lookup_insert_ne by congruence. eauto.
    + intros src' r0 Hl. destruct (decide (src' = src)) as [->|Hs].
      * exists g. eexists. split; [apply lookup_insert_eq|reflexivity].
      * rewrite lookup_insert_ne in Hl by congruence.
        destruct (H2 src' r0 Hl) as (g' & grp & Hg' & Hsrc).
        exists g', grp. split; [|exact Hsrc].
        rewrite lookup_insert_ne; [exact Hg'|]. intros <-. congruence.
    + intros src' r0 Hl. destruct (decide (src' = src)) as [->|Hs].
      * rewrite lookup_insert_eq in Hl. injection Hl as <-.
        destruct (H3 src r Hr) as [Hsrc Hnot].
        split; [rewrite add_targets_source; exact Hsrc|].
        intros [Hin|Hin]%add_targets_elem; contradiction.
      * rewrite lookup_insert_ne in Hl by congruence. eapply H3. exact Hl.
    + intros g' grp Hl. destruct (decide (g' = g)) as [->|Hne].
      * rewrite lookup_insert_eq in Hl. injection Hl as <-. exact Hsv.
      * rewrite lookup_insert_ne in Hl by congruence. eapply H4. exact Hl.
  - split; simpl.
    + intros g' grp Hl. destruct (decide (g' = g)) as [->|Hne].
      * rewrite lookup_insert_eq in Hl. injection Hl as <-. simpl.
        rewrite lookup_insert_eq. eexists. split; [reflexivity|]. intros x Hx. exact Hx.
      * rewrite lookup_insert_ne in Hl by congruence.
        destruct (H1 g' grp Hl) as (r0 & Hr0 & Hsub).
        destruct (decide (source grp = src)) as [Hs|Hs]; [congruence|].
        rewrite lookup_insert_ne by congruence. eauto.
    + intros src' r0 Hl. destruct (decide (src' = src)) as [->|Hs].
      * exists g. eexists. split; [apply lookup_insert_eq|reflexivity].
      * rewrite lookup_insert_ne in Hl by congruence.
        destruct (H2 src' r0 Hl) as (g' & grp & Hg' & Hsrc).
        exists g', grp. split; [|exact Hsrc].
        rewrite lookup_insert_ne; [exact Hg'|]. intros <-. congruence.
    + intros src' r0 Hl. destruct (decide (src' = src)) as [->|Hs].
      * rewrite lookup_insert_eq in Hl. injection Hl as <-. simpl. auto.
      * rewrite lookup_insert_ne in Hl by congruence. eapply H3. exact Hl.
    + intros g' grp Hl. destruct (decide (g' = g)) as [->|Hne].
      * rewrite lookup_insert_eq in Hl. injection Hl as <-. exact Hsv.
      * rewrite lookup_insert_ne in Hl by congruence. eapply H4. exact Hl.
Qed.

Lemma source_used_spec (gs : gmap string Group) src :
  existsb (fun kv : string * Group => String.eqb (source kv.2) src) (map_to_list gs) = true
  <-> exists g grp, gs !! g = Some grp /\ source grp = src.
Proof.
  rewrite existsb_exists. split.
  - intros ([g grp] & Hin & Heq). apply String.eqb_eq in Heq.
    apply list_elem_of_In, elem_of_map_to_list in Hin. eauto.
  - intros (g & grp & Hg & Hs). exists (g, grp). split.
    + apply list_elem_of_In, elem_of_map_to_list. exact Hg.
    + apply String.eqb_eq. exact Hs.
Qed.

Lemma remove_replication_group_consistent g m :
  consistent m -> consistent (remove_replication_group g m).1.
Proof.
  intros Hm. pose proof Hm as [H1 H2 H3 H4]. unfold remove_replication_group.
  destruct (replication_groups m !! g) as [grp|] eqn:Hg; [|exact Hm].
  cbv zeta.
  destruct (existsb _ _) eqn:Hused; simpl.
  - apply source_used_spec in Hused as (g' & grp' & Hg' & Hs). simpl in Hg'.
    split; simpl.
    + intros g0 grp0 Hl. apply lookup_delete_Some in Hl as [_ Hl]. eapply H1. exact Hl.
    + intros src r Hl. destruct (decide (src = source grp)) as [->|Hne].
      * eauto.
      * destruct (H2 src r Hl) as (g0 & grp0 & Hg0 & Hs0).
        exists g0, grp0. split; [|exact Hs0].
        apply lookup_delete_Some. split; [|exact Hg0]. intros <-. congruence.
    + exact H3.
    + intros g0 grp0 Hl. apply lookup_delete_Some in Hl as [_ Hl]. eapply H4. exact Hl.
  - assert (forall g0 grp0, delete g (replication_groups m) !! g0 = Some grp0 ->
                            source grp0 <> source grp) as Hfree.
    { intros g0 grp0 Hl Hs.
      assert (existsb (fun kv : string * Group => String.eqb (source kv.2) (source grp))
                      (map_to_list (delete g (replication_groups m))) = true) as Ht
        by (apply source_used_spec; eauto).
      simpl in Hused. congruence. }
    split; simpl.
    + intros g0 grp0 Hl. pose proof (Hfree _ _ Hl) as Hne.
      apply lookup_delete_Some in Hl as [_ Hl].
      destruct (H1 g0 grp0 Hl) as (r & Hr & Hsub).
      exists r. split; [|exact Hsub]. rewrite lookup_delete_ne by congruence. exact Hr.
    + intros src r Hl. apply lookup_delete_Some in Hl as [Hne Hl].
      destruct (H2 src r Hl) as (g0 & grp0 & Hg0 & Hs0).
      exists g0, grp0. split; [|exact Hs0].
      apply lookup_delete_Some. split; [|exact Hg0]. intros <-. congruence.
    + intros src r Hl. apply lookup_delete_Some in Hl as [_ Hl]. eapply H3. exact Hl.
    + intros g0 grp0 Hl. apply lookup_delete_Some in Hl as [_ Hl]. eapply H4. exact Hl.
Qed.

Lemma add_target_to_group_consistent g a m :
  consistent m -> consistent (add_target_to_group g a m).1.
Proof.
  intros Hm. pose proof Hm as [H1 H2 H3 H4]. unfold add_target_to_group.
  destruct (replication_groups m !! g) as [grp|] eqn:Hg; [|exact Hm].
  destruct (bool_decide (a ∈ backends m)); simpl; [|exact Hm].
  destruct (String.eqb a (source grp)) eqn:Hsrc; [exact Hm|].
  apply String.eqb_neq in Hsrc.
  destruct (bool_decide (a ∈ targets grp)); [exact Hm|].
  destruct (H1 g grp Hg) as (r & Hr & Hsub). rewrite Hr. simpl.
  split; simpl.
  - intros g0 grp0 Hl. destruct (decide (g0 = g)) as [->|Hne].
    + rewrite lookup_insert_eq in Hl. injection Hl as <-. simpl.
      rewrite lookup_insert_eq. eexists. split; [reflexivity|].
      intros x [Hx|Hx]%elem_of_app; apply add_target_backend_elem.
      * left. apply Hsub, Hx.
      * right. apply list_elem_of_singleton in Hx. exact Hx.
    + rewrite lookup_insert_ne in Hl by congruence.
      destruct (H1 g0 grp0 Hl) as (r0 & Hr0 & Hsub0).
      destruct (decide (source grp0 = source grp)) as [Hs|Hs].
      * rewrite Hs, lookup_insert_eq. eexists. split; [reflexivity|].
        intros x Hx. apply add_target_backend_elem. left.
        assert (r0 = r) as -> by congruence. apply Hsub0, Hx.
      * rewrite lookup_insert_ne by congruence. eauto.
  - intros src r0 Hl.
    assert (exists r1, replicators m !! src = Some r1) as [r1 Hr1].
    { destruct (decide (src = source grp)) as [->|Hne]; [eauto|].
      rewrite lookup_insert_ne in Hl by congruence. eauto. }
    destruct (H2 src r1 Hr1) as (g0 & grp0 & Hg0 & Hs0).
    destruct (decide (g0 = g)) as [->|Hne].
    + exists g. eexists. split; [apply lookup_insert_eq|].
      simpl. congruence.
    + exists g0, grp0. split; [|exact Hs0]. rewrite lookup_insert_ne by congruence. exact Hg0.
  - intros src r0 Hl. destruct (decide (src = source grp)) as [->|Hne].
    + rewrite lookup_insert_eq in Hl. injection Hl as <-.
      destruct (H3 _ _ Hr) as [Hs Hnot].
      split; [rewrite add_target_backend_source; exact Hs|].
      intros [Hin|Hin]%add_target_backend_elem; [contradiction|congruence].
    + rewrite lookup_insert_ne in Hl by congruence. eapply H3. exact Hl.
  - intros g0 grp0 Hl. destruct (decide (g0 = g)) as [->|Hne].
    + rewrite lookup_insert_eq in Hl. injection Hl as <-. simpl.
      intros [Hin|Hin]%elem_of_app.
      * eapply H4; [exact Hg|exact Hin].
      * apply list_elem_of_singleton in Hin. congruence.
    + rewrite lookup_insert_ne in Hl by congruence. eapply H4. exact Hl.
Qed.

Lemma target_used_spec (gs : gmap string Group) src a :
  existsb (fun kv : string * Group =>
             String.eqb (source kv.2) src && bool_decide (a ∈ targets kv.2))
          (map_to_list gs) = true
  <-> exists g grp, gs !! g = Some grp /\ source grp = src /\ a ∈ targets grp.
Proof.
  rewrite existsb_exists. split.
  - intros ([g grp] & Hin & Heq). apply andb_true_iff in Heq as [Hs Ha].
    apply String.eqb_eq in Hs. apply bool_decide_eq_true in Ha.
    apply list_elem_of_In, elem_of_map_to_list in Hin. eauto.
  - intros (g & grp & Hg & Hs & Ha). exists (g, grp). split.
    + apply list_elem_of_In, elem_of_map_to_list. exact Hg.
    + apply andb_true_iff. split; [apply String.eqb_eq; exact Hs|].
      apply bool_decide_eq_true. exact Ha.
Qed.

Lemma remove_target_from_group_consistent g a m :
  consistent m -> consistent (remove_target_from_group g a m).1.
Proof.
  intros Hm. pose proof Hm as [H1 H2 H3 H4]. unfold remove_target_from_group.
  destruct (replication_groups m !! g) as [grp|] eqn:Hg; [|exact Hm].
  destruct (bool_decide (a ∈ targets grp)); simpl; [|exact Hm].
  cbv zeta.
  set (grp' := with_group_targets (Replicator.remove_first a (targets grp)) grp).
  set (gs' := <[g := grp']> (replication_groups m)).
  destruct (H1 g grp Hg) as (r & Hr & Hsub).
  assert (Hgroups : forall g0 grp0, gs' !! g0 = Some grp0 ->
            exists old, replication_groups m !! g0 = Some old
                        /\ source grp0 = source old /\ targets grp0 ⊆ targets old).
  { intros g0 grp0 Hl. unfold gs' in Hl. destruct (decide (g0 = g)) as [->|Hne].
    - rewrite lookup_insert_eq in Hl. injection Hl as <-. exists grp.
      split; [exact Hg|]. split; [reflexivity|].
      intros x Hx. eapply ReplicatorProofs.remove_first_subset. exact Hx.
    - rewrite lookup_insert_ne in Hl by congruence. exists grp0. auto. }
  assert (Hserve : forall src r0, replicators m !! src = Some r0 ->
            exists g0 grp0, gs' !! g0 = Some grp0 /\ source grp0 = src).
  { intros src r0 Hl. destruct (H2 src r0 Hl) as (g0 & grp0 & Hg0 & Hs0).
    destruct (decide (g0 = g)) as [->|Hne].
    - exists g, grp'. split; [apply lookup_insert_eq|]. simpl. congruence.
    - exists g0, grp0. split; [|exact Hs0]. unfold gs'.
      rewrite lookup_insert_ne by congruence. exact Hg0. }
  assert (Hkeep : consistent (with_groups gs' m)).
  { split; simpl.
    - intros g0 grp0 Hl. destruct (Hgroups _ _ Hl) as (old & Hold & Hs & Ht).
      destruct (H1 _ _ Hold) as (r0 & Hr0 & Hsub0).
      exists r0. split; [congruence|]. intros x Hx. apply Hsub0, Ht, Hx.
    - exact Hserve.
    - exact H3.
    - intros g0 grp0 Hl. destruct (Hgroups _ _ Hl) as (old & Hold & Hs & Ht).
      intros Hin. eapply H4; [exact Hold|]. rewrite <- Hs. apply Ht, Hin. }
  destruct (existsb _ _) eqn:Hused; simpl; [exact Hkeep|].
  rewrite Hr. destruct (bool_decide (a ∈ backends m)); simpl; [|exact Hkeep].
  assert (Hfree : forall g0 grp0, gs' !! g0 = Some grp0 ->
            source grp0 = source grp -> a ∉ targets grp0).
  { intros g0 grp0 Hl Hs Hin.
    assert (existsb (fun kv : string * Group =>
                       String.eqb (source kv.2) (source grp)
                       && bool_decide (a ∈ targets kv.2))
                    (map_to_list gs') = true) as Ht
      by (apply target_used_spec; eauto).
    simpl in Hused. fold grp' gs' in Hused. congruence. }
  split; simpl.
  - intros g0 grp0 Hl. destruct (Hgroups _ _ Hl) as (old & Hold & Hs & Ht).
    destruct (H1 _ _ Hold) as (r0 & Hr0 & Hsub0).
    destruct (decide (source grp0 = source grp)) as [Heq|Hne].
    + rewrite Heq, lookup_insert_eq. eexists. split; [reflexivity|].
      intros x Hx. simpl. apply ReplicatorStateProofs.remove_first_other.
      * intros ->. eapply Hfree; eauto.
      * assert (r0 = r) as -> by congruence. apply Hsub0, Ht, Hx.
    + rewrite lookup_insert_ne by congruence. exists r0. split; [congruence|].
      intros x Hx. apply Hsub0, Ht, Hx.
  - intros src r0 Hl.
    assert (exists r1, replicators m !! src = Some r1) as [r1 Hr1].
    { destruct (decide (src = source grp)) as [->|Hne]; [eauto|].
      rewrite lookup_insert_ne in Hl by congruence. eauto. }
    eapply Hserve. exact Hr1.
  - intros src r0 Hl. destruct (decide (src = source grp)) as [->|Hne].
    + rewrite lookup_insert_eq in Hl. injection Hl as <-.
      destruct (H3 _ _ Hr) as [Hs Hnot]. split; [exact Hs|].
      simpl. intros Hin. apply Hnot. eapply ReplicatorProofs.remove_first_subset. exact Hin.
    + rewrite lookup_insert_ne in Hl by congruence. eapply H3. exact Hl.
  - intros g0 grp0 Hl. destruct (Hgroups _ _ Hl) as (old & Hold & Hs & Ht).
    intros Hin. eapply H4; [exact Hold|]. rewrite <- Hs. apply Ht, Hin.
Qed.

Lemma group_replicator_lookup g src r m :
  group_replicator g m = Some (src, r) ->
  exists grp, replication_groups m !! g = Some grp /\ source grp = src
              /\ replicators m !! src = Some r.
Proof.
  unfold group_replicator.
  destruct (replication_groups m !! g) as [grp|]; [|discriminate].
  destruct (replicators m !! source grp) as [r0|] eqn:Hr; [|discriminate].
  intros [= <- <-]. eauto.
Qed.

Lemma start_replication_wiring conn r :
  same_wiring r (Replicator.start_replication conn r).1.
Proof.
  unfold Replicator.start_replication, same_wiring.
  repeat case_match; simpl; auto.
Qed.

Lemma stop_replication_wiring r : same_wiring r (Replicator.stop_replication r).1.
Proof.
  unfold Replicator.stop_replication, same_wiring.
  destruct (Replicator.running r); auto.
Qed.

Lemma step_wiring set_list st r :
  match st with
  | Replicator.Monitor _ _ | Replicator.Replicate _ =>
      same_wiring r (Replicator.step set_list st r).1
  | _ => True
  end.
Proof.
  destruct st; try exact I; unfold same_wiring; simpl.
  - destruct (Replicator.running r); [|auto].
    unfold Replicator.monitor_iteration.
    destruct (negb _); [auto|]. destruct (negb _); [auto|].
    destruct orders as [orders|]; [|auto].
    destruct (Replicator.scan_orders _ _). auto.
  - destruct (Replicator.running r); [|auto].
    unfold Replicator.replication_iteration.
    destruct (Replicator.order_queue r); [auto|]. cbv zeta.
    destruct (negb _); [auto|]. destruct (negb _); auto.
Qed.

Lemma set_group_config_consistent g u m :
  consistent m -> consistent (set_group_config g u m).1.
Proof.
  intros Hm. unfold set_group_config.
  destruct (group_replicator g m) as [[src r]|] eqn:Hg; [|exact Hm].
  apply group_replicator_lookup in Hg as (grp & _ & _ & Hr).
  eapply consistent_rewire; [exact Hm|exact Hr|]. split; reflexivity.
Qed.

Lemma start_replication_consistent conn g m :
  consistent m -> consistent (start_replication conn g m).1.
Proof.
  intros Hm. unfold start_replication.
  destruct (group_replicator g m) as [[src r]|] eqn:Hg; [|exact Hm].
  apply group_replicator_lookup in Hg as (grp & _ & _ & Hr).
  pose proof (start_replication_wiring conn r) as Hw.
  destruct (Replicator.start_replication conn r) as [r' ok]. simpl in *.
  eapply consistent_rewire; eauto.
Qed.

Lemma stop_replication_consistent g m :
  consistent m -> consistent (stop_replication g m).1.
Proof.
  intros Hm. unfold stop_replication.
  destruct (group_replicator g m) as [[src r]|] eqn:Hg; [|exact Hm].
  apply group_replicator_lookup in Hg as (grp & _ & _ & Hr).
  destruct (negb _).
  - pose proof (stop_replication_wiring r) as Hw.
    destruct (Replicator.stop_replication r) as [r' ok]. simpl in *.
    eapply consistent_rewire; eauto.
  - simpl. eapply consistent_rewire; [exact Hm|exact Hr|]. split; reflexivity.
Qed.

Lemma thread_pass_consistent set_list src st m :
  match st with
  | Replicator.Monitor _ _ | Replicator.Replicate _ => True
  | _ => False
  end ->
  consistent m -> consistent (thread_pass set_list src st m).
Proof.
  intros Hst Hm. unfold thread_pass.
  destruct (replicators m !! src) as [r|] eqn:Hr; [|exact Hm].
  eapply consistent_rewire; [exact Hm|exact Hr|].
  pose proof (step_wiring set_list st r) as Hw.
  destruct st; solve [exact Hw | destruct Hst].
Qed.

Lemma detach_account_consistent a m entry :
  consistent m -> consistent (detach_account a m entry).
Proof.
  intros Hm. destruct entry as [g grp]. unfold detach_account.
  destruct (String.eqb _ _); [apply remove_replication_group_consistent, Hm|].
  destruct (bool_decide _); [apply remove_target_from_group_consistent, Hm|exact Hm].
Qed.

Lemma remove_account_consistent dict_items a m :
  consistent m -> consistent (remove_account dict_items a m).1.
Proof.
  intros Hm. unfold remove_account.
  destruct (negb _); [exact Hm|]. simpl.
  apply consistent_backends.
  generalize (dict_items (replication_groups m)). intros l.
  revert m Hm. induction l as [|e l IH]; intros m Hm; simpl; [exact Hm|].
  apply IH, detach_account_consistent, Hm.
Qed.

Lemma restore_group_consistent file m entry :
  consistent m -> consistent (restore_group file m entry).
Proof.
  intros Hm. destruct entry as [g grp]. unfold restore_group.
  destruct (negb _); [exact Hm|]. cbv zeta.
  pose proof (create_replication_group_consistent g (source grp) (targets grp) m Hm) as Hc.
  destruct (cf_group_configs file) as [configs|]; [|exact Hc].
  destruct (configs !! g); [|exact Hc].
  apply set_group_config_consistent, Hc.
Qed.

Lemma load_configuration_consistent file m :
  consistent m -> consistent (load_configuration file m).1.
Proof.
  intros Hm. unfold load_configuration.
  destruct file as [[config|]|]; try exact Hm.
  destruct (cf_groups config) as [groups|]; [|exact Hm]. simpl.
  assert (consistent (with_replicators ∅ (with_groups ∅ m))) as H0
    by (split; intros *; simpl; rewrite lookup_empty; discriminate).
  revert H0. generalize (with_replicators ∅ (with_groups ∅ m)).
  induction groups as [|e l IH]; intros m0 H0; simpl; [exact H0|].
  apply IH, restore_group_consistent, H0.
Qed.

Lemma apply_op_consistent dict_items set_list op m :
  consistent m -> consistent (apply_op dict_items set_list op m).
Proof.
  intros Hm. destruct op; simpl.
  - apply add_account_consistent, Hm.
  - apply remove_account_consistent, Hm.
  - apply create_replication_group_consistent, Hm.
  - apply remove_replication_group_consistent, Hm.
  - apply add_target_to_group_consistent, Hm.
  - apply remove_target_from_group_consistent, Hm.
  - apply set_group_config_consistent, Hm.
  - apply start_replication_consistent, Hm.
  - apply stop_replication_consistent, Hm.
  - apply thread_pass_consistent; [exact I|exact Hm].
  - apply thread_pass_consistent; [exact I|exact Hm].
  - apply load_configuration_consistent, Hm.
Qed.

Lemma run_ops_consistent dict_items set_list ops : forall m,
  consistent m -> consistent (run_ops dict_items set_list ops m).
Proof.
  induction ops as [|op ops IH]; intros m Hm; simpl; [exact Hm|].
  apply IH, apply_op_consistent, Hm.
Qed.

(** X22: whatever calls are made on a registry that starts empty, and
    however the threads of its replicators are interleaved with them: every
    group has the replicator of its source account, whose targets include
    those of the group; every replicator serves a group that is still there,
    reads the account it stands under and never writes orders back to that
    account; no group lists its own source as a target; and every group has
    a configuration to read. *)
Theorem registry_stays_consistent
    (dict_items : gmap string Group -> list (string * Group))
    (set_list : gset Z -> list Z) (ops : list Op) :
  let m := run_ops dict_items set_list ops empty in
  consistent m
  /\ forall g group, replication_groups m !! g = Some group ->
       is_Some (get_group_config g m).
Proof.
  intros m.
  assert (consistent m) as Hm by (apply run_ops_consistent, consistent_empty).
  split; [exact Hm|].
  intros g grp Hg. destruct (group_has_replicator m Hm g grp Hg) as (r & Hr & _).
  unfold get_group_config.
  rewrite (MultiAccountProofs.group_replicator_some g grp r m Hg Hr). eauto.
Qed.

End GroupsProofs.

(** ** Calls on groups and how they compose *)
Module GroupCallsProofs.
Import MultiAccount Groups.

(** X23: removing a group takes its replicator away only when no other
    group reads the same source account. While another group does, the
    replicator stays as it is, the targets of the removed group included:
    orders of the source go on being replicated to them. *)
Theorem removed_group_leaves_its_targets_on_a_shared_replicator
    (g : string) (grp : Group) (m : Registry) :
  consistent m ->
  replication_groups m !! g = Some grp ->
  let m' := (remove_replication_group g m).1 in
  (remove_replication_group g m).2 = true
  /\ replication_groups m' = delete g (replication_groups m)
  /\ backends m' = backends m
  /\ ((exists g' grp', g' <> g /\ replication_groups m !! g' = Some grp'
                       /\ source grp' = source grp) ->
      replicators m' = replicators m
      /\ exists r, replicators m' !! source grp = Some r
                   /\ targets grp ⊆ Replicator.mt5_backend_targets r)
  /\ ((forall g' grp', g' <> g -> replication_groups m !! g' = Some grp' ->
                       source grp' <> source grp) ->
      replicators m' = delete (source grp) (replicators m)).
Proof.
  intros Hm Hg m'. unfold m', remove_replication_group. rewrite Hg. cbv zeta.
  destruct (existsb _ _) eqn:Hused; simpl.
  - apply GroupsProofs.source_used_spec in Hused as (g' & grp' & Hg' & Hs).
    simpl in Hg'. apply lookup_delete_Some in Hg' as [Hne Hg'].
    split; [reflexivity|]. split; [reflexivity|]. split; [reflexivity|]. split.
    + intros _. split; [reflexivity|]. apply (group_has_replicator m Hm g grp Hg).
    + intros Hnone. exfalso. eapply Hnone; eauto.
  - split; [reflexivity|]. split; [reflexivity|]. split; [reflexivity|]. split.
    + intros (g' & grp' & Hne & Hg' & Hs). exfalso.
      assert (existsb (fun kv : string * Group => String.eqb (source kv.2) (source grp))
                (map_to_list (delete g (replication_groups m))) = true) as Ht.
      { apply GroupsProofs.source_used_spec. exists g', grp'. split; [|exact Hs].
        apply lookup_delete_Some. split; [congruence|exact Hg']. }
      simpl in Hused. congruence.
    + intros _. reflexivity.
Qed.

(** X24: a target added to a group and removed again leaves the registry
    as it was, provided the replicator of the source did not already write
    to that account. *)
Theorem group_target_add_then_remove (g a : string) (grp : Group)
    (r : Replicator.Replicator) (m : Registry) :
  consistent m ->
  replication_groups m !! g = Some grp ->
  replicators m !! source grp = Some r ->
  a ∈ backends m ->
  a ∉ Replicator.mt5_backend_targets r ->
  a <> source grp ->
  (add_target_to_group g a m).2 = true
  /\ (exists grp', replication_groups (add_target_to_group g a m).1 !! g = Some grp'
                   /\ a ∈ targets grp')
  /\ remove_target_from_group g a (add_target_to_group g a m).1 = (m, true).
Proof.
  intros Hm Hg Hr Hb Hnr Hne.
  destruct (group_has_replicator m Hm g grp Hg) as (r0 & Hr0 & Hsub).
  assert (r0 = r) as -> by congruence.
  assert (a ∉ targets grp) as Hng by (intros Hin; apply Hnr, Hsub, Hin).
  unfold add_target_to_group. rewrite Hg.
  rewrite bool_decide_eq_true_2 by exact Hb. simpl.
  rewrite (proj2 (String.eqb_neq _ _) Hne).
  rewrite bool_decide_eq_false_2 by exact Hng. rewrite Hr. simpl.
  split; [reflexivity|]. split.
  { rewrite lookup_insert_eq. eexists. split; [reflexivity|]. simpl.
    apply elem_of_app. right. apply list_elem_of_singleton. reflexivity. }
  unfold remove_target_from_group. simpl. rewrite lookup_insert_eq. simpl.
  rewrite bool_decide_eq_true_2
    by (apply elem_of_app; right; apply list_elem_of_singleton; reflexivity).
  simpl. rewrite ReplicatorStateProofs.remove_first_app_new by exact Hng.
  rewrite insert_insert_eq.
  assert (with_group_targets (targets grp) (with_group_targets (targets grp ++ [a]) grp) = grp)
    as -> by (destruct grp; reflexivity).
  rewrite (insert_id _ _ _ Hg).
  destruct (existsb _ _) eqn:Hused.
  - exfalso. apply GroupsProofs.target_used_spec in Hused as (g' & grp' & Hg' & Hs & Ha).
    destruct (group_has_replicator m Hm g' grp' Hg') as (r' & Hr' & Hsub').
    rewrite Hs in Hr'. assert (r' = r) as -> by congruence.
    apply Hnr, Hsub', Ha.
  - simpl. rewrite lookup_insert_eq. rewrite bool_decide_eq_true_2 by exact Hb.
    rewrite insert_insert_eq.
    assert (Replicator.remove_target_backend a (Replicator.add_target_backend a r) = r) as ->.
    { unfold Replicator.add_target_backend, Replicator.remove_target_backend.
      rewrite bool_decide_eq_false_2 by exact Hnr. simpl.
      rewrite ReplicatorStateProofs.remove_first_app_new by exact Hnr.
      destruct r; reflexivity. }
    rewrite (insert_id _ _ _ Hr). destruct m; reflexivity.
Qed.

Lemma is_source_active_true g g' grp' r m :
  g' <> g ->
  replication_groups m !! g' = Some grp' ->
  replicators m !! source grp' = Some r ->
  Replicator.enabled (Replicator.replication_config r) = true ->
  is_source_active g (source grp') m = true.
Proof.
  intros Hne Hg' Hr Hen. unfold is_source_active. apply existsb_exists.
  exists (g', grp'). split.
  - apply list_elem_of_In, elem_of_map_to_list. exact Hg'.
  - simpl. rewrite (proj2 (String.eqb_neq _ _) Hne), String.eqb_refl. simpl.
    unfold get_group_config.
    rewrite (MultiAccountProofs.group_replicator_some g' grp' r m Hg' Hr). exact Hen.
Qed.

(** X25: two groups read one source account whose replicator is running
    and enabled. After [stop_replication] of one of them,
    [start_replication] of either group answers [True] and changes nothing:
    the threads run, the configuration stays disabled and the monitor
    thread enqueues nothing, whatever the source history holds. *)
Theorem restart_after_a_shared_stop_stays_disabled
    (set_list : gset Z -> list Z) (conn : string -> bool)
    (g g' : string) (grp grp' : Group) (r : Replicator.Replicator) (m : Registry) :
  replication_groups m !! g = Some grp ->
  replication_groups m !! g' = Some grp' ->
  g' <> g ->
  source grp' = source grp ->
  replicators m !! source grp = Some r ->
  Replicator.running r = true ->
  Replicator.enabled (Replicator.replication_config r) = true ->
  let m1 := (stop_replication g m).1 in
  forall g2, g2 = g \/ g2 = g' ->
    start_replication conn g2 m1 = (m1, true)
    /\ exists r1,
         replicators m1 !! source grp = Some r1
         /\ Replicator.running r1 = true
         /\ Replicator.enabled <$> get_group_config g2 m1 = Some false
         /\ forall connected orders,
              Replicator.step set_list (Replicator.Monitor connected orders) r1 = (r1, []).
Proof.
  intros Hg Hg' Hne Hs Hr Hrun Hen m1 g2 Hg2.
  assert (is_source_active g (source grp) m = true) as Hact.
  { rewrite <- Hs. eapply is_source_active_true; eauto. rewrite Hs. exact Hr. }
  pose proof (MultiAccountProofs.group_replicator_some g grp r m Hg Hr) as Hgr.
  assert (exists grp2, replication_groups m !! g2 = Some grp2 /\ source grp2 = source grp)
    as (grp2 & Hgrp2 & Hs2) by (destruct Hg2 as [->| ->]; eauto).
  set (r1 := Replicator.set_replication_config
               (Replicator.as_update
                  (Replicator.set_enabled false (Replicator.get_replication_config r))) r).
  assert (m1 = with_replicators (<[source grp := r1]> (replicators m)) m) as Hm1.
  { unfold m1, stop_replication. rewrite Hgr, Hact. reflexivity. }
  assert (group_replicator g2 m1 = Some (source grp, r1)) as Hgr2.
  { rewrite Hm1. unfold group_replicator. simpl. rewrite Hgrp2, Hs2, lookup_insert_eq.
    reflexivity. }
  split.
  - unfold start_replication. rewrite Hgr2.
    unfold Replicator.start_replication. simpl. rewrite Hrun.
    rewrite Hm1. simpl. rewrite insert_insert_eq. reflexivity.
  - exists r1. split; [rewrite Hm1; simpl; apply lookup_insert_eq|].
    split; [exact Hrun|]. split.
    + unfold get_group_config. rewrite Hgr2. reflexivity.
    + intros connected orders. simpl. rewrite Hrun. reflexivity.
Qed.

End GroupCallsProofs.

(** ** Saving and loading the groups *)
Module SaveLoadProofs.
Import MultiAccount Groups.

Lemma update_as_update c c' : Replicator.update (Replicator.as_update c) c' = c.
Proof. destruct c; reflexivity. Qed.

Lemma filter_all {A} (f : A -> bool) l :
  Forall (fun x => f x = true) l -> List.filter f l = l.
Proof.
  induction 1 as [|x l Hx Hl IH]; [reflexivity|].
  simpl. rewrite Hx, IH. reflexivity.
Qed.

Lemma add_targets_state ts : forall r,
  let r' := foldl (fun r target_id => Replicator.add_target_backend target_id r) r ts in
  Replicator.running r' = Replicator.running r
  /\ Replicator.order_queue r' = Replicator.order_queue r
  /\ Replicator.processed_orders r' = Replicator.processed_orders r
  /\ Replicator.replication_config r' = Replicator.replication_config r.
Proof.
  induction ts as [|b ts IH]; intros r; simpl; [auto|].
  destruct (IH (Replicator.add_target_backend b r)) as (-> & -> & -> & ->).
  unfold Replicator.add_target_backend. destruct (bool_decide _); auto.
Qed.

Lemma saved_configs_lookup m names :
  forall (acc : gmap string Replicator.ConfigUpdate) g,
  foldl (fun configs group_name =>
           match get_group_config group_name m with
           | Some group_config =>
               <[group_name := Replicator.as_update group_config]> configs
           | None => configs
           end) acc names !! g
  = match (if bool_decide (g ∈ names) then get_group_config g m else None) with
    | Some c => Some (Replicator.as_update c)
    | None => acc !! g
    end.
Proof.
  induction names as [|n names IH]; intros acc g; cbn [foldl].
  - rewrite bool_decide_eq_false_2 by apply not_elem_of_nil. reflexivity.
  - rewrite IH. destruct (bool_decide (g ∈ names)) eqn:Hin.
    + apply bool_decide_eq_true in Hin.
      rewrite bool_decide_eq_true_2 by (apply elem_of_cons; right; exact Hin).
      destruct (get_group_config g m) as [c|] eqn:Hc; [reflexivity|].
      destruct (decide (n = g)) as [->|Hne]; [rewrite Hc; reflexivity|].
      destruct (get_group_config n m); [rewrite lookup_insert_ne by exact Hne|]; reflexivity.
    + apply bool_decide_eq_false in Hin.
      destruct (decide (n = g)) as [->|Hne].
      * rewrite bool_decide_eq_true_2 by (apply elem_of_cons; left; reflexivity).
        destruct (get_group_config g m) as [c|]; [rewrite lookup_insert_eq|]; reflexivity.
      * rewrite bool_decide_eq_false_2
          by (intros [Heq|Hx]%elem_of_cons; [congruence|contradiction]).
        destruct (get_group_config n m); [rewrite lookup_insert_ne by exact Hne|]; reflexivity.
Qed.

Lemma saved_config_of_group dict_items m g grp :
  well_formed m ->
  replication_groups m !! g = Some grp ->
  (g, grp) ∈ dict_items (replication_groups m) ->
  exists r0 configs,
    replicators m !! source grp = Some r0
    /\ cf_group_configs (save_configuration dict_items m) = Some configs
    /\ configs !! g = Some (Replicator.as_update (Replicator.replication_config r0)).
Proof.
  intros Hwf Hg Hin. destruct (Hwf g grp Hg) as [r0 Hr0].
  exists r0. eexists. split; [exact Hr0|]. split; [reflexivity|].
  rewrite saved_configs_lookup.
  rewrite bool_decide_eq_true_2
    by (apply list_elem_of_fmap; exists (g, grp); split; [reflexivity|exact Hin]).
  unfold get_group_config.
  rewrite (MultiAccountProofs.group_replicator_some g grp r0 m Hg Hr0). reflexivity.
Qed.

Lemma valid_targets_all (bs : gset string) (src : string) (l : list string) :
  Forall (fun a => a ∈ bs /\ a <> src) l ->
  List.filter (fun target_id => bool_decide (target_id ∈ bs)
                                && negb (String.eqb target_id src)) l = l.
Proof.
  intros Hall. apply filter_all. eapply Forall_impl; [exact Hall|].
  intros a [Ha Hne]. simpl. rewrite bool_decide_eq_true_2 by exact Ha.
  rewrite (proj2 (String.eqb_neq _ _) Hne). reflexivity.
Qed.

Lemma restore_group_step dict_items m mi g grp :
  well_formed m ->
  valid_groups m ->
  (g, grp) ∈ dict_items (replication_groups m) ->
  replication_groups m !! g = Some grp ->
  replication_groups mi !! g = None ->
  restored m mi ->
  let mi' := restore_group (save_configuration dict_items m) mi (g, grp) in
  restored m mi'
  /\ replication_groups mi' = <[g := grp]> (replication_groups mi).
Proof.
  intros Hwf Hvalid Hin Hg Hnone (Hb & Hgs & Hrs) mi'.
  destruct (Hvalid g grp Hg) as [Hsrc Hts].
  destruct (saved_config_of_group dict_items m g grp Hwf Hg Hin)
    as (r0 & configs & Hr0 & Hcf & Hcg).
  assert (exists r1,
    mi' = with_replicators (<[source grp := r1]> (replicators mi))
            (with_groups (<[g := grp]> (replication_groups mi)) mi)
    /\ Replicator.running r1 = false
    /\ Replicator.order_queue r1 = []
    /\ Replicator.processed_orders r1 = ∅
    /\ Replicator.replication_config r1 = Replicator.replication_config r0
    /\ (forall x, x ∈ Replicator.mt5_backend_targets r1
          <-> x ∈ targets grp
              \/ exists r, replicators mi !! source grp = Some r
                           /\ x ∈ Replicator.mt5_backend_targets r))
    as (r1 & Hmi' & Hrun & Hq & Hp & Hc & Ht).
  { unfold mi', restore_group. rewrite Hb.
    rewrite bool_decide_eq_true_2 by exact Hsrc. rewrite Hcf. cbn [negb].
    unfold create_replication_group.
    rewrite bool_decide_eq_false_2 by (rewrite Hnone; intros [? ?]; discriminate).
    rewrite Hb, bool_decide_eq_true_2 by exact Hsrc. cbn [negb]. cbv zeta.
    rewrite (valid_targets_all _ _ _ Hts), Hcg.
    assert ({| source := source grp; targets := targets grp |} = grp) as ->
      by (destruct grp; reflexivity).
    destruct (replicators mi !! source grp) as [r|] eqn:Hr; simpl;
      unfold set_group_config, group_replicator; simpl;
      rewrite lookup_insert_eq, lookup_insert_eq; simpl; rewrite insert_insert_eq;
      eexists; (split; [reflexivity|]); simpl.
    - destruct (Hrs _ _ Hr) as (Hrun & Hq & Hp & _ & _).
      destruct (add_targets_state (targets grp) r) as (-> & -> & -> & ->).
      rewrite update_as_update.
      split; [exact Hrun|]. split; [exact Hq|]. split; [exact Hp|].
      split; [reflexivity|].
      intros x. rewrite GroupsProofs.add_targets_elem. split.
      + intros [Hx|Hx]; [right; eauto|left; exact Hx].
      + intros [Hx|(r' & [= <-] & Hx)]; [right|left]; exact Hx.
    - rewrite update_as_update. repeat (split; [reflexivity|]).
      intros x. split; [intros Hx; left; exact Hx|].
      intros [Hx|(r' & Hr' & _)]; [exact Hx|discriminate]. }
  split; [|rewrite Hmi'; reflexivity].
  rewrite Hmi'. split; [exact Hb|]. split; simpl.
  - intros g0 grp0 Hl. destruct (decide (g0 = g)) as [->|Hne].
    + rewrite lookup_insert_eq in Hl. injection Hl as <-.
      split; [exact Hg|]. rewrite lookup_insert_eq. eauto.
    + rewrite lookup_insert_ne in Hl by congruence.
      destruct (Hgs g0 grp0 Hl) as [Hm0 [r' Hr']]. split; [exact Hm0|].
      destruct (decide (source grp0 = source grp)) as [Heq|Hs].
      * rewrite Heq, lookup_insert_eq. eauto.
      * rewrite lookup_insert_ne by congruence. eauto.
  - intros src r Hl. destruct (decide (src = source grp)) as [->|Hs].
    + rewrite lookup_insert_eq in Hl. injection Hl as <-.
      split; [exact Hrun|]. split; [exact Hq|]. split; [exact Hp|].
      split; [eauto|].
      intros x. rewrite Ht. split.
      * intros [Hx|(r & Hr & Hx)].
        -- exists g, grp. rewrite lookup_insert_eq. auto.
        -- destruct (Hrs _ _ Hr) as (_ & _ & _ & _ & Hiff).
           apply Hiff in Hx as (g0 & grp0 & Hg0 & Hs0 & Hx0).
           exists g0, grp0. rewrite lookup_insert_ne by congruence. auto.
      * intros (g0 & grp0 & Hg0 & Hs0 & Hx0).
        destruct (decide (g0 = g)) as [->|Hne].
        -- rewrite lookup_insert_eq in Hg0. injection Hg0 as <-. left. exact Hx0.
        -- rewrite lookup_insert_ne in Hg0 by congruence. right.
           destruct (Hgs g0 grp0 Hg0) as [_ [r Hr]]. rewrite Hs0 in Hr.
           exists r. split; [exact Hr|].
           destruct (Hrs _ _ Hr) as (_ & _ & _ & _ & Hiff). apply Hiff. eauto.
    + rewrite lookup_insert_ne in Hl by congruence.
      destruct (Hrs _ _ Hl) as (H1 & H2 & H3 & H4 & Hiff).
      split; [exact H1|]. split; [exact H2|]. split; [exact H3|]. split; [exact H4|].
      intros x. rewrite Hiff. split; intros (g0 & grp0 & Hg0 & Hs0 & Hx0).
      * exists g0, grp0. rewrite lookup_insert_ne by congruence. auto.
      * destruct (decide (g0 = g)) as [->|Hne].
        -- rewrite lookup_insert_eq in Hg0. injection Hg0 as <-. congruence.
        -- rewrite lookup_insert_ne in Hg0 by congruence. eauto.
Qed.

Lemma restore_all dict_items m l : forall mi,
  well_formed m ->
  valid_groups m ->
  NoDup l.*1 ->
  (forall g grp, (g, grp) ∈ l ->
     (g, grp) ∈ dict_items (replication_groups m)
     /\ replication_groups m !! g = Some grp
     /\ replication_groups mi !! g = None) ->
  restored m mi ->
  let mf := foldl (restore_group (save_configuration dict_items m)) mi l in
  restored m mf
  /\ forall g grp, replication_groups mf !! g = Some grp
       <-> (g, grp) ∈ l \/ replication_groups mi !! g = Some grp.
Proof.
  induction l as [|[g grp] l IH]; intros mi Hwf Hvalid Hnd Hl Hres; simpl.
  - split; [exact Hres|]. intros g grp. rewrite elem_of_nil. tauto.
  - simpl in Hnd. apply NoDup_cons in Hnd as [Hg Hnd].
    destruct (Hl g grp) as (Hin & Hm & Hnone); [apply elem_of_cons; left; reflexivity|].
    destruct (restore_group_step dict_items m mi g grp Hwf Hvalid Hin Hm Hnone Hres)
      as [Hres' Hgroups].
    destruct (IH (restore_group (save_configuration dict_items m) mi (g, grp))
                Hwf Hvalid Hnd) as [Hfin Hiff].
    + intros g0 grp0 Hin0.
      destruct (Hl g0 grp0) as (H1 & H2 & H3); [apply elem_of_cons; right; exact Hin0|].
      split; [exact H1|]. split; [exact H2|].
      rewrite Hgroups, lookup_insert_ne; [exact H3|].
      intros <-. apply Hg. apply list_elem_of_fmap. exists (g, grp0). auto.
    + exact Hres'.
    + split; [exact Hfin|]. intros g0 grp0. rewrite Hiff, Hgroups, elem_of_cons.
      destruct (decide (g0 = g)) as [->|Hne].
      * rewrite lookup_insert_eq. split.
        -- intros [Hx|[= <-]]; [auto|left; left; reflexivity].
        -- intros [[[= <-]|Hx]|Hx]; [right; reflexivity|left; exact Hx|congruence].
      * rewrite lookup_insert_ne by congruence. split.
        -- intros [Hx|Hx]; auto.
        -- intros [[[= ? ?]|Hx]|Hx]; [congruence|auto|auto].
Qed.

(** X26: saving the groups and loading the file again into the same
    registry, in which every group has its replicator and names only
    accounts that the registry holds, and whose groups are enumerated
    without a repeat: the groups come back as they were and each reads the
    configuration it had, [enabled] included; but every replicator is a new
    one that is not running, with nothing queued or remembered, and it
    writes to the targets of its groups and to no others. *)
Theorem save_then_load_restores_groups_and_configs
    (dict_items : gmap string Group -> list (string * Group)) (m : Registry) :
  dict_items (replication_groups m) ≡ₚ map_to_list (replication_groups m) ->
  well_formed m ->
  valid_groups m ->
  let m' := (load_configuration (Some (Some (save_configuration dict_items m))) m).1 in
  (load_configuration (Some (Some (save_configuration dict_items m))) m).2 = true
  /\ backends m' = backends m
  /\ replication_groups m' = replication_groups m
  /\ (forall g, get_group_config g m' = get_group_config g m)
  /\ (forall src r, replicators m' !! src = Some r ->
        Replicator.running r = false
        /\ Replicator.order_queue r = []
        /\ Replicator.processed_orders r = ∅
        /\ forall x, x ∈ Replicator.mt5_backend_targets r
             <-> exists g grp, replication_groups m !! g = Some grp
                               /\ source grp = src /\ x ∈ targets grp).
Proof.
  intros Hperm Hwf Hvalid m'.
  set (m0 := with_replicators ∅ (with_groups ∅ m)).
  assert (Hm' : m' = foldl (restore_group (save_configuration dict_items m)) m0
                       (dict_items (replication_groups m))) by reflexivity.
  assert (restored m m0) as H0.
  { split; [reflexivity|]. split; intros *; simpl; rewrite lookup_empty; discriminate. }
  assert (Hmem : forall g grp, (g, grp) ∈ dict_items (replication_groups m)
                               <-> replication_groups m !! g = Some grp).
  { intros g grp. rewrite Hperm. apply elem_of_map_to_list. }
  assert (Hnd : NoDup (dict_items (replication_groups m)).*1).
  { rewrite Hperm. apply NoDup_fst_map_to_list. }
  destruct (restore_all dict_items m (dict_items (replication_groups m)) m0 Hwf Hvalid Hnd)
    as [(Hb & Hgs & Hrs) Hiff].
  { intros g grp Hin. split; [exact Hin|]. split; [apply Hmem, Hin|].
    simpl. apply lookup_empty. }
  { exact H0. }
  rewrite <- Hm' in Hb, Hgs, Hrs, Hiff. clearbody m'.
  assert (Hgroups : replication_groups m' = replication_groups m).
  { apply map_eq. intros g. apply option_eq. intros grp.
    rewrite Hiff, Hmem. simpl. rewrite lookup_empty.
    split; [intros [H|H]; [exact H|discriminate]|auto]. }
  split; [reflexivity|]. split; [exact Hb|]. split; [exact Hgroups|]. split.
  - intros g. unfold get_group_config, group_replicator. rewrite Hgroups.
    destruct (replication_groups m !! g) as [grp|] eqn:Hg; [|reflexivity].
    destruct (Hgs g grp) as [_ [r Hr]]; [rewrite Hgroups; exact Hg|].
    rewrite Hr. destruct (Hrs _ _ Hr) as (_ & _ & _ & (r0 & Hr0 & Hc) & _).
    rewrite Hr0. unfold Replicator.get_replication_config. rewrite Hc. reflexivity.
  - intros src r Hr. destruct (Hrs _ _ Hr) as (H1 & H2 & H3 & _ & Ht).
    split; [exact H1|]. split; [exact H2|]. split; [exact H3|].
    intros x. rewrite Ht, Hgroups. reflexivity.
Qed.

End SaveLoadProofs.

(** ** The order queue of the integration module *)
Module IntegrationProofs.
Import Integration.

Lemma count_events_app kind evs1 evs2 :
  count_events kind (evs1 ++ evs2)
  = (count_events kind evs1 + count_events kind evs2)%nat.
Proof. unfold count_events. rewrite List.filter_app, length_app. reflexivity. Qed.

Lemma retry_loop_spec replicate retry_delay i item :
  Py.ltb retry_delay 0 = false ->
  forall remaining done,
    (retry_loop replicate retry_delay i item done remaining).1
    = Some (negb (forallb (fun n => negb (replicate i item n)) (seq (S done) remaining)))
    /\ (count_events is_attempt
          (retry_loop replicate retry_delay i item done remaining).2 <= remaining)%nat
    /\ (count_events is_sleep
          (retry_loop replicate retry_delay i item done remaining).2 <= remaining - 1)%nat
    /\ count_events is_warning
         (retry_loop replicate retry_delay i item done remaining).2 = 0%nat.
Proof.
  intros Hd. induction remaining as [|rest IH]; intros done.
  - simpl. repeat split; reflexivity || lia.
  - cbn [retry_loop seq forallb].
    destruct (replicate i item (S done)) eqn:Hr.
    + simpl. unfold count_events. simpl. repeat split; reflexivity || lia.
    + destruct rest as [|rest'].
      * simpl. unfold count_events. simpl. repeat split; reflexivity || lia.
      * rewrite Hd. specialize (IH (S done)).
        destruct (retry_loop replicate retry_delay i item (S done) (S rest')) as [s evs].
        destruct IH as (Hs & Ha & Hsl & Hw). simpl in Hs, Ha, Hsl, Hw.
        cbn [fst snd negb andb]. split; [exact Hs|].
        unfold count_events in *. simpl. repeat split; lia.
Qed.

Lemma process_items_spec replicate retry_delay retry_attempts :
  Py.ltb retry_delay 0 = false ->
  forall queue_copy i order_queue,
    let result := process_items replicate retry_delay retry_attempts i queue_copy
                    order_queue in
    result.1 = order_queue
               ++ map snd (List.filter
                             (fun p => gives_up replicate retry_attempts p.1 p.2)
                             (numbered i queue_copy))
    /\ (count_events is_attempt result.2
        <= length queue_copy * Z.to_nat retry_attempts)%nat
    /\ (count_events is_sleep result.2
        <= length queue_copy * (Z.to_nat retry_attempts - 1))%nat
    /\ (length order_queue + count_events is_warning result.2 = length result.1)%nat.
Proof.
  intros Hd. induction queue_copy as [|item rest IH]; intros i order_queue result.
  - unfold result. simpl. rewrite app_nil_r. unfold count_events. simpl.
    repeat split; lia.
  - unfold result. cbn [process_items numbered List.filter].
    destruct (retry_loop_spec replicate retry_delay i item Hd (Z.to_nat retry_attempts) 0%nat)
      as (Hs & Ha & Hsl & Hw).
    destruct (retry_loop replicate retry_delay i item 0 (Z.to_nat retry_attempts))
      as [s evs].
    simpl in Hs, Ha, Hsl, Hw. subst s.
    change (gives_up replicate retry_attempts (i, item).1 (i, item).2)
      with (forallb (fun n => negb (replicate i item n)) (seq 1 (Z.to_nat retry_attempts))).
    destruct (forallb _ (seq 1 (Z.to_nat retry_attempts))); cbn [negb].
    + specialize (IH (S i) (order_queue ++ [item])).
      destruct (process_items replicate retry_delay retry_attempts (S i) rest
                  (order_queue ++ [item])) as [q evs'].
      destruct IH as (Hq & Ha' & Hsl' & Hw'). simpl in Hq, Ha', Hsl', Hw'.
      cbn [fst snd map]. rewrite Hq, <- app_assoc. split; [reflexivity|].
      change (evs ++ Warning (order_id item) :: evs')
        with (evs ++ [Warning (order_id item)] ++ evs').
      rewrite !count_events_app. rewrite Hq in Hw'. rewrite !length_app in *.
      unfold count_events at 2 5 8. simpl in *. repeat split; lia.
    + specialize (IH (S i) order_queue).
      destruct (process_items replicate retry_delay retry_attempts (S i) rest order_queue)
        as [q evs'].
      destruct IH as (Hq & Ha' & Hsl' & Hw'). simpl in Hq, Ha', Hsl', Hw'.
      cbn [fst snd]. split; [exact Hq|].
      rewrite !count_events_app. simpl. repeat split; lia.
Qed.

Lemma no_try_gives_up replicate retry_attempts :
  (retry_attempts <= 0)%Z ->
  forall order_queue i,
    map snd (List.filter (fun p => gives_up replicate retry_attempts p.1 p.2)
                         (numbered i order_queue)) = order_queue.
Proof.
  intros Hra. induction order_queue as [|item rest IH]; intros i; [reflexivity|].
  cbn [numbered List.filter]. unfold gives_up at 1.
  replace (Z.to_nat retry_attempts) with 0%nat by lia. simpl. rewrite IH. reflexivity.
Qed.

(** X27: a pass over the order queue with a retry delay that is not
    negative: the new queue holds the items whose every allowed try failed,
    in their order, each with one warning; no more than [retry_attempts]
    tries are made per item, and the pass sleeps less often than it tries.
    With [retry_attempts] at zero or below nothing is tried and the queue
    stays as it is. *)
Theorem order_queue_pass_requeues_what_gave_up
    (replicate : nat -> Item -> nat -> bool) (retry_delay : Q)
    (retry_attempts : Z) (order_queue : list Item) :
  Py.ltb retry_delay 0 = false ->
  let result := _process_order_queue replicate retry_delay retry_attempts order_queue in
  result.1 = map snd (List.filter (fun p => gives_up replicate retry_attempts p.1 p.2)
                                  (numbered 0 order_queue))
  /\ (count_events is_attempt result.2
      <= length order_queue * Z.to_nat retry_attempts)%nat
  /\ (count_events is_sleep result.2
      <= length order_queue * (Z.to_nat retry_attempts - 1))%nat
  /\ count_events is_warning result.2 = length result.1
  /\ ((retry_attempts <= 0)%Z ->
      result.1 = order_queue /\ count_events is_attempt result.2 = 0%nat).
Proof.
  intros Hd result.
  assert (result = process_items replicate retry_delay retry_attempts 0 order_queue [])
    as -> by (unfold result, _process_order_queue; destruct order_queue; reflexivity).
  destruct (process_items_spec replicate retry_delay retry_attempts Hd order_queue 0%nat [])
    as (Hq & Ha & Hsl & Hw).
  split; [exact Hq|]. split; [exact Ha|]. split; [exact Hsl|]. split; [exact Hw|].
  intros Hra. split.
  - rewrite Hq. apply no_try_gives_up. exact Hra.
  - replace (Z.to_nat retry_attempts) with 0%nat in Ha by lia. lia.
Qed.

Lemma order_queue_pass_requeues_what_gave_up_witness :
  Py.ltb 1 0 = false
  /\ (_process_order_queue order_2_fails 1 3 three_items).1
     = [ {| source := "replicator"; order_id := 2 |} ].
Proof.
  split; [reflexivity|].
  destruct (order_queue_pass_requeues_what_gave_up order_2_fails 1 3 three_items)
    as (Hq & _); [reflexivity|].
  rewrite Hq. reflexivity.
Defined.

Lemma process_items_negative_delay replicate retry_delay retry_attempts :
  Py.ltb retry_delay 0 = true ->
  (2 <= retry_attempts)%Z ->
  forall queue_copy i,
    (process_items replicate retry_delay retry_attempts i queue_copy []).1 = []
    /\ count_events is_warning
         (process_items replicate retry_delay retry_attempts i queue_copy []).2 = 0%nat
    /\ count_events is_sleep
         (process_items replicate retry_delay retry_attempts i queue_copy []).2 = 0%nat.
Proof.
  intros Hd Hra.
  destruct (Z.to_nat retry_attempts) as [|[|k]] eqn:Hn; [lia|lia|].
  induction queue_copy as [|item rest IH]; intros i; [repeat split; reflexivity|].
  cbn [process_items]. rewrite Hn. cbn [retry_loop].
  destruct (replicate i item 1%nat).
  - specialize (IH (S i)).
    destruct (process_items replicate retry_delay retry_attempts (S i) rest []) as [q evs].
    exact IH.
  - rewrite Hd. repeat split; reflexivity.
Qed.

(** X28: with a negative retry delay and two tries or more allowed, the
    first try that fails ends the pass in [time.sleep]: the queue is empty
    afterwards whatever failed, so no failed order is ever tried again, and
    no warning tells of it. *)
Theorem negative_retry_delay_loses_failed_orders
    (replicate : nat -> Item -> nat -> bool) (retry_delay : Q)
    (retry_attempts : Z) (order_queue : list Item) :
  Py.ltb retry_delay 0 = true ->
  (2 <= retry_attempts)%Z ->
  let result := _process_order_queue replicate retry_delay retry_attempts order_queue in
  result.1 = []
  /\ count_events is_warning result.2 = 0%nat
  /\ count_events is_sleep result.2 = 0%nat.
Proof.
  intros Hd Hra result.
  assert (result = process_items replicate retry_delay retry_attempts 0 order_queue [])
    as -> by (unfold result, _process_order_queue; destruct order_queue; reflexivity).
  apply process_items_negative_delay; assumption.
Qed.

Lemma negative_retry_delay_loses_failed_orders_witness :
  Py.ltb (-1) 0 = true /\ (2 <= 3)%Z
  /\ (_process_order_queue order_2_fails (-1) 3 three_items).1 = [].
Proof.
  split; [reflexivity|]. split; [lia|].
  apply (negative_retry_delay_loses_failed_orders order_2_fails (-1) 3 three_items);
    [reflexivity|lia].
Defined.

Lemma add_to_order_queue_length max_queue_size item order_queue :
  (Z.of_nat (length order_queue) <= Z.max 0 max_queue_size)%Z ->
  (Z.of_nat (length (_add_to_order_queue max_queue_size item order_queue))
   <= Z.max 0 max_queue_size)%Z.
Proof.
  intros Hl. unfold _add_to_order_queue.
  destruct (max_queue_size <=? Z.of_nat (length order_queue))%Z eqn:Hc.
  - apply Z.leb_le in Hc. destruct order_queue as [|x rest]; [simpl; lia|].
    rewrite length_app. simpl in *. lia.
  - apply Z.leb_gt in Hc. rewrite length_app. simpl. lia.
Qed.

(** X29: adding to the order queue: a queue that is full loses its oldest
    item and takes the new one last, so a queue that starts empty never
    holds more than [max_queue_size] items; with a bound of one or more the
    new item is in the queue afterwards, as [_is_order_synced] tells, and
    with a bound of zero or less a queue that starts empty never holds
    any. *)
Theorem order_queue_stays_within_its_bound
    (max_queue_size : Z) (items : list Item) (item : Item) (order_queue : list Item) :
  (Z.of_nat (length (add_all max_queue_size items [])) <= Z.max 0 max_queue_size)%Z
  /\ ((1 <= max_queue_size)%Z ->
      last (_add_to_order_queue max_queue_size item order_queue) = Some item
      /\ _is_order_synced (order_id item)
           (_add_to_order_queue max_queue_size item order_queue) = true)
  /\ ((max_queue_size <= Z.of_nat (length order_queue))%Z ->
      _add_to_order_queue max_queue_size item order_queue
      = match order_queue with
        | [] => []
        | _ :: rest => rest ++ [item]
        end)
  /\ ((Z.of_nat (length order_queue) < max_queue_size)%Z ->
      _add_to_order_queue max_queue_size item order_queue = order_queue ++ [item]).
Proof.
  split; [|split; [|split]].
  - unfold add_all.
    assert (forall q : list Item,
              (Z.of_nat (length q) <= Z.max 0 max_queue_size)%Z ->
              (Z.of_nat (length
                 (foldl (fun q order_item => _add_to_order_queue max_queue_size order_item q)
                        q items)) <= Z.max 0 max_queue_size)%Z) as H.
    { induction items as [|x l IH]; intros q Hq; simpl; [exact Hq|].
      apply IH, add_to_order_queue_length, Hq. }
    apply H. simpl. lia.
  - intros Hm.
    assert (exists q, _add_to_order_queue max_queue_size item order_queue = q ++ [item])
      as [q ->].
    { unfold _add_to_order_queue.
      destruct (max_queue_size <=? Z.of_nat (length order_queue))%Z eqn:Hc; [|eauto].
      apply Z.leb_le in Hc. destruct order_queue as [|x rest]; [simpl in Hc; lia|eauto]. }
    split; [apply last_snoc|].
    unfold _is_order_synced. rewrite existsb_app. simpl.
    rewrite Z.eqb_refl, orb_true_r. reflexivity.
  - intros Hc. unfold _add_to_order_queue.
    rewrite (proj2 (Z.leb_le _ _) Hc). reflexivity.
  - intros Hc. unfold _add_to_order_queue.
    rewrite (proj2 (Z.leb_gt _ _) Hc). reflexivity.
Qed.

End IntegrationProofs.

(** ** The hypotheses of the properties hold in the scenarios *)
Module ScenarioExamples.
Import RiskManager Levels MoreScenarios.

Lemma stop_loss_level_tracks_the_pips_witness :
  entry_of Scenarios.terminal_1000 "EURUSD" "BUY" None = Some 1.1001
  /\ t_symbol_info Scenarios.terminal_1000 "EURUSD" = Some Scenarios.eurusd
  /\ _calculate_stop_loss_pips Scenarios.terminal_1000 (init default_config)
       "EURUSD" "BUY" = Py.Fin 20
  /\ exists sl,
       calculate_stop_loss Scenarios.terminal_1000 (init default_config)
         "EURUSD" "BUY" None = Py.Fin sl
       /\ exists k : Z, sl == inject_Z k / Py.pow10 5.
Proof.
  split; [vm_compute; reflexivity|]. split; [reflexivity|].
  split; [vm_compute; reflexivity|].
  destruct (LevelsProofs.stop_loss_level_tracks_the_pips Scenarios.terminal_1000
              (init default_config) "EURUSD" "BUY" None 1.1001 20 Scenarios.eurusd)
    as (sl & Hsl & Hk & _); [vm_compute; reflexivity|reflexivity|vm_compute; reflexivity|].
  exists sl. split; [exact Hsl|exact Hk].
Defined.

Lemma take_profit_keeps_the_ratio_witness :
  tp_method default_take_profit = "risk_reward"
  /\ entry_of Scenarios.terminal_1000 "EURUSD" "BUY" None = Some 1.1001
  /\ t_symbol_info Scenarios.terminal_1000 "EURUSD" = Some Scenarios.eurusd
  /\ ~ 1.0951 == 0
  /\ exists tp,
       calculate_take_profit default_take_profit Scenarios.terminal_1000
         (init default_config) "EURUSD" "BUY" None (Some 1.0951) = Py.Fin tp
       /\ Qabs (tp - (1.1001 + Qabs (1.1001 - 1.0951) * 2)) <= (1 # 2) / Py.pow10 5.
Proof.
  assert (Hsl : ~ 1.0951 == 0) by (intros H; discriminate H).
  split; [reflexivity|]. split; [vm_compute; reflexivity|]. split; [reflexivity|].
  split; [exact Hsl|].
  destruct (LevelsProofs.take_profit_keeps_the_ratio default_take_profit
              Scenarios.terminal_1000 (init default_config) "EURUSD" "BUY" None
              1.1001 1.0951 Scenarios.eurusd) as [_ H];
    [reflexivity|vm_compute; reflexivity|reflexivity|].
  exact (H Hsl).
Defined.

(** With the ask at 1.1001 and the stop loss 50 pips under it, the take
    profit is 100 pips over it. *)
Example take_profit_at_twice_the_risk :
  match calculate_take_profit default_take_profit Scenarios.terminal_1000
          (init default_config) "EURUSD" "BUY" None (Some 1.0951) with
  | Py.Fin tp => tp == 1.1101
  | _ => False
  end.
Proof. vm_compute. reflexivity. Qed.

Lemma recovery_mode_needs_a_losing_streak_witness :
  _check_recovery_mode manager_three_losses = true
  /\ Forall (fun tr => tr_profit tr < 0)
            (take 3 (sorted_desc (trade_history manager_three_losses))).
Proof.
  split; [vm_compute; reflexivity|].
  apply (RiskModelsProofs.recovery_mode_needs_a_losing_streak manager_three_losses).
  vm_compute. reflexivity.
Defined.

Lemma correlation_risk_names_two_correlated_positions_witness :
  _check_correlation_risk terminal_correlated (Scenarios.manager_of terminal_correlated)
  = true
  /\ exists p1 p2 : Position,
       p1 ∈ position_values (Scenarios.manager_of terminal_correlated)
       /\ p2 ∈ position_values (Scenarios.manager_of terminal_correlated)
       /\ symbol p1 <> symbol p2.
Proof.
  split; [vm_compute; reflexivity|].
  destruct (PositionChecksProofs.correlation_risk_names_two_correlated_positions
              terminal_correlated (Scenarios.manager_of terminal_correlated))
    as (p1 & p2 & corr & H1 & H2 & Hne & _); [vm_compute; reflexivity|].
  exists p1, p2. split; [exact H1|]. split; [exact H2|exact Hne].
Defined.

Lemma close_all_positions_closes_what_it_can_witness :
  (fun ps : gmap Z Position => (map_to_list ps).*1)
    (positions (Scenarios.manager_of Scenarios.terminal_two_positions))
  ≡ₚ (map_to_list (positions (Scenarios.manager_of Scenarios.terminal_two_positions))).*1
  /\ let '(ok, s', t') :=
       History.close_all_positions (fun _ => 0%Z) (fun _ => 0%Z) (fun _ => 0%Z)
         (fun _ => 0%Z) (fun _ => None) (fun ps => (map_to_list ps).*1)
         Scenarios.terminal_two_positions
         (Scenarios.manager_of Scenarios.terminal_two_positions) in
     (forall k,
        positions s' !! k
        = match positions (Scenarios.manager_of Scenarios.terminal_two_positions) !! k with
          | Some p => if History.can_close Scenarios.terminal_two_positions k p
                      then None else Some p
          | None => None
          end)
     /\ (ok = true <-> positions s' = ∅).
Proof.
  split; [reflexivity|].
  apply (HistoryProofs.close_all_positions_closes_what_it_can
           (fun _ => 0%Z) (fun _ => 0%Z) (fun _ => 0%Z) (fun _ => 0%Z) (fun _ => None)
           (fun ps => (map_to_list ps).*1)).
  reflexivity.
Defined.

Lemma replica_request_respects_the_configuration_witness :
  exists req,
    Replicator.transform ReplicationScenarios.order_100 ReplicationScenarios.config_half
    = Some req
    /\ Replicator.x_symbol req = "EURUSD"
    /\ Replicator.x_volume req <= 1.0 * 0.5.
Proof.
  eexists. split; [vm_compute; reflexivity|].
  edestruct (DispatchProofs.replica_request_respects_the_configuration
               ReplicationScenarios.order_100 ReplicationScenarios.config_half)
    as (Hs & _ & _ & Hv & _); [vm_compute; reflexivity|].
  split; [exact Hs|exact Hv].
Defined.

End ScenarioExamples.

Module RegistryExamples.
Import MultiAccount Groups MoreScenarios.

Lemma valid_groups_empty : valid_groups empty.
Proof. intros g grp H. simpl in H. rewrite lookup_empty in H. discriminate H. Qed.

Lemma add_account_valid a m : valid_groups m -> valid_groups (add_account a m).1.
Proof.
  intros Hv. unfold add_account. destruct (bool_decide (a ∈ backends m)); [exact Hv|].
  intros g grp Hg. simpl in *. destruct (Hv g grp Hg) as [Hs Ht]. split.
  - apply elem_of_union. right. exact Hs.
  - eapply Forall_impl; [exact Ht|]. intros x [Hx Hne]. split; [|exact Hne].
    apply elem_of_union. right. exact Hx.
Qed.

Lemma create_replication_group_valid g src ts m :
  valid_groups m -> valid_groups (create_replication_group g src ts m).1.
Proof.
  intros Hv. unfold create_replication_group.
  destruct (bool_decide (is_Some (replication_groups m !! g))); [exact Hv|].
  destruct (bool_decide (src ∈ backends m)) eqn:Hsrc; simpl; [|exact Hv].
  apply bool_decide_eq_true in Hsrc.
  assert (forall g' grp',
            <[g := {| source := src;
                      targets := List.filter
                        (fun target_id => bool_decide (target_id ∈ backends m)
                                          && negb (String.eqb target_id src)) ts |}]>
              (replication_groups m) !! g' = Some grp' ->
            source grp' ∈ backends m
            /\ Forall (fun a => a ∈ backends m /\ a <> source grp') (targets grp')) as H.
  { intros g' grp' Hl. destruct (decide (g' = g)) as [->|Hne].
    - rewrite lookup_insert_eq in Hl. injection Hl as <-. simpl. split; [exact Hsrc|].
      apply Forall_forall. intros x Hx.
      apply GroupsProofs.valid_targets_spec in Hx as (_ & Hb & Hn). auto.
    - rewrite lookup_insert_ne in Hl by congruence. apply (Hv g' grp' Hl). }
  destruct (replicators m !! src); exact H.
Qed.

Lemma two_groups_consistent : consistent ReplicationScenarios.two_groups.
Proof.
  unfold ReplicationScenarios.two_groups.
  repeat first [ apply GroupsProofs.create_replication_group_consistent
               | apply GroupsProofs.add_account_consistent ].
  apply GroupsProofs.consistent_empty.
Qed.

Lemma two_groups_well_formed : well_formed ReplicationScenarios.two_groups.
Proof.
  unfold ReplicationScenarios.two_groups.
  repeat first [ apply MultiAccountProofs.create_replication_group_well_formed
               | apply MultiAccountProofs.add_account_well_formed ].
  apply MultiAccountProofs.well_formed_empty.
Qed.

Lemma two_groups_valid : valid_groups ReplicationScenarios.two_groups.
Proof.
  unfold ReplicationScenarios.two_groups.
  repeat first [ apply create_replication_group_valid | apply add_account_valid ].
  apply valid_groups_empty.
Qed.

Lemma removed_group_leaves_its_targets_on_a_shared_replicator_witness :
  consistent ReplicationScenarios.two_groups
  /\ replication_groups ReplicationScenarios.two_groups !! "g1"
     = Some {| source := "A"; targets := ["T1"] |}
  /\ replicators (remove_replication_group "g1" ReplicationScenarios.two_groups).1
     = replicators ReplicationScenarios.two_groups
  /\ exists r,
       replicators (remove_replication_group "g1" ReplicationScenarios.two_groups).1 !! "A"
       = Some r
       /\ "T1" ∈ Replicator.mt5_backend_targets r.
Proof.
  split; [exact two_groups_consistent|]. split; [vm_compute; reflexivity|].
  destruct (GroupCallsProofs.removed_group_leaves_its_targets_on_a_shared_replicator
              "g1" {| source := "A"; targets := ["T1"] |} ReplicationScenarios.two_groups
              two_groups_consistent)
    as (_ & _ & _ & Hshared & _); [vm_compute; reflexivity|].
  destruct Hshared as (Hsame & r & Hr & Hsub).
  { exists "g2", {| source := "A"; targets := ["T2"] |}.
    split; [discriminate|]. split; [vm_compute; reflexivity|reflexivity]. }
  split; [exact Hsame|]. exists r. split; [exact Hr|].
  apply Hsub. simpl. apply elem_of_cons. left. reflexivity.
Defined.

Lemma group_target_add_then_remove_witness :
  consistent ReplicationScenarios.two_groups
  /\ replication_groups ReplicationScenarios.two_groups !! "g1"
     = Some {| source := "A"; targets := ["T1"] |}
  /\ replicators ReplicationScenarios.two_groups !! "A"
     = Some (replicator_of_A false false)
  /\ "B" ∈ backends ReplicationScenarios.two_groups
  /\ ("B" ∉ Replicator.mt5_backend_targets (replicator_of_A false false))
  /\ ("B" <> "A")
  /\ remove_target_from_group "g1" "B"
       (add_target_to_group "g1" "B" ReplicationScenarios.two_groups).1
     = (ReplicationScenarios.two_groups, true).
Proof.
  assert (H1 : replication_groups ReplicationScenarios.two_groups !! "g1"
               = Some {| source := "A"; targets := ["T1"] |}) by (vm_compute; reflexivity).
  assert (H2 : replicators ReplicationScenarios.two_groups !! "A"
               = Some (replicator_of_A false false)) by (vm_compute; reflexivity).
  assert (H3 : "B" ∈ backends ReplicationScenarios.two_groups)
    by (apply (bool_decide_unpack _); vm_compute; exact I).
  assert (H4 : "B" ∉ Replicator.mt5_backend_targets (replicator_of_A false false))
    by (apply (bool_decide_unpack _); vm_compute; exact I).
  assert (H5 : "B" <> "A") by discriminate.
  split; [exact two_groups_consistent|]. split; [exact H1|]. split; [exact H2|].
  split; [exact H3|]. split; [exact H4|]. split; [exact H5|].
  apply (GroupCallsProofs.group_target_add_then_remove "g1" "B"
           {| source := "A"; targets := ["T1"] |} (replicator_of_A false false)
           ReplicationScenarios.two_groups two_groups_consistent H1 H2 H3 H4 H5).
Defined.

Lemma restart_after_a_shared_stop_stays_disabled_witness :
  replication_groups ReplicationScenarios.two_groups_running !! "g1"
  = Some {| source := "A"; targets := ["T1"] |}
  /\ replication_groups ReplicationScenarios.two_groups_running !! "g2"
     = Some {| source := "A"; targets := ["T2"] |}
  /\ replicators ReplicationScenarios.two_groups_running !! "A"
     = Some (replicator_of_A true true)
  /\ start_replication (fun _ => true) "g1"
       (stop_replication "g1" ReplicationScenarios.two_groups_running).1
     = ((stop_replication "g1" ReplicationScenarios.two_groups_running).1, true).
Proof.
  assert (H1 : replication_groups ReplicationScenarios.two_groups_running !! "g1"
               = Some {| source := "A"; targets := ["T1"] |}) by (vm_compute; reflexivity).
  assert (H2 : replication_groups ReplicationScenarios.two_groups_running !! "g2"
               = Some {| source := "A"; targets := ["T2"] |}) by (vm_compute; reflexivity).
  assert (H3 : replicators ReplicationScenarios.two_groups_running !! "A"
               = Some (replicator_of_A true true)) by (vm_compute; reflexivity).
  split; [exact H1|]. split; [exact H2|]. split; [exact H3|].
  apply (GroupCallsProofs.restart_after_a_shared_stop_stays_disabled
           elements (fun _ => true) "g1" "g2"
           {| source := "A"; targets := ["T1"] |} {| source := "A"; targets := ["T2"] |}
           (replicator_of_A true true) ReplicationScenarios.two_groups_running
           H1 H2 ltac:(discriminate) eq_refl H3 eq_refl eq_refl "g1").
  left. reflexivity.
Defined.

Lemma save_then_load_restores_groups_and_configs_witness :
  map_to_list (replication_groups ReplicationScenarios.two_groups)
  ≡ₚ map_to_list (replication_groups ReplicationScenarios.two_groups)
  /\ well_formed ReplicationScenarios.two_groups
  /\ valid_groups ReplicationScenarios.two_groups
  /\ replication_groups
       (load_configuration
          (Some (Some (save_configuration map_to_list ReplicationScenarios.two_groups)))
          ReplicationScenarios.two_groups).1
     = replication_groups ReplicationScenarios.two_groups.
Proof.
  split; [reflexivity|]. split; [exact two_groups_well_formed|].
  split; [exact two_groups_valid|].
  apply (SaveLoadProofs.save_then_load_restores_groups_and_configs map_to_list
           ReplicationScenarios.two_groups
           (reflexivity _) two_groups_well_formed two_groups_valid).
Defined.

End RegistryExamples.
